(** * Agentic Provision: session state machine and system audit

    A shallow embedding of [lib/state_manager.py] (class [SessionState]) and
    of [scripts/audit-system.py] (probe runner, audit orchestrator, drift
    computation), with the properties of the design document stated over it.

    Conventions.
    - Python dictionaries whose iteration order is not observed by any
      stated property are finite maps ([gmap]); the task manifest, whose
      iteration order drives the sequential audit, is an association list.
    - [datetime.now()], the random session suffix, the host shell, the
      environment and the JSON codec are oracles, gathered in the class
      [Host]; the theorems hold for every host.
    - A Python exception is a value of [exn]; a method that raises keeps the
      mutations it made before the raise.
    - The file system maps a path to the text stored there. Its operations
      fail only on a missing file: directories exist and the disk is
      writable.
    - A string is a sequence of characters with code points below 256;
      [lower], [strip], [split] and the comparison of strings are Python's
      on those characters. *)

From Stdlib Require Import Ascii String ZArith List Sorting.Sorted.
From stdpp Require Import base option list gmap strings sorting pretty.

Open Scope Z_scope.
Open Scope nat_scope.

Set Warnings "-clear-no-such-hyp".

(** ** Python values *)

(** What [json.load] returns and [json.dump] accepts. *)
#[local] Unset Elimination Schemes.
Inductive json : Type :=
  | JNull
  | JBool (b : bool)
  | JInt (z : Z)
  | JStr (s : string)
  | JList (l : list json)
  | JDict (m : gmap string json).
#[local] Set Elimination Schemes.

Inductive exn : Type :=
  | KeyError (k : string)
  | IndexError
  | TypeError
  | AttributeError
  | FileNotFoundError
  | JSONDecodeError.

Inductive result (A : Type) : Type :=
  | Ok (a : A)
  | Raise (e : exn).
Arguments Ok {A} a.
Arguments Raise {A} e.

(** [j.get(k, default)]: only a dictionary has the method. *)
Definition json_get (k : string) (default : json) (j : json) : result json :=
  match j with
  | JDict m => Ok (match m !! k with Some v => v | None => default end)
  | _ => Raise AttributeError
  end.

(** ** Strings *)

Module Str.

(** [s[:n]] *)
Definition slice_to (n : nat) (s : string) : string := String.substring 0 n s.

(** [s[n:]] *)
Fixpoint slice_from (n : nat) (s : string) : string :=
  match n, s with
  | O, _ => s
  | S n', String _ s' => slice_from n' s'
  | S _, EmptyString => EmptyString
  end.

(** [c.lower()]: the capital letters are A to Z and, above 127, the
    code points 192 to 222 but for the multiplication sign (215). *)
Definition lower_char (c : ascii) : ascii :=
  let n := nat_of_ascii c in
  if ((65 <=? n) && (n <=? 90))
     || ((192 <=? n) && (n <=? 222) && negb (n =? 215))
  then ascii_of_nat (n + 32) else c.

Fixpoint lower (s : string) : string :=
  match s with
  | EmptyString => EmptyString
  | String c s' => String (lower_char c) (lower s')
  end.

(** [s.startswith(p)] *)
Definition startswith (p s : string) : bool := String.prefix p s.

(** [p in s] *)
Fixpoint contains (p s : string) : bool :=
  String.prefix p s ||
  match s with
  | EmptyString => false
  | String _ s' => contains p s'
  end.

(** The characters [str.strip] and [str.split] treat as white space:
    tab to carriage return, the four separators and the space, and above
    127 the next-line character (133) and the no-break space (160). *)
Definition is_space (c : ascii) : bool :=
  let n := nat_of_ascii c in
  ((9 <=? n) && (n <=? 13)) || ((28 <=? n) && (n <=? 32))
  || (n =? 133) || (n =? 160).

Fixpoint lstrip (s : string) : string :=
  match s with
  | EmptyString => EmptyString
  | String c s' => if is_space c then lstrip s' else s
  end.

Fixpoint rev_string (acc s : string) : string :=
  match s with
  | EmptyString => acc
  | String c s' => rev_string (String c acc) s'
  end.

Definition rstrip (s : string) : string :=
  rev_string EmptyString (lstrip (rev_string EmptyString s)).

(** [s.strip()] *)
Definition strip (s : string) : string := rstrip (lstrip s).

(** [s.split(sep)] for a non-empty separator: [skip] counts the
    characters of a separator just matched that are still to be dropped,
    [cur] is the piece being accumulated (reversed). *)
Fixpoint split_aux (sep : string) (skip : nat) (cur : string) (s : string)
  : list string :=
  match s with
  | EmptyString => [rev_string EmptyString cur]
  | String c s' =>
      match skip with
      | S k => split_aux sep k cur s'
      | O =>
          if String.prefix sep s
          then rev_string EmptyString cur
                 :: split_aux sep (String.length sep - 1) EmptyString s'
          else split_aux sep 0 (String c cur) s'
      end
  end.

Definition split_on (sep s : string) : list string :=
  split_aux sep 0 EmptyString s.

(** The first piece of [s.split(sep)] for a one-character separator. *)
Fixpoint until_char (c : ascii) (s : string) : string :=
  match s with
  | EmptyString => EmptyString
  | String c' s' => if Ascii.eqb c c' then EmptyString else String c' (until_char c s')
  end.

Fixpoint take_word (s : string) : string :=
  match s with
  | EmptyString => EmptyString
  | String c s' => if is_space c then EmptyString else String c (take_word s')
  end.

(** [s.split()[0]]: the first white-space separated word, or [IndexError]
    when there is none. *)
Definition first_word (s : string) : result string :=
  match lstrip s with
  | EmptyString => Raise IndexError
  | w => Ok (take_word w)
  end.

Fixpoint repeat_char (c : ascii) (n : nat) : string :=
  match n with
  | O => EmptyString
  | S n' => String c (repeat_char c n')
  end.

(** Python truthiness of an optional string: [None] and [""] are false. *)
Definition truthy (o : option string) : bool :=
  match o with
  | Some (String _ _) => true
  | _ => false
  end.

End Str.

(** ** Paths ([pathlib.Path], as its tuple of parts) *)

Module Path.

Definition t : Type := list string.

Definition parent (p : t) : t := removelast p.
Definition name (p : t) : string := List.last p EmptyString.

(** [p / child] *)
Definition joinpath (p : t) (child : string) : t := p ++ [child].

(** [s.rfind(c)] *)
Fixpoint rfind (c : ascii) (s : string) : option nat :=
  match s with
  | EmptyString => None
  | String c' s' =>
      match rfind c s' with
      | Some i => Some (S i)
      | None => if Ascii.eqb c c' then Some 0 else None
      end
  end.

(** [PurePath.suffix]: the final component from its last dot on, when that
    dot is neither the first nor the last character. *)
Definition suffix (p : t) : string :=
  let n := name p in
  match rfind "." n with
  | Some i => if (0 <? i) && (i <? String.length n - 1) then Str.slice_from i n else EmptyString
  | None => EmptyString
  end.

(** [p.with_suffix(suf)], for a path with a non-empty final component
    (every session file has one). *)
Definition with_suffix (p : t) (suf : string) : t :=
  let n := name p in
  let old := suffix p in
  joinpath (parent p)
    (Str.slice_to (String.length n - String.length old) n +:+ suf).

End Path.

(** ** The host: clock, randomness, subprocesses, JSON codec *)

(** One reading of [datetime.now()]. *)
Record Instant := {
  isoformat : string;          (* [.isoformat()] *)
  strftime_id : string         (* [.strftime('%Y%m%d-%H%M%S')] *)
}.

(** How [subprocess.run(cmd, shell=True, capture_output=True, text=True,
    timeout=...)] ends. *)
Inductive Completed : Type :=
  | Exited (returncode : Z) (stdout : string)
  | TimeoutExpired
  | Failed (msg : string).

Class Host := {
  clock : nat → Instant;                 (* the n-th reading of the clock *)
  random_suffix : nat → string;          (* the n-th draw of 4 characters *)
  shell : string → nat → Completed;      (* command, timeout in seconds *)
  path_exists : string → bool;           (* [os.path.exists] *)
  environ : string → option string;      (* [os.environ.get] *)
  json_iterencode : json → list string;  (* what [json.dump] writes, in order *)
  json_loads : string → option json      (* [json.load]; [None] on bad input *)
}.

(** The text [json.dump(obj, f, indent=2)] leaves in [f]. *)
Definition json_dumps `{Host} (j : json) : string :=
  foldr String.append EmptyString (json_iterencode j).

(** ** The file system: path to content *)

Module FS.

Inductive op : Type :=
  | OpenW (p : Path.t)                   (* [open(p, 'w')]: create or truncate *)
  | Write (p : Path.t) (chunk : string)  (* [f.write(chunk)] on the open file *)
  | Rename (src dst : Path.t).           (* [src.rename(dst)] *)

Definition step (o : op) (fs : gmap Path.t string) : result (gmap Path.t string) :=
  match o with
  | OpenW p => Ok (<[p := EmptyString]> fs)
  | Write p chunk =>
      match fs !! p with
      | Some c => Ok (<[p := c +:+ chunk]> fs)
      | None => Raise FileNotFoundError
      end
  | Rename src dst =>
      match fs !! src with
      | Some c => Ok (<[dst := c]> (delete src fs))
      | None => Raise FileNotFoundError
      end
  end.

(** Runs a script until it ends or an operation raises; the file system
    keeps the effect of the operations already done. *)
Fixpoint run (script : list op) (fs : gmap Path.t string)
  : result unit * gmap Path.t string :=
  match script with
  | [] => (Ok tt, fs)
  | o :: script' =>
      match step o fs with
      | Ok fs' => run script' fs'
      | Raise e => (Raise e, fs)
      end
  end.

(** The file system a process leaves behind when it is killed after the
    first [k] operations of [script]. *)
Definition crash_after (k : nat) (script : list op) (fs : gmap Path.t string)
  : gmap Path.t string :=
  (run (take k script) fs).2.

(** The operation opens or writes the file at [q0]. *)
Definition on_path (q0 : Path.t) (o : op) : Prop :=
  match o with
  | OpenW q | Write q _ => q = q0
  | Rename _ _ => False
  end.

End FS.

(** ** The session document ([SessionState.state]) *)

Record PhaseEntry := { pe_phase : string; pe_ended : string }.

Record Phase := { current : string; history : list PhaseEntry }.

Record Choice := { answer : string; value : json; timestamp : string }.

Record Execution := {
  commands : list (gmap string string);
  current_task : option string
}.

(** The dictionary built by [create_session]. The dictionaries whose values
    are all strings ([meta], a task record, a command entry, the resume
    point) are maps from key to string, so that a key may be present or
    absent as in the source. *)
Record Document := {
  meta : gmap string string;
  phase : Phase;
  profile : option string;
  choices : gmap string Choice;
  user_data : gmap string string;
  tasks : gmap string (gmap string string);
  plan : list string;
  execution : Execution;
  resume_point : option (gmap string string);
  expansion_history : list json
}.

Definition with_meta (f : gmap string string → gmap string string) (d : Document) :=
  {| meta := f (meta d); phase := phase d; profile := profile d;
     choices := choices d; user_data := user_data d; tasks := tasks d;
     plan := plan d; execution := execution d;
     resume_point := resume_point d; expansion_history := expansion_history d |}.

Definition with_phase (f : Phase → Phase) (d : Document) :=
  {| meta := meta d; phase := f (phase d); profile := profile d;
     choices := choices d; user_data := user_data d; tasks := tasks d;
     plan := plan d; execution := execution d;
     resume_point := resume_point d; expansion_history := expansion_history d |}.

Definition with_choices (f : gmap string Choice → gmap string Choice) (d : Document) :=
  {| meta := meta d; phase := phase d; profile := profile d;
     choices := f (choices d); user_data := user_data d; tasks := tasks d;
     plan := plan d; execution := execution d;
     resume_point := resume_point d; expansion_history := expansion_history d |}.

Definition with_user_data (f : gmap string string → gmap string string) (d : Document) :=
  {| meta := meta d; phase := phase d; profile := profile d;
     choices := choices d; user_data := f (user_data d); tasks := tasks d;
     plan := plan d; execution := execution d;
     resume_point := resume_point d; expansion_history := expansion_history d |}.

Definition with_tasks
    (f : gmap string (gmap string string) → gmap string (gmap string string))
    (d : Document) :=
  {| meta := meta d; phase := phase d; profile := profile d;
     choices := choices d; user_data := user_data d; tasks := f (tasks d);
     plan := plan d; execution := execution d;
     resume_point := resume_point d; expansion_history := expansion_history d |}.

Definition with_plan (l : list string) (d : Document) :=
  {| meta := meta d; phase := phase d; profile := profile d;
     choices := choices d; user_data := user_data d; tasks := tasks d;
     plan := l; execution := execution d;
     resume_point := resume_point d; expansion_history := expansion_history d |}.

Definition with_execution (f : Execution → Execution) (d : Document) :=
  {| meta := meta d; phase := phase d; profile := profile d;
     choices := choices d; user_data := user_data d; tasks := tasks d;
     plan := plan d; execution := f (execution d);
     resume_point := resume_point d; expansion_history := expansion_history d |}.

Definition with_resume_point (r : option (gmap string string)) (d : Document) :=
  {| meta := meta d; phase := phase d; profile := profile d;
     choices := choices d; user_data := user_data d; tasks := tasks d;
     plan := plan d; execution := execution d;
     resume_point := r; expansion_history := expansion_history d |}.

(** The document as the Python value handed to [json.dump]. *)
Module ToJson.

Definition str_dict (m : gmap string string) : json := JDict (JStr <$> m).

Definition opt_str (o : option string) : json :=
  match o with Some s => JStr s | None => JNull end.

Definition phase_entry (e : PhaseEntry) : json :=
  JDict {[ "phase" := JStr (pe_phase e); "ended" := JStr (pe_ended e) ]}.

Definition choice (c : Choice) : json :=
  JDict {[ "answer" := JStr (answer c); "value" := value c;
           "timestamp" := JStr (timestamp c) ]}.

Definition document (d : Document) : json :=
  JDict {[
    "meta" := str_dict (meta d);
    "phase" := JDict {[ "current" := JStr (current (phase d));
                        "history" := JList (phase_entry <$> history (phase d)) ]};
    "profile" := opt_str (profile d);
    "choices" := JDict (choice <$> choices d);
    "user_data" := str_dict (user_data d);
    "tasks" := JDict (str_dict <$> tasks d);
    "plan" := JList (JStr <$> plan d);
    "execution" := JDict {[ "commands" := JList (str_dict <$> commands (execution d));
                            "current_task" := opt_str (current_task (execution d)) ]};
    "resume_point" := match resume_point d with
                      | Some r => str_dict r
                      | None => JNull
                      end;
    "expansion_history" := JList (expansion_history d)
  ]}.

End ToJson.

(** ** The session state machine ([class SessionState]) *)

Record World := {
  files : gmap Path.t string;
  ticks : nat;                (* clock readings taken so far *)
  draws : nat                 (* random suffixes drawn so far *)
}.

(** The object: [self.sessions_dir], [self.session_file], [self.state]; the
    three partition directories are derived from [sessions_dir] as in
    [__init__]. The model starts from an initialised session. *)
Record SessionState := {
  sessions_dir : Path.t;
  session_file : option Path.t;
  state : Document
}.

Definition active_dir (s : SessionState) : Path.t := Path.joinpath (sessions_dir s) "active".
Definition completed_dir (s : SessionState) : Path.t := Path.joinpath (sessions_dir s) "completed".
Definition failed_dir (s : SessionState) : Path.t := Path.joinpath (sessions_dir s) "failed".

Record Cfg := { world : World; self : SessionState }.

(** A method: it runs in a configuration, returns or raises, and leaves a
    configuration behind in both cases. *)
Definition M (A : Type) : Type := Cfg → result A * Cfg.

#[export] Instance M_ret : MRet M := λ A a c, (Ok a, c).

#[export] Instance M_bind : MBind M := λ A B f m c,
  match m c with
  | (Ok a, c') => f a c'
  | (Raise e, c') => (Raise e, c')
  end.

Definition raise {A} (e : exn) : M A := λ c, (Raise e, c).

Definition get_self : M SessionState := λ c, (Ok (self c), c).

Definition get_state : M Document := λ c, (Ok (state (self c)), c).

(** An in-place mutation of [self.state]. *)
Definition modify (f : Document → Document) : M unit := λ c,
  (Ok tt,
   {| world := world c;
      self := {| sessions_dir := sessions_dir (self c);
                 session_file := session_file (self c);
                 state := f (state (self c)) |} |}).

Definition put_state (d : Document) : M unit := modify (λ _, d).

Definition set_session_file (p : Path.t) : M unit := λ c,
  (Ok tt,
   {| world := world c;
      self := {| sessions_dir := sessions_dir (self c);
                 session_file := Some p;
                 state := state (self c) |} |}).

Definition read_clock `{Host} : M Instant := λ c,
  (Ok (clock (ticks (world c))),
   {| world := {| files := files (world c); ticks := S (ticks (world c));
                  draws := draws (world c) |};
      self := self c |}).

(** [datetime.now().isoformat()] *)
Definition now `{Host} : M string := i ← read_clock; mret (isoformat i).

Definition draw_suffix `{Host} : M string := λ c,
  (Ok (random_suffix (draws (world c))),
   {| world := {| files := files (world c); ticks := ticks (world c);
                  draws := S (draws (world c)) |};
      self := self c |}).

Definition fs_exec (script : list FS.op) : M unit := λ c,
  let '(r, fs') := FS.run script (files (world c)) in
  (r, {| world := {| files := fs'; ticks := ticks (world c); draws := draws (world c) |};
         self := self c |}).

Section SessionStateMethods.
Context `{Host}.

(** The file-system operations of one [_save], in order: the temporary
    file is opened for writing, receives the encoder's chunks, and is
    renamed over the session file. *)
Definition save_script (p : Path.t) (j : json) : list FS.op :=
  let tmp_file := Path.with_suffix p ".tmp" in
  FS.OpenW tmp_file :: (FS.Write tmp_file <$> json_iterencode j)
    ++ [FS.Rename tmp_file p].

Definition _save : M unit :=
  s ← get_self;
  match session_file s with
  | None => mret tt
  | Some p =>
      t ← now;
      modify (with_meta <["updated" := t]>);;
      d ← get_state;
      fs_exec (save_script p (ToJson.document d))
  end.

(** The document [_save] writes: the state with a fresh [updated]. *)
Definition saved_document (c : Cfg) : Document :=
  with_meta <["updated" := isoformat (clock (ticks (world c)))]> (state (self c)).

(** What a save leaves behind on a session that has a file. *)
Definition persisted (c : Cfg) : Prop :=
  ∃ p, session_file (self c) = Some p
    ∧ files (world c) !! p = Some (json_dumps (ToJson.document (state (self c)))).

(** [meta.updated] holds the latest clock reading. *)
Definition refreshed (c : Cfg) : Prop :=
  meta (state (self c)) !! "updated"
  = Some (isoformat (clock (ticks (world c) - 1))).

Definition _generate_session_id : M string :=
  i ← read_clock;
  random_suffix ← draw_suffix;
  mret ("prov-" +:+ strftime_id i +:+ "-" +:+ random_suffix).

Definition create_session (profile : option string) : M string :=
  session_id ← _generate_session_id;
  created ← now;
  updated ← now;
  put_state
    {| meta := {[ "id" := session_id; "created" := created; "updated" := updated;
                  "status" := "active"; "version" := "1.0" ]};
       phase := {| current := "init"; history := [] |};
       profile := profile;
       choices := ∅;
       user_data := ∅;
       tasks := ∅;
       plan := [];
       execution := {| commands := []; current_task := None |};
       resume_point := None;
       expansion_history := [] |};;
  s ← get_self;
  set_session_file (Path.joinpath (active_dir s) (session_id +:+ ".json"));;
  _save;;
  mret session_id.

(** *** Phase management *)

Definition set_phase (new_phase : string) : M unit :=
  d ← get_state;
  let cur := current (phase d) in
  if decide (cur ≠ new_phase) then
    ended ← now;
    modify (with_phase (λ ph,
      {| current := current ph;
         history := history ph ++ [ {| pe_phase := cur; pe_ended := ended |} ] |}));;
    modify (with_phase (λ ph, {| current := new_phase; history := history ph |}));;
    _save
  else mret tt.

(** *** Choice recording *)

Definition record_choice (question_id ans : string) (v : json) : M unit :=
  t ← now;
  modify (with_choices <[question_id := {| answer := ans; value := v; timestamp := t |}]>);;
  _save.

Definition record_user_data (key v : string) : M unit :=
  modify (with_user_data <[key := v]>);;
  _save.

(** *** Task management *)

Definition seed_pending (m : gmap string (gmap string string)) (task_id : string)
  : gmap string (gmap string string) :=
  match m !! task_id with
  | None => <[task_id := {[ "status" := "pending" ]}]> m
  | Some _ => m
  end.

Definition set_plan (task_ids : list string) : M unit :=
  modify (with_plan task_ids);;
  modify (with_tasks (λ m, foldl seed_pending m task_ids));;
  _save.

(** [self.state["tasks"][task_id][key] = v]: the record is looked up
    first, and a missing one raises [KeyError]. *)
Definition task_setitem (task_id key v : string) : M unit :=
  d ← get_state;
  match tasks d !! task_id with
  | None => raise (KeyError task_id)
  | Some r => modify (with_tasks <[task_id := <[key := v]> r]>)
  end.

Definition set_current_task (o : option string) : M unit :=
  modify (with_execution (λ e, {| commands := commands e; current_task := o |})).

Definition start_task (task_id : string) : M unit :=
  set_current_task (Some task_id);;
  started ← now;
  modify (with_tasks <[task_id := {[ "status" := "in_progress"; "started" := started ]}]>);;
  modify (with_resume_point (Some {[ "task_id" := task_id; "action" := "retry" ]}));;
  _save.

Definition complete_task (task_id : string) : M unit :=
  task_setitem task_id "status" "completed";;
  t ← now;
  task_setitem task_id "completed" t;;
  set_current_task None;;
  _save.

Definition fail_task (task_id err : string) : M unit :=
  task_setitem task_id "status" "failed";;
  task_setitem task_id "error" (Str.slice_to 500 err);;
  t ← now;
  task_setitem task_id "failed_at" t;;
  modify (with_resume_point
    (Some {[ "task_id" := task_id; "action" := "retry_or_skip";
             "error" := Str.slice_to 200 err ]}));;
  _save.

Definition skip_task (task_id : string) : M unit :=
  t ← now;
  modify (with_tasks <[task_id := {[ "status" := "skipped"; "skipped_at" := t ]}]>);;
  _save.

(** *** Command logging *)

Definition set_commands (f : list (gmap string string) → list (gmap string string))
  : M unit :=
  modify (with_execution (λ e,
    {| commands := f (commands e); current_task := current_task e |})).

Definition log_command_start (command language : string) : M Z :=
  started ← now;
  let cmd_entry : gmap string string :=
    {[ "command" := Str.slice_to 1000 command; "language" := language;
       "started" := started; "status" := "running" ]} in
  set_commands (λ l, l ++ [cmd_entry]);;
  _save;;
  d ← get_state;
  mret (Z.of_nat (length (commands (execution d))) - 1)%Z.

(** [l[index]] for a Python integer: a negative index counts from the
    end; [None] stands for [IndexError]. *)
Definition py_index (len : nat) (index : Z) : option nat :=
  if (0 <=? index)%Z then
    if (index <? Z.of_nat len)%Z then Some (Z.to_nat index) else None
  else
    if (0 <=? index + Z.of_nat len)%Z then Some (Z.to_nat (index + Z.of_nat len)) else None.

Definition log_command_end (index : Z) (success : bool) (output err : string) : M unit :=
  d ← get_state;
  if (index <? Z.of_nat (length (commands (execution d))))%Z then
    match py_index (length (commands (execution d))) index with
    | None => raise IndexError
    | Some i =>
        ended ← now;
        set_commands (alter <["ended" := ended]> i);;
        set_commands (alter <["status" := if success then "success" else "failed"]> i);;
        (if Str.truthy (Some output)
         then set_commands (alter <["output" := Str.slice_to 500 output]> i)
         else mret tt);;
        (if Str.truthy (Some err)
         then set_commands (alter <["error" := Str.slice_to 500 err]> i)
         else mret tt);;
        _save
    end
  else mret tt.

(** *** Session lifecycle *)

(** The move of the session file out of the active partition. *)
Definition relocate (target : SessionState → Path.t) : M unit :=
  s ← get_self;
  match session_file s with
  | Some p =>
      if decide (Path.parent p = active_dir s) then
        let new_path := Path.joinpath (target s) (Path.name p) in
        fs_exec [FS.Rename p new_path];;
        set_session_file new_path
      else mret tt
  | None => mret tt
  end.

Definition complete_session : M unit :=
  modify (with_meta <["status" := "completed"]>);;
  t ← now;
  modify (with_meta <["completed" := t]>);;
  _save;;
  relocate completed_dir.

Definition fail_session (reason : string) : M unit :=
  modify (with_meta <["status" := "failed"]>);;
  t ← now;
  modify (with_meta <["failed_at" := t]>);;
  (if Str.truthy (Some reason)
   then modify (with_meta <["failure_reason" := Str.slice_to 500 reason]>)
   else mret tt);;
  _save;;
  relocate failed_dir.

(** [_handle_shutdown], the handler of SIGTERM and SIGINT; the value
    returned is the status handed to [sys.exit]. *)
Definition _handle_shutdown : M Z :=
  d ← get_state;
  (if decide (meta d !! "status" = Some "active") then
     modify (with_meta <["status" := "interrupted"]>);;
     t ← now;
     modify (with_meta <["interrupted_at" := t]>);;
     _save
   else mret tt);;
  mret 0%Z.

(** The [KeyboardInterrupt] branch of [run_provisioner] in
    [lib/provision.py], for an existing session object. *)
Definition save_on_keyboard_interrupt : M unit :=
  d ← get_state;
  if decide (meta d !! "status" = Some "active") then
    modify (with_meta <["status" := "interrupted"]>);;
    _save
  else mret tt.

(** *** The command hooks, with the state manager initialised *)

Definition before_command (command language : string) : M unit :=
  log_command_start command language;; mret tt.

(** [output] and [error] may be [None]. *)
Definition after_command (output err : option string) : M unit :=
  d ← get_state;
  let cmds := commands (execution d) in
  match cmds with
  | [] => mret tt
  | _ :: _ =>
      let index := (Z.of_nat (length cmds) - 1)%Z in
      let success := negb (Str.truthy err) in
      log_command_end index success
        (if Str.truthy output then default "" output else "")
        (if Str.truthy err then default "" err else "");;
      d' ← get_state;
      match current_task (execution d') with
      | Some cur =>
          if Str.truthy (Some cur) && negb success
          then fail_task cur (if Str.truthy err then default "" err else "Command failed")
          else mret tt
      | None => mret tt
      end
  end.

(** *** The mutating operations, as one type *)

Inductive Op : Type :=
  | SetPhase (new_phase : string)
  | RecordChoice (question_id ans : string) (v : json)
  | RecordUserData (key v : string)
  | SetPlan (task_ids : list string)
  | StartTask (task_id : string)
  | CompleteTask (task_id : string)
  | FailTask (task_id err : string)
  | SkipTask (task_id : string)
  | LogCommandStart (command language : string)
  | LogCommandEnd (index : Z) (success : bool) (output err : string)
  | CompleteSession
  | FailSession (reason : string).

Definition exec (o : Op) : M unit :=
  match o with
  | SetPhase new_phase => set_phase new_phase
  | RecordChoice q a v => record_choice q a v
  | RecordUserData k v => record_user_data k v
  | SetPlan l => set_plan l
  | StartTask i => start_task i
  | CompleteTask i => complete_task i
  | FailTask i e => fail_task i e
  | SkipTask i => skip_task i
  | LogCommandStart c l => log_command_start c l;; mret tt
  | LogCommandEnd i s o e => log_command_end i s o e
  | CompleteSession => complete_session
  | FailSession r => fail_session r
  end.

(** When the operation mutates the document [d] (and does not raise):
    [set_phase] on a phase change, the task transitions that need a
    record on a task that has one, [log_command_end] on an index of the
    log (counted from the start or, when negative, from the end). *)
Definition mutates (o : Op) (d : Document) : Prop :=
  match o with
  | SetPhase new_phase => current (phase d) ≠ new_phase
  | CompleteTask i | FailTask i _ => is_Some (tasks d !! i)
  | LogCommandEnd i _ _ _ =>
      (- Z.of_nat (length (commands (execution d))) ≤ i
       < Z.of_nat (length (commands (execution d))))%Z
  | _ => True
  end.

(** The task whose record an operation writes, if any ([set_plan] writes
    several). *)
Definition task_of (o : Op) : option string :=
  match o with
  | StartTask i | CompleteTask i | FailTask i _ | SkipTask i => Some i
  | _ => None
  end.

(** The fields of a command entry that are set when it is logged. *)
Definition same_command (e e' : gmap string string) : Prop :=
  e' !! "command" = e !! "command"
  ∧ e' !! "language" = e !! "language"
  ∧ e' !! "started" = e !! "started".

(** The log [l'] is the log [l], its entries possibly completed, followed
    by new entries. *)
Definition log_extends (l l' : list (gmap string string)) : Prop :=
  length l ≤ length l'
  ∧ ∀ i e, l !! i = Some e → ∃ e', l' !! i = Some e' ∧ same_command e e'.

(** Every task the document points at has a record: the current task, the
    task of the resume point, the tasks of the plan. *)
Definition references_resolve (d : Document) : Prop :=
  (∀ i, current_task (execution d) = Some i → is_Some (tasks d !! i))
  ∧ (∀ r i, resume_point d = Some r → r !! "task_id" = Some i → is_Some (tasks d !! i))
  ∧ (∀ i, i ∈ plan d → is_Some (tasks d !! i)).

(** The entry [log_command_end] leaves where it found [e]. *)
Definition complete_entry (ended : string) (success : bool) (output err : string)
    (e : gmap string string) : gmap string string :=
  let e1 := <["status" := if success then "success" else "failed"]> (<["ended" := ended]> e) in
  let e2 := if Str.truthy (Some output) then <["output" := Str.slice_to 500 output]> e1 else e1 in
  if Str.truthy (Some err) then <["error" := Str.slice_to 500 err]> e2 else e2.

(** The documents differ at most in [meta] and in the fields named. *)
Definition same_tasks_side (d d' : Document) : Prop :=
  tasks d' = tasks d ∧ plan d' = plan d ∧ resume_point d' = resume_point d
  ∧ current_task (execution d') = current_task (execution d).

Definition same_session_side (d d' : Document) : Prop :=
  phase d' = phase d ∧ profile d' = profile d ∧ choices d' = choices d
  ∧ user_data d' = user_data d ∧ expansion_history d' = expansion_history d.

(** A partition of the sessions directory, and where a session that is
    finished into it ends up: there, under its own name, when its file is
    in the active partition; where it is, otherwise. *)
Definition partition_dir (partition : string) (s : SessionState) : Path.t :=
  Path.joinpath (sessions_dir s) partition.

Definition destination (partition : string) (s : SessionState) (p : Path.t) : Path.t :=
  if decide (Path.parent p = active_dir s)
  then Path.joinpath (partition_dir partition s) (Path.name p)
  else p.

(** The operation writes the record of task [j]. *)
Definition writes_task (o : Op) (j : string) : Prop :=
  match o with
  | SetPlan l => j ∈ l
  | _ => task_of o = Some j
  end.

(** The record of task [j] is the same in both documents. *)
Definition same_record (j : string) (d d' : Document) : Prop :=
  tasks d' !! j = tasks d !! j.

(** For a session whose file is [p]: the session keeps its file and its
    directory, and the file at [q] is not touched. *)
Definition leaves_file (p q : Path.t) (c c' : Cfg) : Prop :=
  session_file (self c) = Some p →
  session_file (self c') = Some p
  ∧ sessions_dir (self c') = sessions_dir (self c)
  ∧ files (world c') !! q = files (world c) !! q.

(** The method relates the configuration it finds to the one it leaves. *)
Definition cpreserves {A} (R : relation Cfg) (m : M A) : Prop :=
  ∀ c, R c (m c).2.

(** The session is the same one: id, creation time, version, profile. *)
Definition same_identity (d d' : Document) : Prop :=
  meta d' !! "id" = meta d !! "id"
  ∧ meta d' !! "created" = meta d !! "created"
  ∧ meta d' !! "version" = meta d !! "version"
  ∧ profile d' = profile d.

(** Every task that has a record in [d] has one in [d']. *)
Definition records_kept (d d' : Document) : Prop :=
  ∀ i, is_Some (tasks d !! i) → is_Some (tasks d' !! i).

(** What no operation undoes: the identity of the session (its id, its
    creation time, its version, its profile), the task records that exist,
    the phase history and the command log. *)
Definition evolves (d d' : Document) : Prop :=
  meta d' !! "id" = meta d !! "id"
  ∧ meta d' !! "created" = meta d !! "created"
  ∧ meta d' !! "version" = meta d !! "version"
  ∧ profile d' = profile d
  ∧ dom (tasks d) ⊆ dom (tasks d')
  ∧ history (phase d) `prefix_of` history (phase d')
  ∧ log_extends (commands (execution d)) (commands (execution d')).

(** If the references of [d] resolve, so do those of [d']. *)
Definition keeps_references (d d' : Document) : Prop :=
  references_resolve d → references_resolve d'.

(** The method relates the document it finds to the document it leaves,
    whether it returns or raises. *)
Definition preserves {A} (R : relation Document) (m : M A) : Prop :=
  ∀ c, R (state (self c)) (state (self (m c).2)).

(** *** Queries *)

(** The identifiers of the tasks whose status is [wanted] (as a set: the
    order of the Python list is the insertion order of the dictionary,
    which a finite map does not record). *)
Definition tasks_with_status (wanted : string) (d : Document) : gset string :=
  dom (filter (λ kv, kv.2 !! "status" = Some wanted) (tasks d)).

Definition get_completed_tasks (d : Document) : gset string :=
  tasks_with_status "completed" d.

Definition get_pending_tasks (d : Document) : gset string :=
  tasks_with_status "pending" d.

End SessionStateMethods.

(** ** [_deep_update], on the dictionaries it merges *)

(** The value stored under a key that [updates] sets to [v] where [base]
    holds [old]: two dictionaries are merged key by key, anything else is
    replaced. *)
Fixpoint merge_value (v old : json) {struct v} : json :=
  match v, old with
  | JDict updates, JDict base =>
      JDict (map_fold (λ key value acc,
               <[key := match acc !! key with
                        | Some o => merge_value value o
                        | None => value
                        end]> acc) base updates)
  | _, _ => v
  end.

Definition _deep_update (base updates : gmap string json) : gmap string json :=
  map_fold (λ key value acc,
    <[key := match acc !! key with
             | Some o => merge_value value o
             | None => value
             end]> acc) base updates.

(** The nesting depth of dictionaries in a value, the measure for
    induction on values. *)
Fixpoint json_depth (j : json) : nat :=
  match j with
  | JDict m => S (map_fold (λ _ v acc, json_depth v `max` acc) 0 m)
  | _ => 0
  end.

(** ** The system audit ([scripts/audit-system.py]) *)

(** A task's [detection] block and the task descriptor, as loaded from a
    manifest. The descriptors modelled are those whose [detection] block
    is a mapping and whose values read here are strings; a key may be
    absent. A key whose value is null or not a string is not represented:
    the statements about descriptors are about the descriptors of this
    shape. *)
Record Detection := {
  check_command : option string;
  version_command : option string;
  installed_indicator : option string
}.

Record Task := {
  task_name : option string;
  task_category : option string;
  task_detection : option Detection
}.

Record ToolStatus := {
  task_id : string;
  name : string;
  category : string;
  installed : bool;
  version : option string;
  install_path : option string;
  detection_method : string;
  error : option string
}.

Record SystemInfo := {
  hostname : string;
  macos_version : string;
  architecture : string;
  user_shell : string;
  homebrew_installed : bool;
  homebrew_prefix : string;
  xcode_cli_installed : bool
}.

Record Summary := {
  total_tools : nat;
  installed_count : nat;
  not_installed_count : nat;
  errors_count : nat;
  by_category : gmap string (nat * nat)     (* category to (installed, total) *)
}.

(** A member of the set of identifiers read from a session: [None], a
    number or a string. [True] and [1], [False] and [0] are equal and hash
    alike in Python, so a boolean is the number. *)
Inductive key : Type :=
  | KNone
  | KNum (z : Z)
  | KStr (s : string).

#[export] Instance key_eq_dec : EqDecision key.
Proof. solve_decision. Defined.

#[export] Instance key_countable : Countable key :=
  inj_countable'
    (λ k, match k with
          | KNone => inl tt
          | KNum z => inr (inl z)
          | KStr s => inr (inr s)
          end)
    (λ x, match x with
          | inl _ => KNone
          | inr (inl z) => KNum z
          | inr (inr s) => KStr s
          end)
    (λ k, match k with KNone | KNum _ | KStr _ => eq_refl end).

(** The three lists of the drift, as sets. The installed tools are task
    identifiers; what the session lists may be any key. *)
Record Drift := {
  added_outside_session : gset string;
  removed_since_session : gset key;
  still_installed : gset string
}.

Record AuditReport := {
  report_timestamp : string;
  system : SystemInfo;
  tools : list ToolStatus;
  summary : Summary;
  drift : option Drift
}.

Section Audit.
Context `{Host}.

Definition run_command (cmd : string) (timeout : nat) : Z * string :=
  match shell cmd timeout with
  | Exited returncode stdout => (returncode, Str.strip stdout)
  | TimeoutExpired => ((-1)%Z, "timeout")
  | Failed msg => ((-1)%Z, msg)
  end.

Definition get_system_info : SystemInfo :=
  let r1 := run_command "hostname -s" 10 in
  let r2 := run_command "sw_vers -productVersion" 10 in
  let r3 := run_command "uname -m" 10 in
  let r4 := run_command "command -v brew" 10 in
  let brew := (r4.1 =? 0)%Z in
  let r5 := run_command "brew --prefix" 10 in
  let r6 := run_command "xcode-select -p" 10 in
  {| hostname := if (r1.1 =? 0)%Z then r1.2 else "unknown";
     macos_version := if (r2.1 =? 0)%Z then r2.2 else "unknown";
     architecture := if (r3.1 =? 0)%Z then r3.2 else "unknown";
     user_shell := default "/bin/zsh" (environ "SHELL");
     homebrew_installed := brew;
     homebrew_prefix := if brew then (if (r5.1 =? 0)%Z then r5.2 else "") else "";
     xcode_cli_installed := (r6.1 =? 0)%Z |}.

(** [task.get('detection', {})] *)
Definition detection_of (task : Task) : Detection :=
  default {| check_command := None; version_command := None;
             installed_indicator := None |} (task_detection task).

(** One round of the prefix loop of [get_version]. *)
Definition trim_prefix (v pre : string) : string :=
  if Str.startswith (Str.lower pre) (Str.lower v)
  then Str.slice_from (String.length pre) v
  else v.

Definition get_version (task : Task) : option string :=
  match version_command (detection_of task) with
  | Some version_cmd =>
      if Str.truthy (Some version_cmd) then
        let '(code, out) := run_command version_cmd 5 in
        if (code =? 0)%Z && Str.truthy (Some out) then
          let first_line := Str.until_char "010" out in
          Some (Str.slice_to 50 (foldl trim_prefix first_line ["v"; "version "; "Version "]))
        else None
      else None
  | None => None
  end.

Definition get_install_path (task : Task) : result (option string) :=
  let detection := detection_of task in
  let from_command : result (option string) :=
    let check_cmd := default "" (check_command detection) in
    if Str.contains "command -v" check_cmd then
      let parts := Str.split_on "command -v" check_cmd in
      if 1 <? length parts then
        match Str.first_word (Str.strip (default "" (parts !! 1))) with
        | Raise e => Raise e
        | Ok cmd_name =>
            let '(code, out) := run_command ("command -v " +:+ cmd_name) 10 in
            if (code =? 0)%Z then Ok (Some out) else Ok None
        end
      else Ok None
    else Ok None in
  match installed_indicator detection with
  | Some indicator =>
      if Str.truthy (Some indicator) && Str.startswith "/Applications" indicator
         && path_exists indicator
      then Ok (Some indicator)
      else from_command
  | None => from_command
  end.

Definition check_tool (tid : string) (task : Task) (quick : bool) : result ToolStatus :=
  let check_cmd := check_command (detection_of task) in
  let status (inst : bool) (ver path err : option string) :=
    {| task_id := tid;
       name := default tid (task_name task);
       category := default "unknown" (task_category task);
       installed := inst;
       version := ver;
       install_path := path;
       detection_method :=
         if Str.truthy check_cmd then Str.slice_to 60 (default "" check_cmd) else "(none)";
       error := err |} in
  if negb (Str.truthy check_cmd) then
    Ok (status false None None (Some "No detection command"))
  else
    let '(code, _) := run_command (default "" check_cmd) 10 in
    let inst := (code =? 0)%Z in
    if inst && negb quick then
      match get_install_path task with
      | Raise e => Raise e
      | Ok path => Ok (status inst (get_version task) path None)
      end
    else Ok (status inst None None None).

(** *** The orchestrator *)

(** Probes the tasks in the given order; the first exception ends it. *)
Fixpoint probe_all (todo : list (string * Task)) (quick : bool)
  : result (list ToolStatus) :=
  match todo with
  | [] => Ok []
  | (tid, task) :: rest =>
      match check_tool tid task quick with
      | Raise e => Raise e
      | Ok st =>
          match probe_all rest quick with
          | Raise e => Raise e
          | Ok sts => Ok (st :: sts)
          end
      end
  end.

(** The sort key [(t.category, t.name)], compared as Python compares
    tuples of strings. *)
Definition sort_key (t : ToolStatus) : string * string := (category t, name t).

Definition key_leb (k1 k2 : string * string) : bool :=
  match String.compare k1.1 k2.1 with
  | Lt => true
  | Gt => false
  | Eq => String.leb k1.2 k2.2
  end.

(** [list.sort(key=...)] is a stable sort: an element goes in front of
    the first element of the sorted tail whose key is not smaller. *)
Fixpoint insert_sorted (t : ToolStatus) (l : list ToolStatus) : list ToolStatus :=
  match l with
  | [] => [t]
  | u :: l' =>
      if key_leb (sort_key t) (sort_key u) then t :: u :: l'
      else u :: insert_sorted t l'
  end.

Definition sort_tools (l : list ToolStatus) : list ToolStatus :=
  foldr insert_sorted [] l.

(** The order the sort establishes. *)
Definition key_le (t u : ToolStatus) : Prop :=
  key_leb (sort_key t) (sort_key u) = true.

(** The sort key of a status is known from the task alone. *)
Definition task_key (x : string * Task) : string * string :=
  (default "unknown" (task_category x.2), default x.1 (task_name x.2)).

(** Two runs agree: both return, with the same statuses up to order, or
    both raise the same exception. *)
Definition agree (r1 r2 : result (list ToolStatus)) : Prop :=
  match r1, r2 with
  | Ok l1, Ok l2 => l1 ≡ₚ l2
  | Raise e1, Raise e2 => e1 = e2
  | _, _ => False
  end.

Definition tally (m : gmap string (nat * nat)) (t : ToolStatus) : gmap string (nat * nat) :=
  let m1 := match m !! category t with
            | None => <[category t := (0, 0)]> m
            | Some _ => m
            end in
  let m2 := alter (λ c, (c.1, S c.2)) (category t) m1 in
  if installed t then alter (λ c, (S c.1, c.2)) (category t) m2 else m2.

Definition summarize (ts : list ToolStatus) : Summary :=
  {| total_tools := length ts;
     installed_count := length (filter (λ t, installed t = true) ts);
     not_installed_count :=
       length (filter (λ t, installed t = false ∧ Str.truthy (error t) = false) ts);
     errors_count := length (filter (λ t, Str.truthy (error t) = true) ts);
     by_category := foldl tally ∅ ts |}.

(** [run_audit], from the loaded task manifest on. [manifest] is
    [tasks.items()]; [completion] is the order in which the worker pool
    finishes the probes, which [as_completed] follows in parallel mode;
    [tick] is the clock reading taken for the timestamp. *)
Definition run_audit (tick : nat) (manifest completion : list (string * Task))
    (quick parallel : bool) : result AuditReport :=
  let todo := if parallel && negb quick then completion else manifest in
  match probe_all todo quick with
  | Raise e => Raise e
  | Ok results =>
      let sorted := sort_tools results in
      Ok {| report_timestamp := isoformat (clock tick);
            system := get_system_info;
            tools := sorted;
            summary := summarize sorted;
            drift := None |}
  end.

(** *** Drift *)

(** What [for task in session.get('completed_tasks', [])] iterates over:
    the elements of a list, the characters of a string, the keys of a
    dictionary; the other values are not iterable. *)
Fixpoint chars (s : string) : list json :=
  match s with
  | EmptyString => []
  | String c s' => JStr (String c EmptyString) :: chars s'
  end.

Definition iterate (j : json) : result (list json) :=
  match j with
  | JList l => Ok l
  | JStr s => Ok (chars s)
  | JDict m => Ok (JStr <$> (map_to_list m).*1)
  | _ => Raise TypeError
  end.

(** [task.get('task_id', task.get('id', ''))] for one entry. *)
Definition entry_id (entry : json) : result json :=
  match entry with
  | JDict m =>
      Ok (match m !! "task_id" with
          | Some v => v
          | None => match m !! "id" with Some v => v | None => JStr "" end
          end)
  | _ => Raise AttributeError
  end.

(** The value as a member of a set: a list or a dictionary is not
    hashable. *)
Definition hash_key (j : json) : result key :=
  match j with
  | JNull => Ok KNone
  | JBool b => Ok (KNum (if b then 1 else 0)%Z)
  | JInt z => Ok (KNum z)
  | JStr s => Ok (KStr s)
  | JList _ | JDict _ => Raise TypeError
  end.

(** The loop [for task in ...: session_tools.add(...)]. *)
Fixpoint collect_ids (entries : list json) (acc : gset key) : result (gset key) :=
  match entries with
  | [] => Ok acc
  | e :: rest =>
      match entry_id e with
      | Raise x => Raise x
      | Ok v =>
          match hash_key v with
          | Raise x => Raise x
          | Ok k => collect_ids rest ({[ k ]} ∪ acc)
          end
      end
  end.

(** The task identifiers the report found installed. *)
Definition installed_ids (report : AuditReport) : gset string :=
  list_to_set (task_id <$> filter (λ t, installed t = true) (tools report)).

(** The body of [compare_with_session] after [json.load]. *)
Definition compute_drift (report : AuditReport) (session : json) : result Drift :=
  match json_get "completed_tasks" (JList []) session with
  | Raise x => Raise x
  | Ok listed =>
      match iterate listed with
      | Raise x => Raise x
      | Ok entries =>
          match collect_ids entries ∅ with
          | Raise x => Raise x
          | Ok session_tools =>
              let current_installed : gset string :=
                list_to_set (task_id <$> filter (λ t, installed t = true) (tools report)) in
              Ok {| added_outside_session :=
                      filter (λ i, KStr i ∉ session_tools) current_installed;
                    removed_since_session :=
                      session_tools ∖ set_map KStr current_installed;
                    still_installed :=
                      filter (λ i, KStr i ∈ session_tools) current_installed |}
          end
      end
  end.

Definition compare_with_session (report : AuditReport) (session_path : Path.t)
    (fs : gmap Path.t string) : result Drift :=
  match fs !! session_path with
  | None => Raise FileNotFoundError
  | Some text =>
      match json_loads text with
      | None => Raise JSONDecodeError
      | Some session => compute_drift report session
      end
  end.

End Audit.

(** ** A concrete host, for the examples *)

Module Demo.

Definition ticking (n : nat) : Instant :=
  {| isoformat := "2026-01-01T00:00:00." +:+ Str.repeat_char "0" n +:+ "1";
     strftime_id := "20260101-000000" |}.

Definition subprocess (cmd : string) (timeout : nat) : Completed :=
  if decide (cmd = "command -v git") then Exited 0 ("/usr/bin/git" +:+ String "010" "")
  else if decide (cmd = "git --version") then Exited 0 ("git version 2.43.0" +:+ String "010" "")
  else if decide (cmd = "sleep 60") then TimeoutExpired
  else if decide (cmd = "/opt/broken --check") then Failed "[Errno 8] Exec format error"
  else Exited 127 "".

(** A stand-in for the JSON encoder: one chunk per top-level key of the
    dictionary, between braces. *)
Definition iterencode (j : json) : list string :=
  match j with
  | JDict m => "{" :: (map_to_list m).*1 ++ ["}"]
  | _ => ["null"]
  end.

Definition host : Host :=
  {| clock := ticking;
     random_suffix := λ _, "k3x9";
     shell := subprocess;
     path_exists := λ p, bool_decide (p = "/Applications/Docker.app");
     environ := λ _, None;
     json_iterencode := iterencode;
     json_loads := λ _, None |}.

Definition empty_document : Document :=
  {| meta := {[ "id" := "prov-20260101-000000-k3x9"; "status" := "active" ]};
     phase := {| current := "init"; history := [] |};
     profile := None; choices := ∅; user_data := ∅; tasks := ∅; plan := [];
     execution := {| commands := []; current_task := None |};
     resume_point := None; expansion_history := [] |}.

Definition session_path : Path.t := ["sessions"; "active"; "prov-20260101-000000-k3x9.json"].

(** A session in the active partition whose file holds [prior]. *)
Definition cfg (prior : string) (d : Document) : Cfg :=
  {| world := {| files := {[ session_path := prior ]}; ticks := 0; draws := 0 |};
     self := {| sessions_dir := ["sessions"]; session_file := Some session_path;
                state := d |} |}.

(** A session whose file holds an earlier save. *)
Definition saved : Cfg := cfg "{old}" empty_document.

(** A process that has not created its session yet. *)
Definition start : Cfg :=
  {| world := {| files := ∅; ticks := 0; draws := 0 |};
     self := {| sessions_dir := ["sessions"]; session_file := None;
                state := empty_document |} |}.

(** A session with one task in progress. *)
Definition started_document : Document :=
  with_tasks <["git" := {[ "status" := "in_progress";
                           "started" := "2026-01-01T00:00:00.1" ]}]> empty_document.

Definition long_error : string := Str.repeat_char "x" 1000.

(** Task descriptors. [git] and [hub] carry the same display name in the
    same category. *)
Definition detect (check : string) (ver : option string) : option Detection :=
  Some {| check_command := Some check; version_command := ver;
          installed_indicator := None |}.

Definition git : Task :=
  {| task_name := Some "Git CLI"; task_category := Some "vcs";
     task_detection := detect "command -v git" (Some "git --version") |}.

Definition hub : Task :=
  {| task_name := Some "Git CLI"; task_category := Some "vcs";
     task_detection := detect "command -v hub" None |}.

Definition docker : Task :=
  {| task_name := Some "Docker"; task_category := Some "containers";
     task_detection := detect "command -v docker" None |}.

Definition sleeper : Task :=
  {| task_name := Some "Sleeper"; task_category := Some "misc";
     task_detection := detect "sleep 60" None |}.

Definition twins : list (string * Task) := [("git", git); ("hub", hub)].
Definition twins_completion : list (string * Task) := [("hub", hub); ("git", git)].

Definition pair : list (string * Task) := [("git", git); ("docker", docker)].
Definition pair_completion : list (string * Task) := [("docker", docker); ("git", git)].

(** A report that found [a], [b] and [c] installed. *)
Definition found (tid : string) : ToolStatus :=
  {| task_id := tid; name := tid; category := "tools"; installed := true;
     version := None; install_path := None; detection_method := "command -v " +:+ tid;
     error := None |}.

Definition report_abc : AuditReport :=
  {| report_timestamp := "2026-01-02T00:00:00";
     system := {| hostname := "host"; macos_version := "14.0"; architecture := "arm64";
                  user_shell := "/bin/zsh"; homebrew_installed := false;
                  homebrew_prefix := ""; xcode_cli_installed := false |};
     tools := [found "a"; found "b"; found "c"];
     summary := {| total_tools := 3; installed_count := 3; not_installed_count := 0;
                   errors_count := 0; by_category := {[ "tools" := (3, 3) ]} |};
     drift := None |}.

#[local] Existing Instance host.

(** A session that completes [b], [c] and [d]. *)
Definition session_bcd : M unit :=
  create_session None;;
  set_plan ["b"; "c"; "d"];;
  start_task "b";; complete_task "b";;
  start_task "c";; complete_task "c";;
  start_task "d";; complete_task "d".

(** A retry: the task fails, then is started again. *)
Definition retry_x : M unit :=
  create_session None;;
  start_task "x";; fail_task "x" "boom";; start_task "x".

(** A second plan that overlaps the first, once [a] is completed and [b]
    is in progress. *)
Definition plan_twice : M unit :=
  create_session None;;
  set_plan ["a"; "b"];;
  start_task "a";; complete_task "a";;
  start_task "b";;
  set_plan ["b"; "c"].

(** The same phase set twice on a new session. *)
Definition requirements_twice : M unit :=
  create_session None;;
  set_phase "requirements";; set_phase "requirements".

(** A session with a command running for the task in progress. *)
Definition running_document : Document :=
  with_execution (λ _, {| commands := [ {[ "command" := "brew install git";
                                            "language" := "bash";
                                            "started" := "2026-01-01T00:00:00.01";
                                            "status" := "running" ]} ];
                          current_task := Some "git" |}) started_document.

Definition running : Cfg := cfg "{old}" running_document.

(** A host on which every command succeeds and prints a version line. *)
Definition obliging : Host :=
  {| clock := ticking;
     random_suffix := λ _, "k3x9";
     shell := λ _ _, Exited 0 ("Version 3.1" +:+ String "010" "");
     path_exists := λ _, false;
     environ := λ _, None;
     json_iterencode := iterencode;
     json_loads := λ _, None |}.

(** A task whose check command names no command after [command -v]. *)
Definition dangling : Task :=
  {| task_name := Some "Dangling"; task_category := Some "misc";
     task_detection := detect "command -v " (Some "tool --version") |}.


End Demo.

(** * Properties *)

(** ** Paths and their suffixes *)

Section Paths.

Lemma append_assoc (a b c : string) : (a +:+ b) +:+ c = a +:+ (b +:+ c).
Proof.
  induction a as [|x a IH]; [done|].
  change (String x ((a +:+ b) +:+ c) = String x (a +:+ (b +:+ c))).
  by rewrite IH.
Qed.

Lemma append_empty_r (a : string) : a +:+ "" = a.
Proof.
  induction a as [|x a IH]; [done|].
  change (String x (a +:+ "") = String x a). by rewrite IH.
Qed.

Lemma parent_joinpath (p : Path.t) (n : string) : Path.parent (Path.joinpath p n) = p.
Proof. unfold Path.parent, Path.joinpath. apply removelast_last. Qed.

Lemma name_joinpath (p : Path.t) (n : string) : Path.name (Path.joinpath p n) = n.
Proof. unfold Path.name, Path.joinpath. apply last_last. Qed.

Lemma append_inv_head (a b c : string) : a +:+ b = a +:+ c → b = c.
Proof.
  induction a as [|x a IH]; [done|].
  change (String x (a +:+ b) = String x (a +:+ c) → b = c).
  intros [= Heq]. by apply IH.
Qed.

Lemma length_append (a b : string) :
  String.length (a +:+ b) = String.length a + String.length b.
Proof.
  induction a as [|x a IH]; [done|].
  change (S (String.length (a +:+ b)) = S (String.length a + String.length b)).
  by rewrite IH.
Qed.

Lemma slice_from_length (i : nat) (s : string) :
  String.length (Str.slice_from i s) = String.length s - i.
Proof. revert s. induction i as [|i IH]; intros [|x s]; simpl; try done; lia. Qed.

(** [s[:i] + s[i:] == s] *)
Lemma slice_to_from (i : nat) (s : string) :
  Str.slice_to i s +:+ Str.slice_from i s = s.
Proof.
  unfold Str.slice_to. revert s. induction i as [|i IH]; intros [|x s]; simpl; try done.
  change (String x (String.substring 0 i s +:+ Str.slice_from i s) = String x s).
  by rewrite IH.
Qed.

Lemma slice_from_app (a b : string) : Str.slice_from (String.length a) (a +:+ b) = b.
Proof. induction a as [|x a IH]; [by destruct b|]. exact IH. Qed.

Lemma rfind_lt (c : ascii) (s : string) (i : nat) :
  Path.rfind c s = Some i → i < String.length s.
Proof.
  revert i. induction s as [|x s IH]; intros i; simpl; [done|].
  destruct (Path.rfind c s) as [j|].
  - intros [= <-]. specialize (IH j eq_refl). lia.
  - destruct (Ascii.eqb c x); [|done]. intros [= <-]. lia.
Qed.

Lemma rfind_app (c : ascii) (a b : string) (i : nat) :
  Path.rfind c b = Some i → Path.rfind c (a +:+ b) = Some (String.length a + i).
Proof.
  intros Hb. induction a as [|x a IH]; [done|].
  change (Path.rfind c (String x (a +:+ b)) = Some (S (String.length a + i))).
  simpl. by rewrite IH.
Qed.

Lemma slice_to_all (s : string) : Str.slice_to (String.length s) s = s.
Proof.
  unfold Str.slice_to. induction s as [|x s IH]; [done|]. simpl. by rewrite IH.
Qed.

(** The final component is its stem followed by its suffix. *)
Lemma stem_suffix (p : Path.t) :
  Str.slice_to (String.length (Path.name p) - String.length (Path.suffix p)) (Path.name p)
    +:+ Path.suffix p = Path.name p.
Proof.
  unfold Path.suffix. set (n := Path.name p).
  assert (Hall : Str.slice_to (String.length n - 0) n +:+ "" = n).
  { rewrite Nat.sub_0_r, append_empty_r. apply slice_to_all. }
  destruct (Path.rfind "." n) as [i|] eqn:Hi; [|exact Hall].
  destruct (_ && _); [|exact Hall].
  apply rfind_lt in Hi. rewrite slice_from_length.
  replace (String.length n - (String.length n - i)) with i by lia.
  apply slice_to_from.
Qed.

(** [p.with_suffix('.tmp')] is another path than [p], unless the suffix of
    [p] is [.tmp] already. *)
Lemma with_suffix_tmp_ne (p : Path.t) :
  Path.suffix p ≠ ".tmp" → Path.with_suffix p ".tmp" ≠ p.
Proof.
  intros Hsuf Heq. apply Hsuf.
  assert (Hname : Path.name (Path.with_suffix p ".tmp") = Path.name p) by (by rewrite Heq).
  unfold Path.with_suffix in Hname. rewrite name_joinpath in Hname.
  rewrite <- (stem_suffix p) in Hname at 3.
  by apply append_inv_head in Hname.
Qed.

(** The suffix of [<id>.json]. *)
Lemma suffix_json (d : Path.t) (sid : string) :
  sid ≠ "" → Path.suffix (Path.joinpath d (sid +:+ ".json")) = ".json".
Proof.
  intros Hsid. unfold Path.suffix. rewrite name_joinpath.
  rewrite (rfind_app "." sid ".json" 0) by done.
  rewrite length_append, Nat.add_0_r.
  assert (0 < String.length sid) by (destruct sid; [done|simpl; lia]).
  rewrite (proj2 (Nat.ltb_lt 0 _)) by done.
  rewrite (proj2 (Nat.ltb_lt _ _)) by (simpl; lia).
  apply slice_from_app.
Qed.

End Paths.

(** ** The durable store *)

Section DurableStore.
Context `{Host}.

(** Writing the chunks of the encoder appends their concatenation. *)
Lemma run_writes (tmp : Path.t) (chunks : list string) (acc : string)
    (fs : gmap Path.t string) :
  FS.run (FS.Write tmp <$> chunks) (<[tmp := acc]> fs)
  = (Ok tt, <[tmp := acc +:+ foldr String.append "" chunks]> fs).
Proof.
  revert acc. induction chunks as [|ch chunks IH]; intros acc; simpl.
  - by rewrite append_empty_r.
  - rewrite lookup_insert_eq, insert_insert_eq, IH. by rewrite append_assoc.
Qed.

Lemma run_app (s1 s2 : list FS.op) (fs fs1 : gmap Path.t string) :
  FS.run s1 fs = (Ok tt, fs1) → FS.run (s1 ++ s2) fs = FS.run s2 fs1.
Proof.
  revert fs. induction s1 as [|o s1 IH]; intros fs; simpl.
  - by intros [= ->].
  - destruct (FS.step o fs); [apply IH | done].
Qed.

(** The file system once the temporary file is written and closed. *)
Lemma run_until_written (p : Path.t) (j : json) (fs : gmap Path.t string) :
  let tmp := Path.with_suffix p ".tmp" in
  FS.run (FS.OpenW tmp :: (FS.Write tmp <$> json_iterencode j)) fs
  = (Ok tt, <[tmp := json_dumps j]> fs).
Proof. simpl. by rewrite run_writes. Qed.

(** A whole save: the session file holds the new text and the temporary
    file is gone (unless it is the session file itself). *)
Lemma run_save_script (p : Path.t) (j : json) (fs : gmap Path.t string) :
  let tmp := Path.with_suffix p ".tmp" in
  FS.run (save_script p j) fs
  = (Ok tt, <[p := json_dumps j]> (delete tmp fs)).
Proof.
  intros tmp. unfold save_script. fold tmp.
  rewrite app_comm_cons.
  rewrite (run_app _ _ _ _ (run_until_written p j fs)). simpl. fold tmp.
  by rewrite lookup_insert_eq, delete_insert_eq.
Qed.

Lemma length_save_script (p : Path.t) (j : json) :
  length (save_script p j) = S (S (length (json_iterencode j))).
Proof. unfold save_script. simpl. rewrite length_app, length_fmap. simpl. lia. Qed.

(** [_save] on a session that has a file: it returns, having run the
    script of [save_script] on the stamped document. *)
Lemma _save_unfold (c : Cfg) (p : Path.t) :
  session_file (self c) = Some p →
  _save c =
    (Ok tt,
     {| world := {| files := (FS.run (save_script p (ToJson.document (saved_document c)))
                                (files (world c))).2;
                    ticks := S (ticks (world c));
                    draws := draws (world c) |};
        self := {| sessions_dir := sessions_dir (self c);
                   session_file := Some p;
                   state := saved_document c |} |}).
Proof.
  intros Hp.
  unfold _save, now, read_clock, mbind, M_bind, mret, M_ret, modify, get_state,
    get_self, fs_exec.
  cbn -[save_script FS.run]. rewrite Hp. cbn -[save_script FS.run].
  unfold saved_document. rewrite !run_save_script. by rewrite Hp.
Qed.

(** Operations on the temporary file leave every other path alone. *)
Lemma run_on_tmp_only (tmp p : Path.t) (script : list FS.op) (fs : gmap Path.t string) :
  tmp ≠ p → Forall (FS.on_path tmp) script → (FS.run script fs).2 !! p = fs !! p.
Proof.
  intros Hne Hall. revert fs.
  induction Hall as [|o script Ho _ IH]; intros fs; simpl; [done|].
  destruct o as [q|q chunk|]; simpl in Ho; [subst q..|done]; simpl.
  - rewrite IH. by rewrite lookup_insert_ne.
  - destruct (fs !! tmp); [|done]. rewrite IH. by rewrite lookup_insert_ne.
Qed.

(** A crash at any point of a save, also in the middle of the write, when
    the temporary path is not the session file itself: the session file
    reads as before the save until the rename, and as the new document
    after it. *)
Lemma save_crash_anywhere (p : Path.t) (j : json) (fs : gmap Path.t string) (k : nat) :
  Path.with_suffix p ".tmp" ≠ p →
  FS.crash_after k (save_script p j) fs !! p
  = if decide (k < length (save_script p j)) then fs !! p else Some (json_dumps j).
Proof.
  intros Hne. unfold FS.crash_after. case_decide as Hk.
  - unfold save_script in *. rewrite app_comm_cons in *.
    rewrite length_app in Hk. simpl in Hk.
    rewrite take_app_le by (simpl; lia).
    apply (run_on_tmp_only (Path.with_suffix p ".tmp")); [done|].
    apply Forall_take. constructor; [done|].
    apply Forall_fmap, Forall_true. done.
  - rewrite take_ge by lia. rewrite run_save_script. apply lookup_insert_eq.
Qed.

(** C1. [_save] writes the document to the sibling temporary path and
    then renames it over the session file. For a session file that holds
    a prior text, and a process killed after the first [k] operations of
    the save: once the temporary file is written, before or after the
    rename, a reader of the session file finds the prior text or the full
    text of the new document. When the suffix of the session file is not
    [.tmp] (the file that [create_session] makes ends in [.json]) the
    temporary path is another path and the save is atomic at every [k],
    also in the middle of the write: the session file holds the prior
    text until the rename and the full new text from the rename on. The
    save that is not interrupted ends with the new text in place. *)
Theorem save_atomic_between_write_and_rename
    (c : Cfg) (p : Path.t) (prior : string) (k : nat) :
  session_file (self c) = Some p →
  files (world c) !! p = Some prior →
  let script := save_script p (ToJson.document (saved_document c)) in
  let new := json_dumps (ToJson.document (saved_document c)) in
  let found := FS.crash_after k script (files (world c)) !! p in
  (length script - 1 ≤ k → found = Some prior ∨ found = Some new)
  ∧ (Path.suffix p ≠ ".tmp" →
     Path.with_suffix p ".tmp" ≠ p
     ∧ found = if decide (k < length script) then Some prior else Some new)
  ∧ files (world (_save c).2) = FS.crash_after (length script) script (files (world c))
  ∧ files (world (_save c).2) !! p = Some new.
Proof.
  intros Hp Hprior script new found.
  split_and!.
  - intros Hk. subst found.
    destruct (decide (length script ≤ k)) as [Hge|Hlt].
    + right. unfold FS.crash_after. rewrite take_ge by done.
      unfold script. rewrite run_save_script. simpl. apply lookup_insert_eq.
    + assert (k = S (length (json_iterencode (ToJson.document (saved_document c))))) as ->.
      { unfold script in *. rewrite length_save_script in *. lia. }
      unfold FS.crash_after, script, save_script.
      rewrite app_comm_cons, take_app_length'.
      2:{ simpl. by rewrite length_fmap. }
      rewrite run_until_written. simpl.
      destruct (decide (Path.with_suffix p ".tmp" = p)) as [->|Hne].
      * right. apply lookup_insert_eq.
      * left. by rewrite lookup_insert_ne.
  - intros Hsuf. pose proof (with_suffix_tmp_ne p Hsuf) as Hne.
    split; [done|]. subst found. unfold script.
    rewrite (save_crash_anywhere p _ _ k Hne).
    case_decide; done.
  - rewrite (_save_unfold c p Hp). cbn -[save_script FS.run].
    unfold FS.crash_after. by rewrite firstn_all.
  - rewrite (_save_unfold c p Hp). cbn -[save_script FS.run].
    rewrite run_save_script. apply lookup_insert_eq.
Qed.

End DurableStore.

(** ** The session state machine *)

Section StateMachine.
Context `{Host}.

(** Unfolds the straight-line part of a method down to its [_save]. *)
Ltac straight :=
  repeat progress
    (cbv delta [mbind M_bind mret M_ret now read_clock modify put_state
                set_current_task set_commands get_state get_self raise];
     cbn -[_save relocate Str.slice_to]).

Lemma with_meta_id (d : Document) : with_meta (λ m, m) d = d.
Proof. by destruct d. Qed.

(** [_save] always returns; it touches the clock, the files and
    [meta.updated] only. *)
Lemma _save_spec (c : Cfg) :
  ∃ c', _save c = (Ok tt, c')
    ∧ sessions_dir (self c') = sessions_dir (self c)
    ∧ session_file (self c') = session_file (self c)
    ∧ (∃ f, state (self c') = with_meta f (state (self c)))
    ∧ ticks (world c) ≤ ticks (world c').
Proof.
  destruct (session_file (self c)) as [p|] eqn:Hp.
  - eexists. split; [by apply _save_unfold|].
    cbn -[save_script FS.run]. split_and!; [done|done| |lia].
    by eexists.
  - exists c. split_and!; [|done|done| |done].
    + unfold _save. straight. by rewrite Hp.
    + exists (λ m, m). by rewrite with_meta_id.
Qed.

Lemma _save_persists (c : Cfg) (p : Path.t) :
  session_file (self c) = Some p →
  ∃ c', _save c = (Ok tt, c')
    ∧ session_file (self c') = Some p
    ∧ sessions_dir (self c') = sessions_dir (self c)
    ∧ files (world c') !! p = Some (json_dumps (ToJson.document (state (self c'))))
    ∧ refreshed c'
    ∧ ticks (world c) < ticks (world c').
Proof.
  intros Hp. eexists. split; [by apply _save_unfold|].
  unfold refreshed. cbn -[save_script FS.run]. split_and!; [done|done| | |lia].
  - rewrite run_save_script. apply lookup_insert_eq.
  - rewrite Nat.sub_0_r. apply lookup_insert_eq.
Qed.

(** C4. [start_task] returns, and the task's record is then exactly
    [{status: in_progress, started: now}] whatever it was before (in
    particular it has no [error], also right after a [fail_task] of the
    same task), [execution.current_task] is the task and [resume_point]
    is [{task_id, action: retry}]. *)
Theorem start_task_replaces_record (c : Cfg) (tid : string) :
  ∃ c', start_task tid c = (Ok tt, c')
    ∧ tasks (state (self c')) !! tid
      = Some {[ "status" := "in_progress";
                "started" := isoformat (clock (ticks (world c))) ]}
    ∧ (∀ r, tasks (state (self c')) !! tid = Some r →
            r !! "status" = Some "in_progress" ∧ r !! "error" = None)
    ∧ current_task (execution (state (self c'))) = Some tid
    ∧ resume_point (state (self c'))
      = Some {[ "task_id" := tid; "action" := "retry" ]}
    ∧ (∀ err c1, fail_task tid err c = (Ok tt, c1) →
         ∃ c2 r, start_task tid c1 = (Ok tt, c2)
           ∧ tasks (state (self c2)) !! tid = Some r
           ∧ r !! "status" = Some "in_progress" ∧ r !! "error" = None).
Proof.
  assert (Hgen : ∀ c0, ∃ c', start_task tid c0 = (Ok tt, c')
    ∧ tasks (state (self c')) !! tid
      = Some {[ "status" := "in_progress";
                "started" := isoformat (clock (ticks (world c0))) ]}
    ∧ current_task (execution (state (self c'))) = Some tid
    ∧ resume_point (state (self c'))
      = Some {[ "task_id" := tid; "action" := "retry" ]}).
  { intros c0. unfold start_task. straight.
    match goal with |- context [_save ?c1] =>
      destruct (_save_spec c1) as (c' & -> & _ & _ & [f Hst] & _) end.
    exists c'. split; [done|]. rewrite Hst. cbn. split_and!; [|done|done].
    apply lookup_insert_eq. }
  destruct (Hgen c) as (c' & Hrun & Hrec & Hcur & Hres).
  exists c'. split_and!; try done.
  - intros r. rewrite Hrec. intros [= <-]. by split.
  - intros err c1 _. destruct (Hgen c1) as (c2 & Hrun2 & Hrec2 & _).
    eexists _, _. split_and!; [done|done|done|done].
Qed.

(** What the seeding loop of [set_plan] leaves under each identifier. *)
Lemma foldl_seed_pending_lookup (l : list string)
    (m : gmap string (gmap string string)) (i : string) :
  foldl seed_pending m l !! i =
    match m !! i with
    | Some r => Some r
    | None => if decide (i ∈ l) then Some {[ "status" := "pending" ]} else None
    end.
Proof.
  revert m. induction l as [|a l IH]; intros m; simpl.
  - by destruct (m !! i).
  - rewrite IH. unfold seed_pending.
    destruct (m !! a) eqn:Ha.
    + destruct (m !! i) eqn:Hi; [done|].
      assert (i ≠ a) by congruence.
      destruct (decide (i ∈ l)) as [Hin|Hin].
      * rewrite decide_True; [done|]. by apply list_elem_of_further.
      * rewrite decide_False; [done|]. rewrite not_elem_of_cons. done.
    + destruct (decide (i = a)) as [->|Hne].
      * rewrite lookup_insert_eq, Ha. rewrite decide_True; [done|].
        apply list_elem_of_here.
      * rewrite lookup_insert_ne by done.
        destruct (m !! i); [done|].
        destruct (decide (i ∈ l)) as [Hin|Hin].
        -- rewrite decide_True; [done|]. by apply list_elem_of_further.
        -- rewrite decide_False; [done|]. rewrite not_elem_of_cons. done.
Qed.

(** C5. [set_plan] returns; the plan is then the given list, every task
    record that existed is unchanged (so a second [set_plan] never turns a
    task that is in progress or completed back to pending), and exactly
    the identifiers of the list that had no record get [{status:
    pending}]. *)
Theorem set_plan_seeds_only_new (c : Cfg) (task_ids : list string) :
  ∃ c', set_plan task_ids c = (Ok tt, c')
    ∧ plan (state (self c')) = task_ids
    ∧ (∀ i r, tasks (state (self c)) !! i = Some r →
              tasks (state (self c')) !! i = Some r)
    ∧ (∀ i, tasks (state (self c)) !! i = None →
            tasks (state (self c')) !! i
            = if decide (i ∈ task_ids) then Some {[ "status" := "pending" ]} else None).
Proof.
  unfold set_plan. straight.
  match goal with |- context [_save ?c1] =>
    destruct (_save_spec c1) as (c' & -> & _ & _ & [f Hst] & _) end.
  exists c'. split; [done|]. rewrite Hst. cbn. split_and!; [done| |].
  - intros i r Hi. by rewrite foldl_seed_pending_lookup, Hi.
  - intros i Hi. by rewrite foldl_seed_pending_lookup, Hi.
Qed.

(** C7. [set_phase] with the current phase changes nothing at all (no
    history entry, no clock reading, no file written); with another phase
    it appends one history entry, for the outgoing phase and stamped with
    the time, and makes the new phase current, so that repeating the call
    is the first case: two calls append one entry. *)
Theorem set_phase_history (c : Cfg) (new_phase : string) :
  (current (phase (state (self c))) = new_phase → set_phase new_phase c = (Ok tt, c))
  ∧ (current (phase (state (self c))) ≠ new_phase →
     ∃ c', set_phase new_phase c = (Ok tt, c')
       ∧ history (phase (state (self c')))
         = history (phase (state (self c)))
             ++ [ {| pe_phase := current (phase (state (self c)));
                     pe_ended := isoformat (clock (ticks (world c))) |} ]
       ∧ current (phase (state (self c'))) = new_phase
       ∧ (set_phase new_phase;; set_phase new_phase) c = (Ok tt, c')).
Proof.
  split.
  - intros Hcur. unfold set_phase. straight.
    by rewrite decide_False by (intros ?; done).
  - intros Hcur.
    assert (Hone : ∃ c', set_phase new_phase c = (Ok tt, c')
       ∧ history (phase (state (self c')))
         = history (phase (state (self c)))
             ++ [ {| pe_phase := current (phase (state (self c)));
                     pe_ended := isoformat (clock (ticks (world c))) |} ]
       ∧ current (phase (state (self c'))) = new_phase).
    { unfold set_phase. straight. rewrite decide_True by done. straight.
      match goal with |- context [_save ?c1] =>
        destruct (_save_spec c1) as (c' & -> & _ & _ & [f Hst] & _) end.
      exists c'. split; [done|]. by rewrite Hst. }
    destruct Hone as (c' & Hrun & Hhist & Hnew).
    exists c'. split_and!; try done.
    unfold mbind at 1, M_bind at 1. rewrite Hrun.
    unfold set_phase. straight. by rewrite decide_False by (intros ?; done).
Qed.

Lemma slice_to_length (n : nat) (s : string) :
  String.length (Str.slice_to n s) = n `min` String.length s.
Proof.
  unfold Str.slice_to. revert s. induction n as [|n IH]; intros [|a s]; simpl; try done.
  by rewrite IH.
Qed.

(** C8. On a task that has a record, [fail_task] returns; the record then
    has status [failed], the first 500 characters of the error (500
    characters exactly for an error of 1000) and [failed_at], its other
    fields as they were, and [resume_point] is [{task_id, action:
    retry_or_skip, error: first 200 characters}]. *)
Theorem fail_task_truncates (c : Cfg) (tid err : string) (r : gmap string string) :
  tasks (state (self c)) !! tid = Some r →
  ∃ c', fail_task tid err c = (Ok tt, c')
    ∧ tasks (state (self c')) !! tid
      = Some (<["failed_at" := isoformat (clock (ticks (world c)))]>
                (<["error" := Str.slice_to 500 err]> (<["status" := "failed"]> r)))
    ∧ resume_point (state (self c'))
      = Some {[ "task_id" := tid; "action" := "retry_or_skip";
                "error" := Str.slice_to 200 err ]}
    ∧ String.length (Str.slice_to 500 err) = 500 `min` String.length err
    ∧ String.length (Str.slice_to 200 err) = 200 `min` String.length err
    ∧ (String.length err = 1000 → String.length (Str.slice_to 500 err) = 500).
Proof.
  intros Hr. unfold fail_task, task_setitem. straight. rewrite Hr. straight.
  rewrite lookup_insert_eq. straight. rewrite lookup_insert_eq. straight.
  match goal with |- context [_save ?c1] =>
    destruct (_save_spec c1) as (c' & -> & _ & _ & [f Hst] & _) end.
  exists c'. split; [done|]. rewrite Hst. cbn -[Str.slice_to].
  rewrite !slice_to_length. split_and!; try done.
  - rewrite !insert_insert_eq. apply lookup_insert_eq.
  - intros ->. done.
Qed.

(** C9. On a task identifier that has no record, [complete_task] and
    [fail_task] raise [KeyError] (the error of the unknown task) and leave
    the whole configuration as it was: the document in memory, the clock
    and every file. *)
Theorem unknown_task_raises_unchanged (c : Cfg) (tid err : string) :
  tasks (state (self c)) !! tid = None →
  complete_task tid c = (Raise (KeyError tid), c)
  ∧ fail_task tid err c = (Raise (KeyError tid), c).
Proof.
  intros Hr. unfold complete_task, fail_task, task_setitem. straight.
  by rewrite Hr.
Qed.

Lemma save_finishes (c1 : Cfg) (p : Path.t) (n : nat) :
  session_file (self c1) = Some p →
  n ≤ ticks (world c1) →
  ∃ c', _save c1 = (Ok tt, c') ∧ persisted c' ∧ refreshed c' ∧ n < ticks (world c').
Proof.
  intros Hp Hn.
  destruct (_save_persists c1 p Hp) as (c' & Hrun & Hp' & _ & Hfile & Hupd & Hlt).
  exists c'. split_and!; [done| |done|lia]. by exists p.
Qed.

(** Moving the saved file to another partition keeps it saved. *)
Lemma relocate_persisted (target : SessionState → Path.t) (c : Cfg) :
  persisted c →
  ∃ c', relocate target c = (Ok tt, c') ∧ persisted c'
    ∧ state (self c') = state (self c) ∧ ticks (world c') = ticks (world c).
Proof.
  intros (p & Hp & Hfile). unfold relocate. straight. rewrite Hp.
  case_decide.
  - unfold fs_exec, set_session_file. straight. rewrite Hfile. straight.
    eexists. split; [done|]. split_and!; [|done|done].
    eexists. split; [done|]. cbn. apply lookup_insert_eq.
  - straight. exists c. split_and!; [done| |done|done]. by exists p.
Qed.

Lemma py_index_in_range (len : nat) (i : Z) :
  (- Z.of_nat len ≤ i < Z.of_nat len)%Z → ∃ k, py_index len i = Some k.
Proof.
  intros Hi. unfold py_index.
  destruct (0 <=? i)%Z eqn:H0.
  - rewrite (proj2 (Z.ltb_lt _ _)) by lia. by eexists.
  - rewrite (proj2 (Z.leb_le _ _)) by lia. by eexists.
Qed.

(** C6. On a session that has a file, each mutating operation returns
    with the session file holding the encoding of the whole document as
    it then is in memory, and with [meta.updated] set to the clock reading
    taken for that save. *)
Theorem mutation_persists (o : Op) (c : Cfg) (p : Path.t) :
  session_file (self c) = Some p →
  mutates o (state (self c)) →
  ∃ c', exec o c = (Ok tt, c')
    ∧ persisted c'
    ∧ refreshed c'
    ∧ ticks (world c) < ticks (world c').
Proof.
  intros Hp Hmut.
  assert (Hsave : ∀ c1, session_file (self c1) = Some p →
                        ticks (world c) ≤ ticks (world c1) →
            ∃ c', _save c1 = (Ok tt, c') ∧ persisted c' ∧ refreshed c'
                  ∧ ticks (world c) < ticks (world c')).
  { intros c1 H1 H2. by apply (save_finishes c1 p). }
  destruct o; simpl in Hmut; unfold exec.
  - (* set_phase *)
    unfold set_phase. straight. rewrite decide_True by done. straight.
    apply Hsave; cbn; [done|lia].
  - unfold record_choice. straight. apply Hsave; cbn; [done|lia].
  - unfold record_user_data. straight. apply Hsave; cbn; [done|lia].
  - unfold set_plan. straight. apply Hsave; cbn; [done|lia].
  - unfold start_task. straight. apply Hsave; cbn; [done|lia].
  - (* complete_task *)
    destruct Hmut as [r Hr].
    unfold complete_task, task_setitem. straight. rewrite Hr. straight.
    rewrite lookup_insert_eq. straight. apply Hsave; cbn; [done|lia].
  - (* fail_task *)
    destruct Hmut as [r Hr].
    unfold fail_task, task_setitem. straight. rewrite Hr. straight.
    rewrite lookup_insert_eq. straight. rewrite lookup_insert_eq. straight.
    apply Hsave; cbn; [done|lia].
  - unfold skip_task. straight. apply Hsave; cbn; [done|lia].
  - (* log_command_start *)
    unfold log_command_start. straight.
    match goal with |- context [_save ?c1] =>
      destruct (Hsave c1) as (c' & -> & ? & ? & ?); [done|cbn; lia|] end.
    straight. by exists c'.
  - (* log_command_end *)
    unfold log_command_end. straight.
    rewrite (proj2 (Z.ltb_lt _ _)) by lia.
    destruct (py_index_in_range _ _ Hmut) as [k ->]. straight.
    destruct output, err; straight; apply Hsave; cbn; done || lia.
  - (* complete_session *)
    unfold complete_session. straight.
    match goal with |- context [_save ?c1] =>
      destruct (Hsave c1) as (c' & -> & Hper & Hupd & ?); [done|cbn; lia|] end.
    destruct (relocate_persisted completed_dir c' Hper) as (c2 & -> & ? & Hst & Ht).
    exists c2. split_and!; [done|done| |lia].
    unfold refreshed in *. by rewrite Hst, Ht.
  - (* fail_session *)
    unfold fail_session. straight.
    destruct reason; straight.
    all: match goal with |- context [_save ?c1] =>
      destruct (Hsave c1) as (c' & -> & Hper & Hupd & ?); [done|cbn; lia|] end.
    all: destruct (relocate_persisted failed_dir c' Hper) as (c2 & -> & ? & Hst & Ht).
    all: exists c2; split_and!; [done|done| |lia].
    all: unfold refreshed in *; by rewrite Hst, Ht.
Qed.

End StateMachine.

(** ** The probe runner *)

Section Probe.
Context `{Host}.

Lemma run_command_timeout (cmd : string) (t : nat) :
  shell cmd t = TimeoutExpired → run_command cmd t = ((-1)%Z, "timeout").
Proof. unfold run_command. by intros ->. Qed.

Lemma run_command_exception (cmd msg : string) (t : nat) :
  shell cmd t = Failed msg → run_command cmd t = ((-1)%Z, msg).
Proof. unfold run_command. by intros ->. Qed.

(** What [check_tool] does where the probe cannot tell. It returns a
    status that is not installed whenever the check command is missing
    (absent or empty), times out or fails to run. The [error] field is
    populated, with "No detection command", in the first case only: after
    a time-out or an exception the status carries no error, no version and
    no path, as after any non-zero exit code. The text that [run_command]
    builds for the two cases is dropped. *)
Lemma check_tool_not_installed (tid : string) (task : Task) (quick : bool) :
  (Str.truthy (check_command (detection_of task)) = false →
   ∃ st, check_tool tid task quick = Ok st
     ∧ installed st = false ∧ error st = Some "No detection command")
  ∧ (∀ cmd, check_command (detection_of task) = Some cmd →
       Str.truthy (Some cmd) = true →
       (shell cmd 10 = TimeoutExpired ∨ ∃ msg, shell cmd 10 = Failed msg) →
       ∃ st, check_tool tid task quick = Ok st
         ∧ installed st = false ∧ error st = None
         ∧ version st = None ∧ install_path st = None).
Proof.
  split.
  - intros Hcmd. unfold check_tool. rewrite Hcmd. simpl. by eexists.
  - intros cmd Hcmd Htruthy Hrun. unfold check_tool. rewrite Hcmd, Htruthy.
    change (default "" (Some cmd)) with cmd. cbn [negb].
    assert (run_command cmd 10 = ((-1)%Z, "timeout")
            ∨ ∃ msg, run_command cmd 10 = ((-1)%Z, msg)) as Hrc.
    { destruct Hrun as [Ht|[msg Hf]].
      - left. by apply run_command_timeout.
      - right. exists msg. by apply run_command_exception. }
    destruct Hrc as [->|[msg ->]]; simpl; by eexists.
Qed.

End Probe.

(** ** Drift against a session *)

Section DriftProperties.
Context `{Host}.

(** Equalities between the sets of a drift, element by element. *)
Ltac by_elements :=
  apply set_eq; intros ?; rewrite ?elem_of_filter; set_solver.

(** The document the state machine persists has no [completed_tasks]
    key. *)
Lemma document_has_no_completed_tasks (d : Document) :
  json_get "completed_tasks" (JList []) (ToJson.document d) = Ok (JList []).
Proof. unfold json_get, ToJson.document. by simplify_map_eq. Qed.

(** Against any document of the state machine the drift reports every
    installed tool as added outside the session, whatever tasks the
    session completed. *)
Lemma compute_drift_on_document (report : AuditReport) (d : Document) :
  compute_drift report (ToJson.document d)
  = Ok {| added_outside_session := installed_ids report;
          removed_since_session := ∅;
          still_installed := ∅ |}.
Proof.
  unfold compute_drift. rewrite document_has_no_completed_tasks. simpl.
  fold (installed_ids report). f_equal. f_equal; by_elements.
Qed.

Lemma compare_with_session_on_document (report : AuditReport) (d : Document)
    (path : Path.t) (fs : gmap Path.t string) (text : string) :
  fs !! path = Some text →
  json_loads text = Some (ToJson.document d) →
  compare_with_session report path fs
  = Ok {| added_outside_session := installed_ids report;
          removed_since_session := ∅;
          still_installed := ∅ |}.
Proof.
  intros Hfs Hload. unfold compare_with_session. rewrite Hfs, Hload.
  apply compute_drift_on_document.
Qed.

(** On a session in the shape the function reads (a [completed_tasks]
    list of entries with a [task_id]) the drift is the three-way split. *)
Lemma compute_drift_on_completed_list (report : AuditReport) (ids : list string) :
  compute_drift report
    (JDict {[ "completed_tasks" := JList ((λ i, JDict {[ "task_id" := JStr i ]}) <$> ids) ]})
  = Ok {| added_outside_session := installed_ids report ∖ list_to_set ids;
          removed_since_session := set_map KStr (list_to_set ids ∖ installed_ids report : gset string);
          still_installed := installed_ids report ∩ list_to_set ids |}.
Proof.
  unfold compute_drift, json_get. rewrite lookup_singleton_eq. simpl.
  assert (Hcollect : ∀ acc, collect_ids
            ((λ i, JDict {[ "task_id" := JStr i ]}) <$> ids) acc
            = Ok (set_map KStr (list_to_set ids : gset string) ∪ acc)).
  { induction ids as [|i ids IH]; intros acc; simpl.
    - f_equal. by_elements.
    - rewrite lookup_singleton_eq. simpl. rewrite IH. f_equal. by_elements. }
  rewrite Hcollect. fold (installed_ids report).
  f_equal. f_equal; by_elements.
Qed.

End DriftProperties.

(** ** The audit orchestrator *)

Section Orchestrator.
Context `{Host}.

(** *** The order on sort keys *)

Lemma compare_refl (s : string) : String.compare s s = Eq.
Proof.
  pose proof (String.compare_antisym s s) as Hs.
  destruct (String.compare s s); done.
Qed.

Lemma compare_Lt (s t : string) :
  String.compare s t = Lt ↔ String.le s t ∧ s ≠ t.
Proof.
  unfold String.le, String.leb. split.
  - intros Hlt. rewrite Hlt. split; [done|].
    intros ->. by rewrite compare_refl in Hlt.
  - intros [Hle Hne]. destruct (String.compare s t) eqn:Hc; [|done|done].
    by apply String.compare_eq_iff in Hc.
Qed.

(** [key_leb], as the lexicographic order it computes. *)
Lemma key_leb_lex (a b : string * string) :
  key_leb a b = true ↔
    (String.le a.1 b.1 ∧ a.1 ≠ b.1) ∨ (a.1 = b.1 ∧ String.le a.2 b.2).
Proof.
  unfold key_leb. destruct (String.compare a.1 b.1) eqn:Hc.
  - apply String.compare_eq_iff in Hc. unfold String.le. split.
    + intros Hle. right. split; [done|]. by rewrite Hle.
    + intros [[_ Hne]|[_ Hle]]; [done|]. by destruct (String.leb a.2 b.2).
  - apply compare_Lt in Hc. split; [by left|done].
  - split; [done|]. intros [Hlt|[Heq _]].
    + apply compare_Lt in Hlt. congruence.
    + rewrite Heq, compare_refl in Hc. done.
Qed.

Lemma key_leb_refl (a : string * string) : key_leb a a = true.
Proof. apply key_leb_lex. right. split; [done|]. reflexivity. Qed.

Lemma key_leb_total (a b : string * string) :
  key_leb a b = false → key_leb b a = true.
Proof.
  intros Hab. apply key_leb_lex.
  destruct (decide (a.1 = b.1)) as [Heq|Hne].
  - right. split; [done|].
    destruct (total String.le b.2 a.2) as [|Hle]; [done|].
    assert (key_leb a b = true); [|congruence].
    apply key_leb_lex. by right.
  - left. split; [|done].
    destruct (total String.le b.1 a.1) as [|Hle]; [done|].
    assert (key_leb a b = true); [|congruence].
    apply key_leb_lex. by left.
Qed.

Lemma key_leb_trans (a b c : string * string) :
  key_leb a b = true → key_leb b c = true → key_leb a c = true.
Proof.
  rewrite !key_leb_lex.
  intros [[Hab Hne]|[Hab Hle]] [[Hbc Hne']|[Hbc Hle']].
  - left. split; [by etrans|]. intros Hac. rewrite Hac in Hab.
    apply Hne'. by apply (anti_symm String.le).
  - left. by rewrite <-Hbc.
  - left. by rewrite Hab.
  - right. split; [congruence|by etrans].
Qed.

Lemma key_leb_antisym (a b : string * string) :
  key_leb a b = true → key_leb b a = true → a = b.
Proof.
  rewrite !key_leb_lex.
  intros [[Hab Hne]|[Hab Hle]] [[Hba Hne']|[Hba Hle']]; try done.
  - destruct Hne. by apply (anti_symm String.le).
  - destruct a, b; simpl in *. f_equal; [done|].
    by apply (anti_symm String.le).
Qed.

#[local] Instance key_le_trans : Transitive key_le.
Proof. intros t u v. apply key_leb_trans. Qed.

(** *** The sort *)

Lemma insert_sorted_perm (t : ToolStatus) (l : list ToolStatus) :
  insert_sorted t l ≡ₚ t :: l.
Proof.
  induction l as [|u l IH]; simpl; [done|].
  destruct (key_leb (sort_key t) (sort_key u)); [done|].
  rewrite IH. apply Permutation_swap.
Qed.

Lemma sort_tools_perm (l : list ToolStatus) : sort_tools l ≡ₚ l.
Proof.
  induction l as [|t l IH]; simpl; [done|].
  by rewrite insert_sorted_perm, IH.
Qed.

Lemma insert_sorted_hd (t u : ToolStatus) (l : list ToolStatus) :
  key_le u t → HdRel key_le u l → HdRel key_le u (insert_sorted t l).
Proof.
  intros Hut Hhd. destruct l as [|v l]; simpl; [by constructor|].
  destruct (key_leb (sort_key t) (sort_key v)); constructor; [done|].
  by inversion Hhd.
Qed.

Lemma insert_sorted_sorted (t : ToolStatus) (l : list ToolStatus) :
  Sorted key_le l → Sorted key_le (insert_sorted t l).
Proof.
  induction 1 as [|u l Hl IH Hhd]; simpl; [by repeat constructor|].
  destruct (key_leb (sort_key t) (sort_key u)) eqn:Htu.
  - constructor; [by constructor|]. by constructor.
  - constructor; [done|]. apply insert_sorted_hd; [|done].
    by apply key_leb_total.
Qed.

Lemma sort_tools_sorted (l : list ToolStatus) : Sorted key_le (sort_tools l).
Proof.
  induction l as [|t l IH]; simpl; [constructor|].
  by apply insert_sorted_sorted.
Qed.

(** The sort is stable: the tools of one key keep their order. *)
Lemma insert_sorted_filter (k : string * string) (t : ToolStatus)
    (l : list ToolStatus) :
  filter (λ u, sort_key u = k) (insert_sorted t l)
  = filter (λ u, sort_key u = k) (t :: l).
Proof.
  induction l as [|u l IH]; [done|]. simpl.
  destruct (key_leb (sort_key t) (sort_key u)) eqn:Htu; [done|].
  rewrite filter_cons, IH, !filter_cons.
  destruct (decide (sort_key u = k)) as [Hu|Hu];
    destruct (decide (sort_key t = k)) as [Ht|Ht]; try done.
  rewrite Ht, <-Hu, key_leb_refl in Htu. done.
Qed.

Lemma sort_tools_stable (k : string * string) (l : list ToolStatus) :
  filter (λ u, sort_key u = k) (sort_tools l) = filter (λ u, sort_key u = k) l.
Proof.
  induction l as [|t l IH]; [done|]. simpl.
  by rewrite insert_sorted_filter, !filter_cons, IH.
Qed.

Lemma NoDup_fmap_elem_inj {A B} (f : A → B) (l : list A) (x y : A) :
  NoDup (f <$> l) → x ∈ l → y ∈ l → f x = f y → x = y.
Proof.
  induction l as [|a l IH]; [by intros _ ?%elem_of_nil|].
  rewrite fmap_cons, NoDup_cons. intros [Ha Hl] Hx Hy Hxy.
  apply elem_of_cons in Hx as [->|Hx]; apply elem_of_cons in Hy as [->|Hy].
  - done.
  - destruct Ha. rewrite Hxy. by apply list_elem_of_fmap_2.
  - destruct Ha. rewrite <-Hxy. by apply list_elem_of_fmap_2.
  - by apply IH.
Qed.

(** Two lists of the same tools with pairwise different keys sort to the
    same list. *)
Lemma sort_tools_unique (l1 l2 : list ToolStatus) :
  l1 ≡ₚ l2 → NoDup (sort_key <$> l1) → sort_tools l1 = sort_tools l2.
Proof.
  intros Hperm Hnd.
  apply (Sorted_unique_strong key_le); [|apply sort_tools_sorted..|].
  - intros x1 x2 Hx1 Hx2 H12 H21.
    apply (NoDup_fmap_elem_inj sort_key l1); [done| | |].
    + by rewrite <-(sort_tools_perm l1).
    + by rewrite Hperm, <-(sort_tools_perm l2).
    + by apply key_leb_antisym.
  - by rewrite !sort_tools_perm.
Qed.

(** *** The summary *)

Lemma tally_lookup (m : gmap string (nat * nat)) (t : ToolStatus) (k : string) :
  tally m t !! k =
    if decide (k = category t)
    then Some ((if installed t then S else id) (default (0, 0) (m !! k)).1,
               S (default (0, 0) (m !! k)).2)
    else m !! k.
Proof.
  unfold tally. case_decide as Hk.
  - subst k. destruct (m !! category t) as [[i n]|] eqn:Hm;
      destruct (installed t); simpl;
      rewrite ?lookup_alter_eq, ?lookup_insert_eq, ?Hm; done.
  - destruct (m !! category t); destruct (installed t);
      by rewrite ?lookup_alter_ne, ?lookup_insert_ne by done.
Qed.

Lemma tally_comm (m : gmap string (nat * nat)) (t u : ToolStatus) :
  tally (tally m t) u = tally (tally m u) t.
Proof.
  apply map_eq. intros k. rewrite !tally_lookup.
  repeat case_decide; simpl; try done.
  by destruct (installed t), (installed u).
Qed.

Lemma foldl_tally_perm (l1 l2 : list ToolStatus) :
  l1 ≡ₚ l2 → ∀ m, foldl tally m l1 = foldl tally m l2.
Proof.
  induction 1 as [|t l1 l2 _ IH|t u l|l1 l2 l3 _ IH1 _ IH2]; intros m; simpl.
  - done.
  - apply IH.
  - by rewrite tally_comm.
  - by rewrite IH1.
Qed.

(** The summary does not depend on the order of the tools. *)
Lemma summarize_perm (l1 l2 : list ToolStatus) :
  l1 ≡ₚ l2 → summarize l1 = summarize l2.
Proof.
  intros Hperm. unfold summarize.
  rewrite (foldl_tally_perm l1 l2 Hperm ∅).
  by rewrite !Hperm.
Qed.

(** *** Probing in another order *)

Lemma first_word_raises (s : string) (e : exn) :
  Str.first_word s = Raise e → e = IndexError.
Proof. unfold Str.first_word. destruct (Str.lstrip s); by intros [= <-]. Qed.

Lemma get_install_path_raises (task : Task) (e : exn) :
  get_install_path task = Raise e → e = IndexError.
Proof.
  unfold get_install_path.
  assert (Hcmd : ∀ r : result (option string),
    r = (let check_cmd := default "" (check_command (detection_of task)) in
         if Str.contains "command -v" check_cmd then
           let parts := Str.split_on "command -v" check_cmd in
           if 1 <? length parts then
             match Str.first_word (Str.strip (default "" (parts !! 1))) with
             | Raise e => Raise e
             | Ok cmd_name =>
                 let '(code, out) := run_command ("command -v " +:+ cmd_name) 10 in
                 if (code =? 0)%Z then Ok (Some out) else Ok None
             end
           else Ok None
         else Ok None) →
    r = Raise e → e = IndexError).
  { intros r -> Hr. cbv zeta in Hr.
    destruct (Str.contains _ _); [|done].
    destruct (1 <? _); [|done].
    destruct (Str.first_word _) as [w|e'] eqn:Hw.
    - destruct (run_command _ _) as [code out]. by destruct (code =? 0)%Z.
    - injection Hr as <-. by apply first_word_raises in Hw. }
  cbv zeta.
  destruct (installed_indicator (detection_of task)) as [ind|].
  - destruct (_ && _); [done|]. by apply Hcmd.
  - by apply Hcmd.
Qed.

(** The one exception a probe can end with. *)
Lemma check_tool_raises (tid : string) (task : Task) (quick : bool) (e : exn) :
  check_tool tid task quick = Raise e → e = IndexError.
Proof.
  unfold check_tool. destruct (negb _); [done|].
  destruct (run_command _ _) as [code out].
  destruct (_ && _); [|done].
  destruct (get_install_path task) eqn:Hp; [done|].
  intros [= <-]. by apply get_install_path_raises in Hp.
Qed.

Lemma probe_all_raises (todo : list (string * Task)) (quick : bool) (e : exn) :
  probe_all todo quick = Raise e → e = IndexError.
Proof.
  induction todo as [|[tid task] todo IH]; simpl; [done|].
  destruct (check_tool tid task quick) eqn:Hc.
  - destruct (probe_all todo quick); [done|]. intros [= <-]. by apply IH.
  - intros [= <-]. by apply check_tool_raises in Hc.
Qed.

Lemma agree_trans (r1 r2 r3 : result (list ToolStatus)) :
  agree r1 r2 → agree r2 r3 → agree r1 r3.
Proof.
  destruct r1, r2, r3; simpl; try done.
  - intros. by etrans.
  - congruence.
Qed.

Lemma probe_all_perm (l1 l2 : list (string * Task)) (quick : bool) :
  l1 ≡ₚ l2 → agree (probe_all l1 quick) (probe_all l2 quick).
Proof.
  induction 1 as [|[tid task] l1 l2 _ IH|[tid task] [tid' task'] l|l1 l2 l3 _ IH1 _ IH2].
  - simpl. reflexivity.
  - simpl. destruct (check_tool tid task quick); [|done].
    destruct (probe_all l1 quick), (probe_all l2 quick); simpl in *; try done.
    by constructor.
  - simpl.
    destruct (check_tool tid task quick) as [st|e] eqn:H1,
             (check_tool tid' task' quick) as [st'|e'] eqn:H2;
      try apply check_tool_raises in H1 as ->;
      try apply check_tool_raises in H2 as ->;
      destruct (probe_all l quick) as [sts|e''] eqn:Hl;
      try apply probe_all_raises in Hl as ->;
      simpl; try done.
    apply Permutation_swap.
  - by eapply agree_trans.
Qed.

Lemma check_tool_key (tid : string) (task : Task) (quick : bool) (st : ToolStatus) :
  check_tool tid task quick = Ok st → sort_key st = task_key (tid, task).
Proof.
  unfold check_tool. destruct (negb _); [by intros [= <-]|].
  destruct (run_command _ _) as [code out].
  destruct (_ && _); [|by intros [= <-]].
  destruct (get_install_path task); [by intros [= <-]|done].
Qed.

Lemma probe_all_keys (todo : list (string * Task)) (quick : bool)
    (sts : list ToolStatus) :
  probe_all todo quick = Ok sts → sort_key <$> sts = task_key <$> todo.
Proof.
  revert sts. induction todo as [|[tid task] todo IH]; intros sts; simpl.
  - by intros [= <-].
  - destruct (check_tool tid task quick) as [st|] eqn:Hc; [|done].
    destruct (probe_all todo quick) as [sts'|]; [|done].
    intros [= <-]. rewrite fmap_cons. f_equal; [|by apply IH].
    by apply check_tool_key in Hc.
Qed.

(** C10, as the code has it. Over one manifest, with the worker pool
    finishing the probes in any order, the parallel and the sequential
    audit both return or both raise the same exception; when they return,
    the reports have the same summary, time stamp and system information
    and the same tools up to order. The sorted tool lists, hence the
    whole reports, are equal when no two tasks of the manifest have the
    same (category, name), the key of the final sort. *)
Theorem run_audit_parallel_sequential (tick : nat)
    (manifest completion : list (string * Task)) (quick : bool) :
  completion ≡ₚ manifest →
  match run_audit tick manifest completion quick true,
        run_audit tick manifest completion quick false with
  | Ok rp, Ok rs =>
      summary rp = summary rs
      ∧ tools rp ≡ₚ tools rs
      ∧ report_timestamp rp = report_timestamp rs
      ∧ system rp = system rs
      ∧ (NoDup (task_key <$> manifest) → rp = rs)
  | Raise e1, Raise e2 => e1 = e2
  | _, _ => False
  end.
Proof.
  intros Hperm. unfold run_audit.
  assert (Hag : agree (probe_all (if true && negb quick then completion else manifest) quick)
                      (probe_all manifest quick)).
  { destruct quick; simpl; [|by apply probe_all_perm].
    destruct (probe_all manifest true); simpl; done. }
  cbn [andb] in *.
  destruct (probe_all (if negb quick then completion else manifest) quick)
    as [lp|ep] eqn:Hp;
    destruct (probe_all manifest quick) as [ls|es] eqn:Hs; simpl in Hag; try done.
  assert (Hsorted : sort_tools lp ≡ₚ sort_tools ls) by (by rewrite !sort_tools_perm).
  cbn [summary tools report_timestamp system].
  split_and!; [by apply summarize_perm|done|done|done|].
  intros Hnd.
  assert (sort_tools lp = sort_tools ls) as ->; [|done].
  apply sort_tools_unique; [done|].
  rewrite Hag. by rewrite (probe_all_keys _ _ _ Hs).
Qed.

End Orchestrator.


(** ** The properties on concrete runs *)

Section Runs.

#[local] Existing Instance Demo.host.

Example split_on_ex :
  Str.split_on "command -v" "command -v git && command -v  hub"
  = [""; " git && "; "  hub"].
Proof. reflexivity. Qed.

Example strip_ex : Str.strip (String "009" " v1.2 " +:+ String "010" "") = "v1.2".
Proof. reflexivity. Qed.

Example first_word_ex : Str.first_word "  git  --version" = Ok "git".
Proof. reflexivity. Qed.

Example trim_prefix_ex :
  foldl trim_prefix "v20.11.0" ["v"; "version "; "Version "] = "20.11.0".
Proof. reflexivity. Qed.

Example with_suffix_ex :
  Path.with_suffix ["sessions"; "active"; "prov-1.json"] ".tmp"
  = ["sessions"; "active"; "prov-1.tmp"]
  ∧ Path.with_suffix ["notes"] ".tmp" = ["notes.tmp"]
  ∧ Path.with_suffix ["draft.tmp"] ".tmp" = ["draft.tmp"].
Proof. vm_compute. done. Qed.

Example py_index_ex :
  py_index 2 0 = Some 0 ∧ py_index 2 (-1) = Some 1 ∧ py_index 2 2 = None
  ∧ py_index 2 (-3) = None.
Proof. vm_compute. done. Qed.

(** [save_atomic_between_write_and_rename] at a session saved earlier,
    whose save has 14 operations: killed in the middle of the write (after
    5 operations) and just before the rename (after 13) the session file
    holds the earlier save; after the rename it holds the new document. *)
Lemma save_atomic_witness :
  let c := Demo.saved in
  let script := save_script Demo.session_path (ToJson.document (saved_document c)) in
  let new := json_dumps (ToJson.document (saved_document c)) in
  length script = 14
  ∧ Path.with_suffix Demo.session_path ".tmp"
    = ["sessions"; "active"; "prov-20260101-000000-k3x9.tmp"]
  ∧ FS.crash_after 5 script (files (world c)) !! Demo.session_path = Some "{old}"
  ∧ FS.crash_after 13 script (files (world c)) !! Demo.session_path = Some "{old}"
  ∧ FS.crash_after 14 script (files (world c)) !! Demo.session_path = Some new
  ∧ files (world (_save c).2) !! Demo.session_path = Some new.
Proof.
  cbv zeta.
  assert (Hsuf : Path.suffix Demo.session_path ≠ ".tmp") by (vm_compute; discriminate).
  split; [vm_compute; reflexivity|]. split; [vm_compute; reflexivity|].
  split_and!.
  - exact (proj2 (proj1 (proj2
      (save_atomic_between_write_and_rename Demo.saved Demo.session_path "{old}" 5
         eq_refl eq_refl)) Hsuf)).
  - exact (proj2 (proj1 (proj2
      (save_atomic_between_write_and_rename Demo.saved Demo.session_path "{old}" 13
         eq_refl eq_refl)) Hsuf)).
  - exact (proj2 (proj1 (proj2
      (save_atomic_between_write_and_rename Demo.saved Demo.session_path "{old}" 14
         eq_refl eq_refl)) Hsuf)).
  - exact (proj2 (proj2 (proj2
      (save_atomic_between_write_and_rename Demo.saved Demo.session_path "{old}" 0
         eq_refl eq_refl)))).
Defined.

(** The same crash point, evaluated: the session file still holds the
    earlier save. *)
Example crash_before_rename_keeps_prior :
  FS.crash_after 13
    (save_script Demo.session_path (ToJson.document (saved_document Demo.saved)))
    (files (world Demo.saved)) !! Demo.session_path = Some "{old}".
Proof. vm_compute. reflexivity. Qed.

(** A session file named [*.tmp] is its own temporary file: the save
    writes in place, and a crash during the write leaves it truncated. *)
Example save_in_place_truncates :
  let p : Path.t := ["sessions"; "active"; "draft.tmp"] in
  let c := {| world := {| files := {[ p := "{old}"%string ]}; ticks := 0; draws := 0 |};
              self := {| sessions_dir := ["sessions"]; session_file := Some p;
                         state := Demo.empty_document |} |} in
  Path.with_suffix p ".tmp" = p
  ∧ FS.crash_after 1 (save_script p (ToJson.document (saved_document c)))
      (files (world c)) !! p = Some "".
Proof. vm_compute. done. Qed.

(** [mutation_persists] at [start_task]. *)
Lemma mutation_persists_witness :
  ∃ c', exec (StartTask "git") Demo.saved = (Ok tt, c')
    ∧ persisted c' ∧ refreshed c'
    ∧ ticks (world Demo.saved) < ticks (world c').
Proof.
  apply (mutation_persists (StartTask "git") Demo.saved Demo.session_path);
    [reflexivity|exact I].
Defined.

(** [fail_task_truncates] at an error of 1000 characters. *)
Lemma fail_task_truncates_witness :
  let c := Demo.cfg "{old}" Demo.started_document in
  ∃ c', fail_task "git" Demo.long_error c = (Ok tt, c')
    ∧ tasks (state (self c')) !! "git"
      = Some (<["failed_at" := isoformat (clock (ticks (world c)))]>
                (<["error" := Str.slice_to 500 Demo.long_error]>
                   (<["status" := "failed"]>
                      {[ "status" := "in_progress";
                         "started" := "2026-01-01T00:00:00.1" ]})))
    ∧ resume_point (state (self c'))
      = Some {[ "task_id" := "git"; "action" := "retry_or_skip";
                "error" := Str.slice_to 200 Demo.long_error ]}
    ∧ String.length (Str.slice_to 500 Demo.long_error)
      = 500 `min` String.length Demo.long_error
    ∧ String.length (Str.slice_to 200 Demo.long_error)
      = 200 `min` String.length Demo.long_error
    ∧ (String.length Demo.long_error = 1000 →
       String.length (Str.slice_to 500 Demo.long_error) = 500).
Proof.
  cbv zeta.
  apply (fail_task_truncates (Demo.cfg "{old}" Demo.started_document) "git"
           Demo.long_error).
  reflexivity.
Defined.

Example long_error_stored_in_500 :
  String.length Demo.long_error = 1000
  ∧ String.length (Str.slice_to 500 Demo.long_error) = 500
  ∧ String.length (Str.slice_to 200 Demo.long_error) = 200.
Proof. vm_compute. done. Qed.

(** [unknown_task_raises_unchanged] at a task that was never planned. *)
Lemma unknown_task_witness :
  complete_task "ghost" Demo.saved = (Raise (KeyError "ghost"), Demo.saved)
  ∧ fail_task "ghost" "boom" Demo.saved = (Raise (KeyError "ghost"), Demo.saved).
Proof.
  apply (unknown_task_raises_unchanged Demo.saved "ghost" "boom"). reflexivity.
Defined.

(** A retry on a new session: after [fail_task "x" "boom"], [start_task "x"]
    leaves a record in progress and without error. *)
Example retry_discards_error :
  let r : gmap string string :=
    {[ "status" := "in_progress"; "started" := "2026-01-01T00:00:00.000000001" ]} in
  (Demo.retry_x Demo.start).1 = Ok tt
  ∧ tasks (state (self (Demo.retry_x Demo.start).2)) !! "x" = Some r
  ∧ r !! "error" = None.
Proof. vm_compute. done. Qed.

(** [set_plan] again with an overlapping list: [a] stays completed, [b]
    stays in progress, [c] is seeded as pending. *)
Example plan_twice_keeps_started :
  let d := state (self (Demo.plan_twice Demo.start).2) in
  (Demo.plan_twice Demo.start).1 = Ok tt
  ∧ plan d = ["b"; "c"]
  ∧ tasks d !! "a" ≫= lookup "status" = Some "completed"
  ∧ tasks d !! "b" ≫= lookup "status" = Some "in_progress"
  ∧ tasks d !! "c" = Some {[ "status" := "pending" ]}.
Proof. vm_compute. done. Qed.

(** [set_phase_history] at a phase change on a saved session. *)
Lemma set_phase_history_witness :
  ∃ c', set_phase "requirements" Demo.saved = (Ok tt, c')
    ∧ history (phase (state (self c')))
      = history (phase (state (self Demo.saved)))
          ++ [ {| pe_phase := current (phase (state (self Demo.saved)));
                  pe_ended := isoformat (clock (ticks (world Demo.saved))) |} ]
    ∧ current (phase (state (self c'))) = "requirements"
    ∧ (set_phase "requirements";; set_phase "requirements") Demo.saved = (Ok tt, c').
Proof.
  apply (proj2 (set_phase_history Demo.saved "requirements")). discriminate.
Defined.

(** From phase [init], [set_phase "requirements"] twice: one history entry,
    for [init]. *)
Example requirements_twice_one_entry :
  (Demo.requirements_twice Demo.start).1 = Ok tt
  ∧ phase (state (self (Demo.requirements_twice Demo.start).2))
    = {| current := "requirements";
         history := [ {| pe_phase := "init";
                         pe_ended := "2026-01-01T00:00:00.00001" |} ] |}.
Proof. vm_compute. done. Qed.

(** C3, on a check command that times out. [run_command] reports the
    time-out as [(-1, "timeout")], and [check_tool] keeps the code only:
    the status is not installed and its [error] is empty, where the claim
    has a time-out error. The audit then counts the tool as not installed
    and reports no error. *)
Theorem check_tool_timeout_without_error :
  shell "sleep 60" 10 = TimeoutExpired
  ∧ run_command "sleep 60" 10 = ((-1)%Z, "timeout")
  ∧ check_tool "sleeper" Demo.sleeper false
    = Ok {| task_id := "sleeper"; name := "Sleeper"; category := "misc";
            installed := false; version := None; install_path := None;
            detection_method := "sleep 60"; error := None |}
  ∧ match run_audit 0 [("sleeper", Demo.sleeper)] [("sleeper", Demo.sleeper)] false true with
    | Ok r => errors_count (summary r) = 0 ∧ not_installed_count (summary r) = 1
    | Raise _ => False
    end.
Proof. vm_compute. done. Qed.

(** [check_tool_not_installed] at that check command. *)
Lemma check_tool_not_installed_witness :
  ∃ st, check_tool "sleeper" Demo.sleeper false = Ok st
    ∧ installed st = false ∧ error st = None
    ∧ version st = None ∧ install_path st = None.
Proof.
  apply (proj2 (check_tool_not_installed "sleeper" Demo.sleeper false) "sleep 60");
    [reflexivity|reflexivity|left; reflexivity].
Defined.

(** A task without a check command: the one case with an error. *)
Example check_tool_without_command :
  check_tool "bare" {| task_name := None; task_category := None;
                       task_detection := None |} false
  = Ok {| task_id := "bare"; name := "bare"; category := "unknown";
          installed := false; version := None; install_path := None;
          detection_method := "(none)"; error := Some "No detection command" |}.
Proof. vm_compute. done. Qed.

(** A check command that cannot be run: the same, the message of the
    exception is dropped. *)
Example check_tool_exception_without_error :
  shell "/opt/broken --check" 10 = Failed "[Errno 8] Exec format error"
  ∧ run_command "/opt/broken --check" 10 = ((-1)%Z, "[Errno 8] Exec format error")
  ∧ check_tool "broken" {| task_name := None; task_category := Some "misc";
                           task_detection := Demo.detect "/opt/broken --check" None |} false
    = Ok {| task_id := "broken"; name := "broken"; category := "misc";
            installed := false; version := None; install_path := None;
            detection_method := "/opt/broken --check"; error := None |}.
Proof. vm_compute. done. Qed.

(** An installed tool, probed in full: version and path are filled in. *)
Example check_tool_git :
  check_tool "git" Demo.git false
  = Ok {| task_id := "git"; name := "Git CLI"; category := "vcs";
          installed := true; version := Some "git version 2.43.0";
          install_path := Some "/usr/bin/git";
          detection_method := "command -v git"; error := None |}.
Proof. vm_compute. done. Qed.

(** A check command that ends in [command -v]: resolving the path raises. *)
Example get_install_path_index_error :
  get_install_path {| task_name := None; task_category := None;
                      task_detection := Demo.detect "command -v" None |}
  = Raise IndexError.
Proof. vm_compute. done. Qed.

(** C10, the claim as stated, refuted: two tasks with one (category, name);
    the pool finishes [hub] first. The sequential report lists [git] first,
    the parallel one [hub]. *)
Lemma run_audit_twins_differ :
  Demo.twins_completion ≡ₚ Demo.twins
  ∧ match run_audit 0 Demo.twins Demo.twins_completion false true,
          run_audit 0 Demo.twins Demo.twins_completion false false with
    | Ok rp, Ok rs =>
        task_id <$> tools rp = ["hub"; "git"]
        ∧ task_id <$> tools rs = ["git"; "hub"]
        ∧ tools rp ≠ tools rs
    | _, _ => False
    end.
Proof.
  split; [apply Permutation_swap|].
  vm_compute. split_and!; [reflexivity..|discriminate].
Qed.

(** [run_audit_parallel_sequential] at two tasks with different keys, the
    pool finishing them in the other order. *)
Lemma run_audit_witness :
  Demo.pair_completion ≡ₚ Demo.pair
  ∧ match run_audit 0 Demo.pair Demo.pair_completion false true,
          run_audit 0 Demo.pair Demo.pair_completion false false with
    | Ok rp, Ok rs =>
        summary rp = summary rs
        ∧ tools rp ≡ₚ tools rs
        ∧ report_timestamp rp = report_timestamp rs
        ∧ system rp = system rs
        ∧ (NoDup (task_key <$> Demo.pair) → rp = rs)
    | Raise e1, Raise e2 => e1 = e2
    | _, _ => False
    end.
Proof.
  split; [apply Permutation_swap|].
  apply (run_audit_parallel_sequential 0 Demo.pair Demo.pair_completion false).
  apply Permutation_swap.
Defined.

Example pair_keys_differ : NoDup (task_key <$> Demo.pair).
Proof. vm_compute. repeat constructor; set_solver. Qed.

(** C2 on the input of the design document. The session completed [b], [c]
    and [d]; the report found [a], [b] and [c] installed. The drift is not
    [{a}], [{d}], [{b, c}]: it reports all three installed tools as added
    outside the session, and nothing else. *)
Theorem drift_ignores_completed_tasks :
  let session := state (self (Demo.session_bcd Demo.start).2) in
  (Demo.session_bcd Demo.start).1 = Ok tt
  ∧ get_completed_tasks session = {[ "b"; "c"; "d" ]}
  ∧ installed_ids Demo.report_abc = {[ "a"; "b"; "c" ]}
  ∧ compute_drift Demo.report_abc (ToJson.document session)
    = Ok {| added_outside_session := {[ "a"; "b"; "c" ]};
            removed_since_session := ∅;
            still_installed := ∅ |}.
Proof.
  cbv zeta.
  assert (Hids : installed_ids Demo.report_abc = {[ "a"; "b"; "c" ]}).
  { vm_compute. reflexivity. }
  split_and!; [vm_compute; reflexivity|vm_compute; reflexivity|done|].
  rewrite compute_drift_on_document. by rewrite Hids.
Qed.

(** The drift the design document expects is what the function computes on
    a session that lists its completed tasks under [completed_tasks]. *)
Example drift_on_completed_list :
  compute_drift Demo.report_abc
    (JDict {[ "completed_tasks" :=
                JList ((λ i, JDict {[ "task_id" := JStr i ]}) <$> ["b"; "c"; "d"]) ]})
  = Ok {| added_outside_session := {[ "a" ]};
          removed_since_session := {[ KStr "d" ]};
          still_installed := {[ "b"; "c" ]} |}.
Proof.
  rewrite compute_drift_on_completed_list. vm_compute. reflexivity.
Qed.

End Runs.


(** ** What every operation keeps *)

Section Preservation.
Context `{Host}.

(** The document after [_save]: stamped when the session has a file. *)
Lemma _save_state (c : Cfg) :
  state (self (_save c).2)
  = match session_file (self c) with
    | Some _ => saved_document c
    | None => state (self c)
    end.
Proof.
  destruct (session_file (self c)) as [p|] eqn:Hp.
  - by rewrite (_save_unfold c p Hp).
  - unfold _save, mbind, M_bind, get_self, mret, M_ret. cbn. by rewrite Hp.
Qed.

Section Rules.
Context (R : relation Document) `{!PreOrder R}.

Lemma preserves_ret {A} (a : A) : preserves R (mret a).
Proof. intros c. reflexivity. Qed.

Lemma preserves_raise {A} (e : exn) : preserves R (raise (A:=A) e).
Proof. intros c. reflexivity. Qed.

Lemma preserves_bind {A B} (m : M A) (f : A → M B) :
  preserves R m → (∀ a, preserves R (f a)) → preserves R (m ≫= f).
Proof.
  intros Hm Hf c. unfold mbind, M_bind.
  specialize (Hm c). destruct (m c) as [[a|e] c1]; simpl in *; [|done].
  etrans; [exact Hm|]. apply Hf.
Qed.

Lemma preserves_modify (f : Document → Document) :
  (∀ d, R d (f d)) → preserves R (modify f).
Proof. intros Hf c. apply Hf. Qed.

Lemma preserves_get_state (B : Type) (f : Document → M B) :
  (∀ c, R (state (self c)) (state (self (f (state (self c)) c).2))) →
  preserves R (get_state ≫= f).
Proof. intros Hf c. apply Hf. Qed.

Lemma preserves_get_self (B : Type) (f : SessionState → M B) :
  (∀ s, preserves R (f s)) → preserves R (get_self ≫= f).
Proof. intros Hf c. apply Hf. Qed.

Lemma preserves_now : preserves R now.
Proof. intros c. reflexivity. Qed.

Lemma preserves_fs_exec (script : list FS.op) : preserves R (fs_exec script).
Proof. intros c. unfold fs_exec. destruct (FS.run _ _). reflexivity. Qed.

Lemma preserves_set_session_file (p : Path.t) : preserves R (set_session_file p).
Proof. intros c. reflexivity. Qed.

Lemma preserves_save :
  (∀ d t, R d (with_meta <["updated" := t]> d)) → preserves R _save.
Proof.
  intros Hupd c. rewrite _save_state.
  destruct (session_file (self c)); [apply Hupd|reflexivity].
Qed.

Lemma preserves_relocate (target : SessionState → Path.t) :
  preserves R (relocate target).
Proof.
  apply preserves_get_self. intros s. destruct (session_file s); [|apply preserves_ret].
  case_decide; [|apply preserves_ret].
  apply preserves_bind; [apply preserves_fs_exec|intros _; apply preserves_set_session_file].
Qed.

End Rules.

Lemma same_command_refl (e : gmap string string) : same_command e e.
Proof. by repeat split. Qed.

Lemma same_command_trans (e1 e2 e3 : gmap string string) :
  same_command e1 e2 → same_command e2 e3 → same_command e1 e3.
Proof. intros (?&?&?) (?&?&?). repeat split; congruence. Qed.

Lemma log_extends_refl (l : list (gmap string string)) : log_extends l l.
Proof. split; [done|]. intros i e He. exists e. split; [done|apply same_command_refl]. Qed.

Lemma log_extends_trans (l1 l2 l3 : list (gmap string string)) :
  log_extends l1 l2 → log_extends l2 l3 → log_extends l1 l3.
Proof.
  intros [Hlen1 H1] [Hlen2 H2]. split; [lia|].
  intros i e He. destruct (H1 i e He) as (e2 & He2 & Hs2).
  destruct (H2 i e2 He2) as (e3 & He3 & Hs3).
  exists e3. split; [done|]. by eapply same_command_trans.
Qed.

Lemma log_extends_append (l : list (gmap string string)) (e : gmap string string) :
  log_extends l (l ++ [e]).
Proof.
  split; [rewrite length_app; lia|].
  intros i e0 He0. exists e0. split; [|apply same_command_refl].
  by apply lookup_app_l_Some.
Qed.

(** Completing an entry: a key other than the three set at the start. *)
Lemma log_extends_alter (l : list (gmap string string)) (i : nat) (k v : string) :
  k ≠ "command" → k ≠ "language" → k ≠ "started" →
  log_extends l (alter <[k := v]> i l).
Proof.
  intros Hc Hl Hs. split; [by rewrite length_alter|].
  intros j e He. destruct (decide (i = j)) as [->|Hne].
  - exists (<[k := v]> e). split.
    + by rewrite list_lookup_alter_eq, He.
    + unfold same_command. by rewrite !lookup_insert_ne.
  - exists e. split; [by rewrite list_lookup_alter_ne|apply same_command_refl].
Qed.

#[local] Instance evolves_preorder : PreOrder evolves.
Proof.
  split.
  - intros d. unfold evolves. split_and!; try done. apply log_extends_refl.
  - intros d1 d2 d3 (?&?&?&?&?&?&?) (?&?&?&?&?&?&?).
    unfold evolves. split_and!; try congruence.
    + set_solver.
    + by etrans.
    + by eapply log_extends_trans.
Qed.

Lemma evolves_meta (d : Document) (k v : string) :
  k ≠ "id" → k ≠ "created" → k ≠ "version" →
  evolves d (with_meta <[k := v]> d).
Proof.
  intros. unfold evolves. cbn. rewrite !lookup_insert_ne by done.
  split_and!; try done. apply log_extends_refl.
Qed.

(** A change of the fields that [evolves] does not read. *)
Lemma evolves_other (d d' : Document) :
  meta d' = meta d → profile d' = profile d → tasks d' = tasks d →
  phase d' = phase d → commands (execution d') = commands (execution d) →
  evolves d d'.
Proof.
  intros Hm Hp Ht Hph Hc. unfold evolves. rewrite Hm, Hp, Ht, Hph, Hc.
  split_and!; try done. apply log_extends_refl.
Qed.

Lemma evolves_tasks (d : Document)
    (f : gmap string (gmap string string) → gmap string (gmap string string)) :
  dom (tasks d) ⊆ dom (f (tasks d)) → evolves d (with_tasks f d).
Proof.
  intros. unfold evolves. cbn. split_and!; try done. apply log_extends_refl.
Qed.

Lemma evolves_history (d : Document) (f : Phase → Phase) :
  history (phase d) `prefix_of` history (f (phase d)) → evolves d (with_phase f d).
Proof.
  intros. unfold evolves. cbn. split_and!; try done. apply log_extends_refl.
Qed.

Lemma evolves_commands (d : Document)
    (f : list (gmap string string) → list (gmap string string)) :
  log_extends (commands (execution d)) (f (commands (execution d))) →
  evolves d (with_execution (λ e, {| commands := f (commands e);
                                     current_task := current_task e |}) d).
Proof. intros. unfold evolves. cbn. split_and!; done. Qed.

Lemma dom_foldl_seed_pending (l : list string) (m : gmap string (gmap string string)) :
  dom m ⊆ dom (foldl seed_pending m l).
Proof.
  intros i. rewrite !elem_of_dom. intros [r Hr].
  rewrite foldl_seed_pending_lookup, Hr. by eexists.
Qed.

Lemma preserves_get_state_any (R : relation Document) `{!PreOrder R} :
  preserves R get_state.
Proof. intros c. reflexivity. Qed.

Lemma preserves_save_evolves : preserves evolves _save.
Proof. apply preserves_save; [apply _|]. intros d t. by apply evolves_meta. Qed.

(** Breaks a method into its statements. *)
Ltac steps_with tac :=
  repeat first
    [ tac
    | apply preserves_save_evolves
    | apply (preserves_relocate evolves)
    | apply (preserves_ret evolves)
    | apply (preserves_raise evolves)
    | apply (preserves_now evolves)
    | apply (preserves_get_state_any evolves)
    | lazymatch goal with
      | |- preserves _ (mbind _ _) => apply (preserves_bind evolves); [|intros]
      | |- preserves _ (modify _) => apply (preserves_modify evolves); intros
      end ].

Ltac steps := steps_with fail.

(** Closes a statement that rewrites one field. *)
Ltac leaf :=
  first
    [ by apply evolves_meta
    | by apply evolves_other
    | by (apply evolves_history; first [done|by apply prefix_app_r])
    | by (apply evolves_tasks; first [apply dom_foldl_seed_pending
                                     |rewrite dom_insert; set_solver])
    | by apply evolves_commands, log_extends_alter
    | by apply (evolves_commands _ (λ l, l ++ [_])), log_extends_append ].

Lemma task_setitem_evolves (tid k v : string) : preserves evolves (task_setitem tid k v).
Proof.
  unfold task_setitem. steps. destruct (tasks _ !! tid); steps; try leaf.
Qed.

Lemma log_command_end_evolves (index : Z) (success : bool) (output err : string) :
  preserves evolves (log_command_end index success output err).
Proof.
  unfold log_command_end, set_commands. steps.
  destruct (_ <? _)%Z; steps. destruct (py_index _ _); steps; try leaf.
  all: destruct (Str.truthy _); steps; try leaf.
Qed.

Lemma fail_task_evolves (tid err : string) : preserves evolves (fail_task tid err).
Proof.
  unfold fail_task. steps_with ltac:(apply task_setitem_evolves); try leaf.
Qed.

Lemma log_command_start_evolves (command language : string) :
  preserves evolves (log_command_start command language).
Proof. unfold log_command_start, set_commands. steps; try leaf. Qed.

(** Every operation leaves a document that extends the one it found,
    whether it returns or raises. *)
Lemma exec_evolves (o : Op) : preserves evolves (exec o).
Proof.
  destruct o; unfold exec.
  - unfold set_phase. steps. case_decide; steps; try leaf.
  - unfold record_choice. steps; try leaf.
  - unfold record_user_data. steps; try leaf.
  - unfold set_plan. steps; try leaf.
  - unfold start_task, set_current_task. steps; try leaf.
  - unfold complete_task, set_current_task.
    steps_with ltac:(apply task_setitem_evolves); try leaf.
  - apply fail_task_evolves.
  - unfold skip_task. steps; try leaf.
  - steps_with ltac:(apply log_command_start_evolves).
  - apply log_command_end_evolves.
  - unfold complete_session. steps; try leaf.
  - unfold fail_session. steps; try leaf.
    destruct (Str.truthy _); steps; try leaf.
Qed.

Lemma after_command_evolves (output err : option string) :
  preserves evolves (after_command output err).
Proof.
  unfold after_command. steps.
  destruct (commands _); steps_with ltac:(apply log_command_end_evolves).
  destruct (current_task _); steps.
  destruct (_ && _); [apply fail_task_evolves|steps].
Qed.

Lemma _handle_shutdown_evolves : preserves evolves _handle_shutdown.
Proof.
  unfold _handle_shutdown. steps. case_decide; steps; try leaf.
Qed.

(** X1. No operation, and neither the command hook nor the signal
    handler, changes the id, the creation time, the version or the profile
    of the session, whether it returns or raises. *)
Theorem session_identity_immutable (o : Op) (output err : option string) (c : Cfg) :
  same_identity (state (self c)) (state (self (exec o c).2))
  ∧ same_identity (state (self c)) (state (self (after_command output err c).2))
  ∧ same_identity (state (self c)) (state (self (_handle_shutdown c).2)).
Proof.
  pose proof (exec_evolves o c) as (?&?&?&?&_).
  pose proof (after_command_evolves output err c) as (?&?&?&?&_).
  pose proof (_handle_shutdown_evolves c) as (?&?&?&?&_).
  by repeat split.
Qed.

(** X2. The command log is append-only with stable indices: after any
    operation or command hook, returning or raising, the log is at least as
    long, and the entry at each old index still has the command, language
    and start time it was logged with. *)
Theorem command_log_append_only (o : Op) (output err : option string) (c : Cfg) :
  log_extends (commands (execution (state (self c))))
              (commands (execution (state (self (exec o c).2))))
  ∧ log_extends (commands (execution (state (self c))))
                (commands (execution (state (self (after_command output err c).2)))).
Proof.
  pose proof (exec_evolves o c) as (_&_&_&_&_&_&?).
  pose proof (after_command_evolves output err c) as (_&_&_&_&_&_&?).
  done.
Qed.

(** X3. No operation removes a task record or rewrites the phase history:
    after any operation or command hook, returning or raising, every task
    that had a record has one, and the old history is a prefix of the new
    one. *)
Theorem records_and_history_grow (o : Op) (output err : option string) (c : Cfg) :
  (records_kept (state (self c)) (state (self (exec o c).2))
   ∧ history (phase (state (self c)))
       `prefix_of` history (phase (state (self (exec o c).2))))
  ∧ (records_kept (state (self c)) (state (self (after_command output err c).2))
     ∧ history (phase (state (self c)))
         `prefix_of` history (phase (state (self (after_command output err c).2)))).
Proof.
  pose proof (exec_evolves o c) as (_&_&_&_&Hd1&?&_).
  pose proof (after_command_evolves output err c) as (_&_&_&_&Hd2&?&_).
  split; (split; [|done]); intros i; rewrite <-!elem_of_dom; set_solver.
Qed.

End Preservation.


(** ** Task references *)

Section References.
Context `{Host}.

#[local] Instance keeps_references_preorder : PreOrder keeps_references.
Proof.
  split.
  - intros d Hd. exact Hd.
  - intros d1 d2 d3 H12 H23 H1. apply H23, H12, H1.
Qed.

Lemma references_resolve_kept (d d' : Document) :
  (∀ i, current_task (execution d') = Some i → current_task (execution d) = Some i) →
  resume_point d' = resume_point d →
  plan d' = plan d →
  records_kept d d' →
  keeps_references d d'.
Proof.
  intros Hcur Hres Hplan Hrec (H1 & H2 & H3). split_and!.
  - intros i Hi. apply Hrec, H1, Hcur, Hi.
  - intros r i Hr Hi. rewrite Hres in Hr. by eapply Hrec, H2.
  - intros i Hi. rewrite Hplan in Hi. by apply Hrec, H3.
Qed.

Lemma records_kept_insert (d : Document) (i : string) (r : gmap string string)
    (f : Document → Document) :
  tasks (f d) = <[i := r]> (tasks d) → records_kept d (f d).
Proof.
  intros Hf j Hj. rewrite Hf. rewrite lookup_insert_is_Some.
  destruct (decide (i = j)); auto.
Qed.

(** Closes a statement that keeps the three references and the records. *)
Ltac kept :=
  apply references_resolve_kept;
    [ cbn; intros; first [assumption|discriminate]
    | reflexivity
    | reflexivity
    | first [ intros ? Hkept; exact Hkept
            | eapply records_kept_insert; reflexivity ] ].

Ltac rsteps_with tac :=
  repeat first
    [ tac
    | apply (preserves_save keeps_references); intros; kept
    | apply (preserves_relocate keeps_references)
    | apply (preserves_ret keeps_references)
    | apply (preserves_raise keeps_references)
    | apply (preserves_now keeps_references)
    | apply (preserves_get_state_any keeps_references)
    | lazymatch goal with
      | |- preserves _ (mbind _ _) => apply (preserves_bind keeps_references); [|intros]
      | |- preserves _ (modify _) =>
          apply (preserves_modify keeps_references); intros; try kept
      end ].

Ltac run :=
  repeat progress
    (cbv delta [mbind M_bind mret M_ret now read_clock modify put_state
                set_current_task set_commands get_state get_self raise];
     cbn -[_save relocate Str.slice_to]).

Lemma references_after_save (c : Cfg) :
  references_resolve (state (self c)) → references_resolve (state (self (_save c).2)).
Proof.
  rewrite _save_state. destruct (session_file (self c)); [|done].
  unfold saved_document. by destruct (state (self c)).
Qed.

Lemma task_setitem_keeps (tid k v : string) :
  preserves keeps_references (task_setitem tid k v).
Proof.
  unfold task_setitem. rsteps_with fail. destruct (tasks _ !! tid); rsteps_with fail.
Qed.

Lemma start_task_keeps (tid : string) : preserves keeps_references (start_task tid).
Proof.
  intros c (H1 & H2 & H3). unfold start_task. run.
  apply references_after_save. cbn. split_and!; cbn.
  - intros i [= <-]. by rewrite lookup_insert_eq.
  - intros r i [= <-] Hi. rewrite lookup_insert_eq in Hi. injection Hi as <-.
    by rewrite lookup_insert_eq.
  - intros i Hi. rewrite lookup_insert_is_Some. destruct (decide (tid = i)); auto.
Qed.

Lemma set_plan_keeps (l : list string) : preserves keeps_references (set_plan l).
Proof.
  intros c (H1 & H2 & H3). unfold set_plan. run.
  apply references_after_save. cbn.
  assert (Hkept : ∀ i, is_Some (tasks (state (self c)) !! i) →
                       is_Some (foldl seed_pending (tasks (state (self c))) l !! i)).
  { intros i [r Hr]. rewrite foldl_seed_pending_lookup, Hr. by eexists. }
  split_and!; cbn.
  - intros i Hi. by apply Hkept, H1.
  - intros r i Hr Hi. by eapply Hkept, H2.
  - intros i Hi. rewrite foldl_seed_pending_lookup.
    destruct (tasks (state (self c)) !! i); [by eexists|].
    rewrite decide_True by done. by eexists.
Qed.

Lemma fail_task_keeps (tid err : string) : preserves keeps_references (fail_task tid err).
Proof.
  intros c (H1 & H2 & H3). unfold fail_task, task_setitem. run.
  destruct (tasks (state (self c)) !! tid) as [r|] eqn:Hr; run; [|done].
  rewrite lookup_insert_eq. run. rewrite lookup_insert_eq. run.
  apply references_after_save. cbn.
  split_and!; cbn.
  - intros i Hi. repeat (apply lookup_insert_is_Some'; right). by apply H1.
  - intros r0 i [= <-] Hi. rewrite lookup_insert_eq in Hi. injection Hi as <-.
    by rewrite lookup_insert_eq.
  - intros i Hi. repeat (apply lookup_insert_is_Some'; right). by apply H3.
Qed.

Lemma log_command_end_keeps (index : Z) (success : bool) (output err : string) :
  preserves keeps_references (log_command_end index success output err).
Proof.
  unfold log_command_end, set_commands. rsteps_with fail.
  destruct (_ <? _)%Z; rsteps_with fail. destruct (py_index _ _); rsteps_with fail.
  all: destruct (Str.truthy _); rsteps_with fail.
Qed.

Lemma exec_keeps_references (o : Op) : preserves keeps_references (exec o).
Proof.
  destruct o; unfold exec.
  - unfold set_phase. rsteps_with fail. case_decide; rsteps_with fail.
  - unfold record_choice. rsteps_with fail.
  - unfold record_user_data. rsteps_with fail.
  - apply set_plan_keeps.
  - apply start_task_keeps.
  - unfold complete_task, set_current_task.
    rsteps_with ltac:(apply task_setitem_keeps).
  - apply fail_task_keeps.
  - unfold skip_task. rsteps_with fail.
  - unfold log_command_start, set_commands. rsteps_with fail.
  - apply log_command_end_keeps.
  - unfold complete_session. rsteps_with fail.
  - unfold fail_session. rsteps_with fail.
    destruct (Str.truthy _); rsteps_with fail.
Qed.

End References.


(** ** The command log and its hooks *)

(** Runs the straight-line part of a method down to its [_save]. *)
Ltac run_method :=
  repeat progress
    (cbv delta [mbind M_bind mret M_ret now read_clock modify put_state
                set_current_task set_commands get_state get_self raise];
     cbn -[_save relocate Str.slice_to Z.of_nat Z.sub Z.ltb]).

Section CommandLog.
Context `{Host}.

(** [_save] returns, and leaves every field but [meta] as it was. *)
Lemma _save_returns (c : Cfg) :
  ∃ c', _save c = (Ok tt, c')
    ∧ session_file (self c') = session_file (self c)
    ∧ sessions_dir (self c') = sessions_dir (self c)
    ∧ ∃ f, state (self c') = with_meta f (state (self c)).
Proof.
  destruct (_save_spec c) as (c' & Hrun & Hdir & Hfile & Hst & _).
  exists c'. by split_and!.
Qed.

(** X4. [log_command_start] returns the position of the entry it appends:
    the length of the log before the call (so 0 on a new session, and one
    more at each call). The entry holds the first 1000 characters of the
    command, the language, the time and the status [running]; the entries
    before it are untouched. *)
Theorem log_command_start_index (command language : string) (c : Cfg) :
  ∃ c', log_command_start command language c
        = (Ok (Z.of_nat (length (commands (execution (state (self c)))))), c')
    ∧ commands (execution (state (self c')))
      = commands (execution (state (self c)))
          ++ [ {[ "command" := Str.slice_to 1000 command; "language" := language;
                  "started" := isoformat (clock (ticks (world c)));
                  "status" := "running" ]} ]
    ∧ same_tasks_side (state (self c)) (state (self c'))
    ∧ ∃ c'', log_command_start command language c'
             = (Ok (Z.of_nat (length (commands (execution (state (self c))))) + 1)%Z, c'').
Proof.
  assert (Hgen : ∀ c0, ∃ c', log_command_start command language c0
        = (Ok (Z.of_nat (length (commands (execution (state (self c0)))))), c')
    ∧ commands (execution (state (self c')))
      = commands (execution (state (self c0)))
          ++ [ {[ "command" := Str.slice_to 1000 command; "language" := language;
                  "started" := isoformat (clock (ticks (world c0)));
                  "status" := "running" ]} ]
    ∧ same_tasks_side (state (self c0)) (state (self c'))).
  { intros c0. unfold log_command_start. run_method.
    match goal with |- context [_save ?c1] =>
      destruct (_save_returns c1) as (c' & -> & _ & _ & [f Hst]) end.
    run_method. exists c'. rewrite Hst. cbn -[Z.of_nat Z.sub].
    split_and!; [|done|done].
    f_equal. f_equal. rewrite length_app. simpl. lia. }
  destruct (Hgen c) as (c' & Hrun & Hcmds & Hside).
  exists c'. split_and!; [done..|].
  destruct (Hgen c') as (c'' & Hrun' & _). exists c''. rewrite Hrun'.
  f_equal. f_equal. rewrite Hcmds, length_app. simpl. lia.
Qed.

Lemma log_command_end_in_range
    (index : Z) (success : bool) (output err : string) (c : Cfg) (k : nat) :
  py_index (length (commands (execution (state (self c))))) index = Some k →
  ∃ c', log_command_end index success output err c = (Ok tt, c')
    ∧ commands (execution (state (self c')))
      = alter (complete_entry (isoformat (clock (ticks (world c)))) success output err) k
          (commands (execution (state (self c))))
    ∧ length (commands (execution (state (self c'))))
      = length (commands (execution (state (self c))))
    ∧ same_tasks_side (state (self c)) (state (self c')).
Proof.
  intros Hk.
  assert (Hlt : (index <? Z.of_nat (length (commands (execution (state (self c))))))%Z = true).
  { unfold py_index in Hk. apply Z.ltb_lt.
    destruct (0 <=? index)%Z eqn:H0.
    - destruct (index <? _)%Z eqn:H1; [|done]. by apply Z.ltb_lt.
    - apply Z.leb_gt in H0. lia. }
  unfold log_command_end. run_method. rewrite Hlt, Hk. run_method.
  destruct output as [|oc os], err as [|ec es]; run_method;
    match goal with |- context [_save ?c1] =>
      destruct (_save_returns c1) as (c' & -> & _ & _ & [f Hst]) end;
    exists c'; rewrite Hst; cbn -[Str.slice_to];
    rewrite ?list_alter_alter_eq;
    (split_and!; [done|done|by rewrite ?length_alter|done]).
Qed.

(** X5. [log_command_end] at an index of the log (counted from the end
    when negative, as Python does) returns and completes that entry alone:
    [ended] and [status] are set, [output] and [error] only when the
    argument is not empty and cut to 500 characters; every other entry, and
    the tasks, plan, current task and resume point, are unchanged. *)
Theorem log_command_end_completes_entry
    (index : Z) (success : bool) (output err : string) (c : Cfg) (k : nat) :
  py_index (length (commands (execution (state (self c))))) index = Some k →
  ∃ c', log_command_end index success output err c = (Ok tt, c')
    ∧ commands (execution (state (self c')))
      = alter (complete_entry (isoformat (clock (ticks (world c)))) success output err) k
          (commands (execution (state (self c))))
    ∧ length (commands (execution (state (self c'))))
      = length (commands (execution (state (self c))))
    ∧ same_tasks_side (state (self c)) (state (self c')).
Proof. apply log_command_end_in_range. Qed.

(** X6. [log_command_end] outside the log: at an index past the end it
    does nothing at all (no change, no save); at an index before the start
    (below minus the length), in particular at [-1] on an empty log,
    it raises [IndexError], again without any change. *)
Theorem log_command_end_outside_log
    (index : Z) (success : bool) (output err : string) (c : Cfg) :
  py_index (length (commands (execution (state (self c))))) index = None →
  log_command_end index success output err c
  = (if (index <? 0)%Z then Raise IndexError else Ok tt, c).
Proof.
  intros Hk. unfold log_command_end. run_method.
  unfold py_index in Hk.
  destruct (0 <=? index)%Z eqn:H0.
  - destruct (index <? Z.of_nat _)%Z eqn:H1; [done|].
    rewrite (proj2 (Z.ltb_ge _ _)) by (apply Z.leb_le in H0; lia). done.
  - apply Z.leb_gt in H0.
    rewrite (proj2 (Z.ltb_lt index (Z.of_nat _))) by lia.
    unfold py_index. rewrite (proj2 (Z.leb_gt _ _)) by lia.
    destruct (0 <=? _)%Z eqn:H1; [done|]. run_method.
    by rewrite (proj2 (Z.ltb_lt _ _)) by lia.
Qed.

(** [fail_task] on a task that has a record. *)
Lemma fail_task_returns (tid err : string) (c : Cfg) (r : gmap string string) :
  tasks (state (self c)) !! tid = Some r →
  ∃ c' t, fail_task tid err c = (Ok tt, c')
    ∧ tasks (state (self c'))
      = <[tid := <["failed_at" := t]>
                   (<["error" := Str.slice_to 500 err]> (<["status" := "failed"]> r))]>
          (tasks (state (self c)))
    ∧ resume_point (state (self c'))
      = Some {[ "task_id" := tid; "action" := "retry_or_skip";
                "error" := Str.slice_to 200 err ]}
    ∧ execution (state (self c')) = execution (state (self c))
    ∧ plan (state (self c')) = plan (state (self c)).
Proof.
  intros Hr. unfold fail_task, task_setitem. run_method. rewrite Hr. run_method.
  rewrite lookup_insert_eq. run_method. rewrite lookup_insert_eq. run_method.
  match goal with |- context [_save ?c1] =>
    destruct (_save_returns c1) as (c' & -> & _ & _ & [f Hst]) end.
  exists c', (isoformat (clock (ticks (world c)))). rewrite Hst. cbn -[Str.slice_to].
  split_and!; try done. by rewrite !insert_insert_eq.
Qed.

(** X7. The hook [after_command] never raises on a session whose
    references resolve (the current task has a record): it returns, and
    when no command was logged it changes nothing, even if it is handed an
    error. *)
Theorem after_command_never_raises (output err : option string) (c : Cfg) :
  references_resolve (state (self c)) →
  ∃ c', after_command output err c = (Ok tt, c')
    ∧ (commands (execution (state (self c))) = [] → c' = c).
Proof.
  intros (Hcur & _ & _). unfold after_command. run_method.
  destruct (commands (execution (state (self c)))) as [|e l] eqn:Hcmds.
  { exists c. by split. }
  set (idx := (Z.of_nat (length (e :: l)) - 1)%Z).
  assert (Hidx : py_index (length (commands (execution (state (self c))))) idx
                 = Some (length l)).
  { rewrite Hcmds. unfold py_index, idx. cbn [length].
    rewrite (proj2 (Z.leb_le _ _)) by lia. rewrite (proj2 (Z.ltb_lt _ _)) by lia.
    f_equal. lia. }
  match goal with |- context [log_command_end idx ?s ?o ?e0 c] =>
    destruct (log_command_end_in_range idx s o e0 c _ Hidx)
      as (c1 & -> & _ & _ & (Htasks & _ & _ & Hcur1)) end.
  run_method. rewrite Hcur1.
  destruct (current_task (execution (state (self c)))) as [cur|] eqn:Hc;
    [|exists c1; by split].
  destruct (_ && _).
  - destruct (Hcur cur eq_refl) as [r Hr]. rewrite <-Htasks in Hr.
    match goal with |- context [fail_task cur ?m c1] =>
      destruct (fail_task_returns cur m c1 r Hr) as (c2 & t & -> & _) end.
    exists c2. by split.
  - exists c1. by split.
Qed.

(** X8. [after_command] with a non-empty error, on a session with a
    logged command and a current task that has a record: the last entry of
    the log is completed with status [failed] and the error, and the
    current task is failed as by [fail_task], with the first 500 characters
    of the error and the resume point [retry_or_skip]. *)
Theorem after_command_fails_current_task
    (output : option string) (msg cur : string) (r : gmap string string) (c : Cfg) :
  commands (execution (state (self c))) ≠ [] →
  msg ≠ "" → cur ≠ "" →
  current_task (execution (state (self c))) = Some cur →
  tasks (state (self c)) !! cur = Some r →
  ∃ c' t, after_command output (Some msg) c = (Ok tt, c')
    ∧ commands (execution (state (self c')))
      = alter (complete_entry (isoformat (clock (ticks (world c)))) false
                 (default "" output) msg)
          (length (commands (execution (state (self c)))) - 1)
          (commands (execution (state (self c))))
    ∧ tasks (state (self c')) !! cur
      = Some (<["failed_at" := t]>
                (<["error" := Str.slice_to 500 msg]> (<["status" := "failed"]> r)))
    ∧ resume_point (state (self c'))
      = Some {[ "task_id" := cur; "action" := "retry_or_skip";
                "error" := Str.slice_to 200 msg ]}.
Proof.
  intros Hne Hmsg Hcurne Hcur Hr.
  destruct msg as [|mc ms]; [done|]. destruct cur as [|cc cs]; [done|].
  unfold after_command. run_method.
  destruct (commands (execution (state (self c)))) as [|e l] eqn:Hcmds; [done|].
  set (idx := (Z.of_nat (length (e :: l)) - 1)%Z).
  assert (Hidx : py_index (length (commands (execution (state (self c))))) idx
                 = Some (length l)).
  { rewrite Hcmds. unfold py_index, idx. cbn [length].
    rewrite (proj2 (Z.leb_le _ _)) by lia. rewrite (proj2 (Z.ltb_lt _ _)) by lia.
    f_equal. lia. }
  match goal with |- context [log_command_end idx false ?o ?m c] =>
    destruct (log_command_end_in_range idx false o m c _ Hidx)
      as (c1 & -> & Hcmds1 & _ & (Htasks & _ & _ & Hcur1));
    assert (Hout : o = default "" output) by (by destruct output as [[|??]|])
  end.
  run_method. rewrite Hcur1, Hcur. run_method.
  rewrite <-Htasks in Hr.
  destruct (fail_task_returns (String cc cs) (String mc ms) c1 r Hr)
    as (c2 & t & -> & Ht2 & Hres & Hex & _).
  exists c2, t. split_and!; [done| | |done].
  - rewrite Hex, Hcmds1, Hcmds, Hout. cbn [length]. by rewrite Nat.sub_0_r.
  - rewrite Ht2. apply lookup_insert_eq.
Qed.

End CommandLog.

(** ** Creating and finishing a session *)

Section Lifecycle.
Context `{Host}.

(** X9. The references of the document always resolve: [create_session]
    leaves a document in which the current task, the task of the resume
    point and every task of the plan have a record, and every operation
    keeps it so, whether it returns or raises. *)
Theorem references_always_resolve (o : Op) (profile : option string) (c : Cfg) :
  references_resolve (state (self (create_session profile c).2))
  ∧ (references_resolve (state (self c)) →
     references_resolve (state (self (exec o c).2))).
Proof.
  split; [|apply exec_keeps_references].
  unfold create_session, _generate_session_id, draw_suffix, set_session_file.
  run_method.
  match goal with |- context [_save ?c1] =>
    destruct (_save_returns c1) as (c' & -> & _ & _ & [f Hst]) end.
  run_method. rewrite Hst. unfold references_resolve. cbn.
  split_and!; [done|done|]. intros i Hi. by apply elem_of_nil in Hi.
Qed.

(** X10. [create_session] returns the identifier
    [prov-<date>-<time>-<suffix>], built from the first clock reading and
    one random draw; the session file is [<id>.json] in the active
    partition and holds the encoding of the new document: status [active],
    phase [init], no history, tasks, plan, commands or resume point, and
    the stamps [created] and [updated] from the second and the fourth
    reading. *)
Theorem create_session_initial (profile : option string) (c : Cfg) :
  let t := ticks (world c) in
  let sid := "prov-" +:+ strftime_id (clock t) +:+ "-" +:+ random_suffix (draws (world c)) in
  let path := Path.joinpath (active_dir (self c)) (sid +:+ ".json") in
  let d := {| meta := {[ "id" := sid; "created" := isoformat (clock (S t));
                          "updated" := isoformat (clock (S (S (S t))));
                          "status" := "active"; "version" := "1.0" ]};
              phase := {| current := "init"; history := [] |};
              profile := profile; choices := ∅; user_data := ∅; tasks := ∅;
              plan := [];
              execution := {| commands := []; current_task := None |};
              resume_point := None; expansion_history := [] |} in
  ∃ c', create_session profile c = (Ok sid, c')
    ∧ state (self c') = d
    ∧ session_file (self c') = Some path
    ∧ sessions_dir (self c') = sessions_dir (self c)
    ∧ files (world c') !! path = Some (json_dumps (ToJson.document d))
    ∧ ticks (world c') = t + 4
    ∧ draws (world c') = S (draws (world c)).
Proof.
  cbv zeta.
  unfold create_session, _generate_session_id, draw_suffix, set_session_file.
  run_method.
  match goal with |- context [_save ?c1] =>
    rewrite (_save_unfold c1 _ eq_refl) end.
  cbn -[save_script FS.run]. eexists. split; [done|].
  cbn -[save_script FS.run]. rewrite run_save_script.
  unfold saved_document, with_meta. cbn -[Path.with_suffix json_dumps ToJson.document].
  assert (Hmeta : ∀ (a b u u' s v : string),
    <["updated" := u']> ({[ "id" := a; "created" := b; "updated" := u;
                            "status" := s; "version" := v ]} : gmap string string)
    = {[ "id" := a; "created" := b; "updated" := u'; "status" := s; "version" := v ]}).
  { intros.
    rewrite (insert_insert_ne _ "updated" "id") by done.
    rewrite (insert_insert_ne _ "updated" "created") by done.
    by rewrite insert_insert_eq. }
  rewrite !Hmeta. split_and!; try done.
  - apply lookup_insert_eq.
  - lia.
Qed.

(** The file of a new session ends in [.json]: its temporary sibling is
    another path, and every save of the session is atomic. *)
Lemma create_session_suffix (profile : option string) (c : Cfg) :
  ∃ p, session_file (self (create_session profile c).2) = Some p
    ∧ Path.suffix p = ".json"
    ∧ Path.with_suffix p ".tmp" ≠ p.
Proof.
  unfold create_session, _generate_session_id, draw_suffix, set_session_file.
  run_method.
  match goal with |- context [_save ?c1] =>
    rewrite (_save_unfold c1 _ eq_refl) end.
  cbn -[save_script FS.run Path.suffix Path.with_suffix]. eexists. split; [done|].
  match goal with |- Path.suffix (?d ++ [?sid +:+ ".json"]) = _ ∧ _ =>
    pose proof (suffix_json d sid) as Hsuf end.
  unfold Path.joinpath in Hsuf.
  split; [by apply Hsuf|].
  apply with_suffix_tmp_ne. by rewrite Hsuf.
Qed.

Lemma joinpath_inj (p : Path.t) (n n' : string) :
  Path.joinpath p n = Path.joinpath p n' → n = n'.
Proof. unfold Path.joinpath. intros Hp. apply app_inv_head in Hp. by injection Hp. Qed.

(** The tail of [complete_session] and [fail_session]: save in place, then
    move out of the active partition. *)
Lemma save_then_relocate (partition : string) (c : Cfg) (p : Path.t) :
  session_file (self c) = Some p →
  let dest := destination partition (self c) p in
  ∃ c', (_save;; relocate (partition_dir partition)) c = (Ok tt, c')
    ∧ state (self c') = saved_document c
    ∧ sessions_dir (self c') = sessions_dir (self c)
    ∧ session_file (self c') = Some dest
    ∧ files (world c') !! dest = Some (json_dumps (ToJson.document (saved_document c)))
    ∧ (dest ≠ p → files (world c') !! p = None)
    ∧ (∀ q, q ≠ p → q ≠ Path.with_suffix p ".tmp" → q ≠ dest →
            files (world c') !! q = files (world c) !! q).
Proof.
  intros Hp dest. unfold dest, destination.
  unfold mbind at 1, M_bind at 1. rewrite (_save_unfold c p Hp).
  cbn -[save_script FS.run]. rewrite run_save_script.
  unfold relocate, fs_exec, set_session_file. run_method.
  destruct (decide (Path.parent p = active_dir (self c))) as [Hpar|Hpar].
  - rewrite decide_True by exact Hpar.
    cbn. rewrite lookup_insert_eq. run_method.
    eexists. split; [done|]. cbn. split_and!; try done.
    + apply lookup_insert_eq.
    + intros Hne. rewrite lookup_insert_ne by done. apply lookup_delete_eq.
    + intros q H1 H2 H3. rewrite lookup_insert_ne by done.
      rewrite lookup_delete_ne by done. rewrite lookup_insert_ne by done.
      by rewrite lookup_delete_ne.
  - rewrite decide_False by exact Hpar.
    run_method. eexists. split; [done|]. cbn. split_and!; try done.
    + apply lookup_insert_eq.
    + intros q H1 H2 H3. rewrite lookup_insert_ne by done.
      by rewrite lookup_delete_ne.
Qed.

Lemma complete_session_spec (c : Cfg) (p : Path.t) :
  session_file (self c) = Some p →
  let dest := destination "completed" (self c) p in
  ∃ c', complete_session c = (Ok tt, c')
    ∧ session_file (self c') = Some dest
    ∧ sessions_dir (self c') = sessions_dir (self c)
    ∧ files (world c') !! dest = Some (json_dumps (ToJson.document (state (self c'))))
    ∧ (dest ≠ p → files (world c') !! p = None)
    ∧ (∀ q, q ≠ p → q ≠ Path.with_suffix p ".tmp" → q ≠ dest →
            files (world c') !! q = files (world c) !! q)
    ∧ state (self c')
      = with_meta (λ m, <["updated" := isoformat (clock (S (ticks (world c))))]>
                          (<["completed" := isoformat (clock (ticks (world c)))]>
                             (<["status" := "completed"]> m))) (state (self c)).
Proof.
  intros Hp dest. unfold complete_session. run_method.
  match goal with |- context [_save ?c1] =>
    destruct (save_then_relocate "completed" c1 p Hp)
      as (c' & Hrun & Hst & Hdir & Hfile & Hcontent & Hgone & Hframe) end.
  exists c'. split; [exact Hrun|]. rewrite Hst.
  split_and!; try done; try by apply Hframe.
Qed.

Lemma fail_session_spec (reason : string) (c : Cfg) (p : Path.t) :
  session_file (self c) = Some p →
  let dest := destination "failed" (self c) p in
  ∃ c', fail_session reason c = (Ok tt, c')
    ∧ session_file (self c') = Some dest
    ∧ sessions_dir (self c') = sessions_dir (self c)
    ∧ files (world c') !! dest = Some (json_dumps (ToJson.document (state (self c'))))
    ∧ (dest ≠ p → files (world c') !! p = None)
    ∧ (∀ q, q ≠ p → q ≠ Path.with_suffix p ".tmp" → q ≠ dest →
            files (world c') !! q = files (world c) !! q)
    ∧ state (self c')
      = with_meta (λ m, <["updated" := isoformat (clock (S (ticks (world c))))]>
                          ((if Str.truthy (Some reason)
                            then <["failure_reason" := Str.slice_to 500 reason]>
                            else λ m, m)
                             (<["failed_at" := isoformat (clock (ticks (world c)))]>
                                (<["status" := "failed"]> m)))) (state (self c)).
Proof.
  intros Hp dest. unfold fail_session. run_method.
  destruct reason as [|rc rs]; run_method;
    match goal with |- context [_save ?c1] =>
      destruct (save_then_relocate "failed" c1 p Hp)
        as (c' & Hrun & Hst & Hdir & Hfile & Hcontent & Hgone & Hframe) end;
    (exists c'; split; [exact Hrun|]; rewrite Hst;
     split_and!; try done; try by apply Hframe).
Qed.

Lemma destination_active (partition : string) (s : SessionState) (p : Path.t) :
  Path.parent p = active_dir s → partition ≠ "active" →
  destination partition s p = Path.joinpath (partition_dir partition s) (Path.name p)
  ∧ destination partition s p ≠ p
  ∧ Path.parent (destination partition s p) ≠ active_dir s.
Proof.
  intros Hpar Hne. unfold destination. rewrite decide_True by done.
  assert (Hdir : partition_dir partition s ≠ active_dir s).
  { unfold partition_dir, active_dir. intros Heq. by apply joinpath_inj in Heq. }
  split_and!; [done| |by rewrite parent_joinpath].
  intros Heq. apply Hdir. by rewrite <-Hpar, <-Heq, parent_joinpath.
Qed.

(** X11. [complete_session] on a session whose file is in the active
    partition: it returns; the file is then in the completed partition,
    under the same name, and no longer in the active one; it holds the
    encoding of the document, whose status is [completed] and which is
    stamped [completed]. *)
Theorem complete_session_relocates (c : Cfg) (p : Path.t) :
  session_file (self c) = Some p →
  Path.parent p = active_dir (self c) →
  let dest := Path.joinpath (completed_dir (self c)) (Path.name p) in
  ∃ c', complete_session c = (Ok tt, c')
    ∧ session_file (self c') = Some dest
    ∧ files (world c') !! dest = Some (json_dumps (ToJson.document (state (self c'))))
    ∧ files (world c') !! p = None
    ∧ meta (state (self c')) !! "status" = Some "completed"
    ∧ meta (state (self c')) !! "completed" = Some (isoformat (clock (ticks (world c)))).
Proof.
  intros Hp Hpar dest.
  destruct (destination_active "completed" (self c) p Hpar) as (Hdest & Hne & _); [done|].
  destruct (complete_session_spec c p Hp)
    as (c' & Hrun & Hfile & _ & Hcontent & Hgone & _ & Hst).
  rewrite Hdest in *. exists c'. split_and!; try done; [by apply Hgone|..];
    rewrite Hst; cbn; by simplify_map_eq.
Qed.

(** X12. [fail_session] returns with status [failed] and the stamp
    [failed_at]; [failure_reason] is set to the first 500 characters of a
    non-empty reason and left as it was for an empty one. The file ends in
    the failed partition when it was in the active one, and stays where it
    is otherwise; there it holds the encoding of the document. *)
Theorem fail_session_records_reason (reason : string) (c : Cfg) (p : Path.t) :
  session_file (self c) = Some p →
  ∃ c', fail_session reason c = (Ok tt, c')
    ∧ session_file (self c') = Some (destination "failed" (self c) p)
    ∧ files (world c') !! destination "failed" (self c) p
      = Some (json_dumps (ToJson.document (state (self c'))))
    ∧ meta (state (self c')) !! "status" = Some "failed"
    ∧ meta (state (self c')) !! "failed_at" = Some (isoformat (clock (ticks (world c))))
    ∧ meta (state (self c')) !! "failure_reason"
      = (if decide (reason = "") then meta (state (self c)) !! "failure_reason"
         else Some (Str.slice_to 500 reason)).
Proof.
  intros Hp.
  destruct (fail_session_spec reason c p Hp)
    as (c' & Hrun & Hfile & _ & Hcontent & _ & _ & Hst).
  exists c'. split_and!; try done; rewrite Hst; cbn -[Str.slice_to];
    destruct reason as [|rc rs]; cbn -[Str.slice_to]; by simplify_map_eq.
Qed.

(** X13. Finishing twice: after [complete_session] has moved the file to
    the completed partition, [fail_session] returns and rewrites the
    document in place. The file stays in the completed partition, with
    status [failed]; nothing is written under that name in the failed
    partition. *)
Theorem fail_after_complete_stays (reason : string) (c : Cfg) (p : Path.t) :
  session_file (self c) = Some p →
  Path.parent p = active_dir (self c) →
  let dest := Path.joinpath (completed_dir (self c)) (Path.name p) in
  let other := Path.joinpath (failed_dir (self c)) (Path.name p) in
  ∃ c', (complete_session;; fail_session reason) c = (Ok tt, c')
    ∧ session_file (self c') = Some dest
    ∧ files (world c') !! dest = Some (json_dumps (ToJson.document (state (self c'))))
    ∧ meta (state (self c')) !! "status" = Some "failed"
    ∧ files (world c') !! other = files (world c) !! other.
Proof.
  intros Hp Hpar dest other.
  destruct (destination_active "completed" (self c) p Hpar) as (Hdest & Hne & Hpar'); [done|].
  destruct (complete_session_spec c p Hp)
    as (c1 & Hrun1 & Hfile1 & Hdir1 & _ & _ & Hframe1 & _).
  rewrite Hdest in *. fold dest in Hfile1, Hframe1, Hne, Hpar'.
  assert (Hstay : destination "failed" (self c1) dest = dest).
  { unfold destination. rewrite decide_False; [done|].
    unfold active_dir in *. by rewrite Hdir1. }
  destruct (fail_session_spec reason c1 dest Hfile1)
    as (c2 & Hrun2 & Hfile2 & _ & Hcontent2 & _ & Hframe2 & Hst2).
  rewrite Hstay in *.
  assert (Hother : ∀ q, Path.parent q ≠ Path.parent other → other ≠ q).
  { intros q Hq ->. done. }
  assert (Hpo : Path.parent other = failed_dir (self c)) by apply parent_joinpath.
  assert (Hpd : Path.parent dest = completed_dir (self c)) by apply parent_joinpath.
  assert (Hfa : failed_dir (self c) ≠ active_dir (self c)).
  { intros Heq. by apply joinpath_inj in Heq. }
  assert (Hfc : failed_dir (self c) ≠ completed_dir (self c)).
  { intros Heq. by apply joinpath_inj in Heq. }
  assert (Hsuffix : ∀ q, Path.parent (Path.with_suffix q ".tmp") = Path.parent q).
  { intros q. unfold Path.with_suffix. apply parent_joinpath. }
  exists c2. unfold mbind, M_bind. rewrite Hrun1. split_and!; try done.
  - rewrite Hst2. cbn -[Str.slice_to].
    destruct reason; cbn -[Str.slice_to]; by simplify_map_eq.
  - rewrite Hframe2, Hframe1; [done|..]; apply Hother;
      rewrite ?Hsuffix, Hpo, ?Hpd, ?Hpar, ?parent_joinpath; intros Heq;
      first [apply Hfa; symmetry; exact Heq|apply Hfc; symmetry; exact Heq].
Qed.

End Lifecycle.

(** ** Task transitions *)

Section Transitions.
Context `{Host}.

Lemma start_task_tasks (tid : string) (c : Cfg) :
  ∃ c', start_task tid c = (Ok tt, c')
    ∧ tasks (state (self c'))
      = <[tid := {[ "status" := "in_progress";
                    "started" := isoformat (clock (ticks (world c))) ]}]>
          (tasks (state (self c))).
Proof.
  unfold start_task. run_method.
  match goal with |- context [_save ?c1] =>
    destruct (_save_returns c1) as (c' & -> & _ & _ & [f Hst]) end.
  exists c'. by rewrite Hst.
Qed.

Lemma complete_task_tasks (tid : string) (c : Cfg) (r : gmap string string) :
  tasks (state (self c)) !! tid = Some r →
  ∃ c', complete_task tid c = (Ok tt, c')
    ∧ tasks (state (self c'))
      = <[tid := <["completed" := isoformat (clock (ticks (world c)))]>
                   (<["status" := "completed"]> r)]> (tasks (state (self c)))
    ∧ current_task (execution (state (self c'))) = None
    ∧ commands (execution (state (self c'))) = commands (execution (state (self c)))
    ∧ resume_point (state (self c')) = resume_point (state (self c))
    ∧ plan (state (self c')) = plan (state (self c)).
Proof.
  intros Hr. unfold complete_task, task_setitem. run_method. rewrite Hr. run_method.
  rewrite lookup_insert_eq. run_method.
  match goal with |- context [_save ?c1] =>
    destruct (_save_returns c1) as (c' & -> & _ & _ & [f Hst]) end.
  exists c'. rewrite Hst. cbn. split_and!; try done. by rewrite insert_insert_eq.
Qed.

Lemma skip_task_tasks (tid : string) (c : Cfg) :
  ∃ c', skip_task tid c = (Ok tt, c')
    ∧ tasks (state (self c'))
      = <[tid := {[ "status" := "skipped";
                    "skipped_at" := isoformat (clock (ticks (world c))) ]}]>
          (tasks (state (self c)))
    ∧ execution (state (self c')) = execution (state (self c))
    ∧ resume_point (state (self c')) = resume_point (state (self c))
    ∧ plan (state (self c')) = plan (state (self c)).
Proof.
  unfold skip_task. run_method.
  match goal with |- context [_save ?c1] =>
    destruct (_save_returns c1) as (c' & -> & _ & _ & [f Hst]) end.
  exists c'. by rewrite Hst.
Qed.

(** X14. [skip_task] never fails: whether or not the task has a record,
    its record becomes exactly [{status: skipped, skipped_at: now}]; the
    other records, the plan, the resume point and the current task are left
    as they are (skipping the current task does not clear it). *)
Theorem skip_task_overwrites (tid : string) (c : Cfg) :
  ∃ c', skip_task tid c = (Ok tt, c')
    ∧ tasks (state (self c'))
      = <[tid := {[ "status" := "skipped";
                    "skipped_at" := isoformat (clock (ticks (world c))) ]}]>
          (tasks (state (self c)))
    ∧ execution (state (self c')) = execution (state (self c))
    ∧ resume_point (state (self c')) = resume_point (state (self c))
    ∧ plan (state (self c')) = plan (state (self c)).
Proof. apply skip_task_tasks. Qed.

(** X15. [complete_task] on a task that has a record sets [status] and
    [completed] in that record and keeps its other fields (an [error] left
    by an earlier failure stays). It clears the current task whatever it
    was, also when another task was current, and it leaves the resume
    point, the plan and the other records as they are. *)
Theorem complete_task_updates_in_place (tid : string) (c : Cfg) (r : gmap string string) :
  tasks (state (self c)) !! tid = Some r →
  ∃ c' r', complete_task tid c = (Ok tt, c')
    ∧ tasks (state (self c')) = <[tid := r']> (tasks (state (self c)))
    ∧ r' !! "status" = Some "completed"
    ∧ r' !! "completed" = Some (isoformat (clock (ticks (world c))))
    ∧ (∀ k, k ≠ "status" → k ≠ "completed" → r' !! k = r !! k)
    ∧ current_task (execution (state (self c'))) = None
    ∧ resume_point (state (self c')) = resume_point (state (self c))
    ∧ plan (state (self c')) = plan (state (self c)).
Proof.
  intros Hr.
  destruct (complete_task_tasks tid c r Hr) as (c' & Hrun & Ht & Hcur & _ & Hres & Hplan).
  eexists c', _. split_and!; [done|exact Ht|by simplify_map_eq|by simplify_map_eq| |done..].
  intros k H1 H2. by rewrite !lookup_insert_ne.
Qed.

(** The ids with a given status, once one record is written. *)
Lemma tasks_with_status_insert (w tid : string) (r : gmap string string) (d d' : Document) :
  tasks d' = <[tid := r]> (tasks d) →
  tasks_with_status w d'
  = if decide (r !! "status" = Some w) then {[ tid ]} ∪ tasks_with_status w d
    else tasks_with_status w d ∖ {[ tid ]}.
Proof.
  intros Ht. apply set_eq. intros i. unfold tasks_with_status.
  assert (Hin : ∀ m : gmap string (gmap string string),
    i ∈ dom (filter (λ kv : string * gmap string string, kv.2 !! "status" = Some w) m)
    ↔ ∃ x, m !! i = Some x ∧ x !! "status" = Some w).
  { intros m. rewrite elem_of_dom. unfold is_Some.
    setoid_rewrite map_lookup_filter_Some. naive_solver. }
  rewrite Ht. case_decide as Hw.
  - rewrite elem_of_union, elem_of_singleton, !Hin. split.
    + intros (x & Hx & Hxs). destruct (decide (i = tid)) as [->|Hne]; [by left|].
      right. rewrite lookup_insert_ne in Hx by done. eauto.
    + intros [->|(x & Hx & Hxs)].
      * exists r. by rewrite lookup_insert_eq.
      * destruct (decide (i = tid)) as [->|Hne].
        -- exists r. by rewrite lookup_insert_eq.
        -- exists x. by rewrite lookup_insert_ne.
  - rewrite elem_of_difference, elem_of_singleton, !Hin. split.
    + intros (x & Hx & Hxs). destruct (decide (i = tid)) as [->|Hne].
      * rewrite lookup_insert_eq in Hx. congruence.
      * rewrite lookup_insert_ne in Hx by done. eauto.
    + intros [(x & Hx & Hxs) Hne]. exists x. by rewrite lookup_insert_ne.
Qed.

(** X16. What the queries report after a transition. After [start_task]
    the task is neither completed nor pending, even if it was completed
    before; after [complete_task] of a task that has a record it is
    completed and not pending; after [skip_task] it is neither. The other
    tasks are reported as before. *)
Theorem queries_follow_transitions (tid : string) (c : Cfg) :
  (get_completed_tasks (state (self (start_task tid c).2))
     = get_completed_tasks (state (self c)) ∖ {[ tid ]}
   ∧ get_pending_tasks (state (self (start_task tid c).2))
     = get_pending_tasks (state (self c)) ∖ {[ tid ]})
  ∧ (get_completed_tasks (state (self (skip_task tid c).2))
       = get_completed_tasks (state (self c)) ∖ {[ tid ]}
     ∧ get_pending_tasks (state (self (skip_task tid c).2))
       = get_pending_tasks (state (self c)) ∖ {[ tid ]})
  ∧ (is_Some (tasks (state (self c)) !! tid) →
     get_completed_tasks (state (self (complete_task tid c).2))
       = {[ tid ]} ∪ get_completed_tasks (state (self c))
     ∧ get_pending_tasks (state (self (complete_task tid c).2))
       = get_pending_tasks (state (self c)) ∖ {[ tid ]}).
Proof.
  unfold get_completed_tasks, get_pending_tasks. split_and!.
  - destruct (start_task_tasks tid c) as (c' & -> & Ht).
    by rewrite (tasks_with_status_insert _ _ _ _ _ Ht).
  - destruct (start_task_tasks tid c) as (c' & -> & Ht).
    by rewrite (tasks_with_status_insert _ _ _ _ _ Ht).
  - destruct (skip_task_tasks tid c) as (c' & -> & Ht & _).
    by rewrite (tasks_with_status_insert _ _ _ _ _ Ht).
  - destruct (skip_task_tasks tid c) as (c' & -> & Ht & _).
    by rewrite (tasks_with_status_insert _ _ _ _ _ Ht).
  - intros [r Hr].
    destruct (complete_task_tasks tid c r Hr) as (c' & -> & Ht & _).
    rewrite !(tasks_with_status_insert _ _ _ _ _ Ht).
    rewrite decide_True by (by simplify_map_eq).
    rewrite decide_False by (by simplify_map_eq). done.
Qed.

End Transitions.


(** ** What an operation leaves alone *)

Section Frames.
Context `{Host}.

#[local] Instance same_record_preorder (j : string) : PreOrder (same_record j).
Proof.
  split; [by intros d|]. intros d1 d2 d3 H12 H23. unfold same_record in *. congruence.
Qed.

(** Breaks a method into its statements, for the relation [R]. *)
Ltac psteps R tac :=
  repeat first
    [ tac
    | apply (preserves_save R); intros
    | apply (preserves_relocate R)
    | apply (preserves_ret R)
    | apply (preserves_raise R)
    | apply (preserves_now R)
    | apply (preserves_get_state_any R)
    | lazymatch goal with
      | |- preserves _ (mbind _ _) => apply (preserves_bind R); [|intros]
      | |- preserves _ (modify _) => apply (preserves_modify R); intros
      end ].

Lemma task_setitem_same_record (j tid k v : string) :
  tid ≠ j → preserves (same_record j) (task_setitem tid k v).
Proof.
  intros Hne. unfold task_setitem. psteps (same_record j) fail.
  destruct (tasks _ !! tid); psteps (same_record j) fail.
  unfold same_record. cbn. by rewrite lookup_insert_ne.
Qed.

Lemma exec_same_record (o : Op) (j : string) :
  ¬ writes_task o j → preserves (same_record j) (exec o).
Proof.
  intros Hw.
  assert (Hins : ∀ tid (x : gmap string string) d, tid ≠ j →
            same_record j d (with_tasks <[tid := x]> d)).
  { intros tid x d Hne. unfold same_record. cbn. by rewrite lookup_insert_ne. }
  destruct o; unfold exec; simpl in Hw;
    try (assert (task_id0 ≠ j) by congruence).
  - unfold set_phase. psteps (same_record j) fail. case_decide; psteps (same_record j) fail; done.
  - unfold record_choice. psteps (same_record j) fail; done.
  - unfold record_user_data. psteps (same_record j) fail; done.
  - unfold set_plan. psteps (same_record j) fail; try done.
    unfold same_record. cbn. rewrite foldl_seed_pending_lookup.
    destruct (tasks d !! j); [done|]. by rewrite decide_False.
  - unfold start_task, set_current_task. psteps (same_record j) fail; try done.
    by apply Hins.
  - unfold complete_task, set_current_task.
    psteps (same_record j) ltac:(by apply task_setitem_same_record); done.
  - unfold fail_task.
    psteps (same_record j) ltac:(by apply task_setitem_same_record); done.
  - unfold skip_task. psteps (same_record j) fail; try done. by apply Hins.
  - unfold log_command_start, set_commands. psteps (same_record j) fail; done.
  - unfold log_command_end, set_commands. psteps (same_record j) fail.
    destruct (_ <? _)%Z; psteps (same_record j) fail.
    destruct (py_index _ _); psteps (same_record j) fail; try done.
    all: destruct (Str.truthy _); psteps (same_record j) fail; done.
  - unfold complete_session. psteps (same_record j) fail; done.
  - unfold fail_session. psteps (same_record j) fail; try done.
    destruct (Str.truthy _); psteps (same_record j) fail; done.
Qed.

(** X17. An operation writes no task record but its own: the record of
    [j] is the same before and after every operation that does not name
    [j] ([set_plan] names the tasks of its list), whether the operation
    returns or raises. *)
Theorem other_records_untouched (o : Op) (j : string) (c : Cfg) :
  ¬ writes_task o j →
  tasks (state (self (exec o c).2)) !! j = tasks (state (self c)) !! j.
Proof. intros Hw. by apply exec_same_record. Qed.

Section Files.
Context (p q : Path.t) (Hqp : q ≠ p) (Hqtmp : q ≠ Path.with_suffix p ".tmp").

#[local] Instance leaves_file_preorder : PreOrder (leaves_file p q).
Proof.
  split.
  - intros c Hc. done.
  - intros c1 c2 c3 H12 H23 Hc. destruct (H12 Hc) as (Hf & Hd & Hq).
    destruct (H23 Hf) as (Hf' & Hd' & Hq'). split_and!; congruence.
Qed.

Lemma cpreserves_bind {A B} (m : M A) (f : A → M B) :
  cpreserves (leaves_file p q) m → (∀ a, cpreserves (leaves_file p q) (f a)) →
  cpreserves (leaves_file p q) (m ≫= f).
Proof.
  intros Hm Hf c. unfold mbind, M_bind.
  specialize (Hm c). destruct (m c) as [[a|e] c1]; simpl in *; [|done].
  etrans; [exact Hm|]. apply Hf.
Qed.

Lemma cpreserves_pure {A} (m : M A) :
  (∀ c, session_file (self (m c).2) = session_file (self c)
        ∧ sessions_dir (self (m c).2) = sessions_dir (self c)
        ∧ files (world (m c).2) = files (world c)) →
  cpreserves (leaves_file p q) m.
Proof. intros Hm c Hc. destruct (Hm c) as (Hf & Hd & Hfs). by rewrite Hf, Hd, Hfs. Qed.

Lemma cpreserves_save : cpreserves (leaves_file p q) _save.
Proof.
  intros c Hc. rewrite (_save_unfold c p Hc). cbn -[save_script FS.run].
  rewrite run_save_script. split_and!; [done|done|]. cbn.
  rewrite lookup_insert_ne by done. by rewrite lookup_delete_ne.
Qed.

(** Breaks a method into its statements; what is not a [_save] leaves
    the files and the session object alone. *)
Ltac csteps tac :=
  repeat first
    [ tac
    | apply cpreserves_save
    | lazymatch goal with
      | |- cpreserves _ (mbind _ _) => apply cpreserves_bind; [|intros]
      | |- cpreserves _ (modify _) => by apply cpreserves_pure
      | |- cpreserves _ (mret _) => by apply cpreserves_pure
      | |- cpreserves _ (raise _) => by apply cpreserves_pure
      | |- cpreserves _ now => by apply cpreserves_pure
      | |- cpreserves _ get_state => by apply cpreserves_pure
      end ].

Lemma task_setitem_leaves_file (tid k v : string) :
  cpreserves (leaves_file p q) (task_setitem tid k v).
Proof. unfold task_setitem. csteps fail. destruct (tasks _ !! tid); csteps fail. Qed.

(** The operations up to their last [_save]. *)
Lemma exec_in_place (o : Op) :
  o ≠ CompleteSession → (∀ r, o ≠ FailSession r) →
  cpreserves (leaves_file p q) (exec o).
Proof.
  intros Hc Hf. destruct o; unfold exec; try done.
  - unfold set_phase. csteps fail. case_decide; csteps fail.
  - unfold record_choice. csteps fail.
  - unfold record_user_data. csteps fail.
  - unfold set_plan. csteps fail.
  - unfold start_task, set_current_task. csteps fail.
  - unfold complete_task, set_current_task. csteps ltac:(apply task_setitem_leaves_file).
  - unfold fail_task. csteps ltac:(apply task_setitem_leaves_file).
  - unfold skip_task. csteps fail.
  - unfold log_command_start, set_commands. csteps fail.
  - unfold log_command_end, set_commands. csteps fail.
    destruct (_ <? _)%Z; csteps fail. destruct (py_index _ _); csteps fail.
    all: destruct (Str.truthy _); csteps fail.
  - by destruct (Hf reason).
Qed.

(** The move: only the session file and its destination change. *)
Lemma relocate_leaves (partition : string) (c : Cfg) :
  session_file (self c) = Some p →
  q ≠ Path.joinpath (partition_dir partition (self c)) (Path.name p) →
  files (world (relocate (partition_dir partition) c).2) !! q = files (world c) !! q.
Proof.
  intros Hc Hq. unfold relocate, fs_exec, set_session_file. run_method. rewrite Hc.
  case_decide; [|done]. cbn.
  destruct (files (world c) !! p); cbn; [|done].
  rewrite lookup_insert_ne by done. by rewrite lookup_delete_ne.
Qed.

Lemma save_relocate_leaves (partition : string) (c : Cfg) :
  session_file (self c) = Some p →
  q ≠ Path.joinpath (partition_dir partition (self c)) (Path.name p) →
  files (world ((_save;; relocate (partition_dir partition)) c).2) !! q
  = files (world c) !! q.
Proof.
  intros Hc Hq. unfold mbind, M_bind.
  destruct (cpreserves_save c Hc) as (Hf & Hd & Hfs).
  destruct (_save c) as [[[]|e] c1]; cbn in *; [|done].
  rewrite relocate_leaves; [done|done|].
  unfold partition_dir in *. by rewrite Hd.
Qed.

End Files.

(** X18. An operation writes nowhere but at the session's own paths: for
    a session whose file is [p], every file other than [p], its temporary
    sibling [p.with_suffix('.tmp')] and the two places [p] can be moved to
    (its name in the completed and in the failed partition) is the same
    before and after any operation, whether it returns or raises. *)
Theorem other_files_untouched (o : Op) (c : Cfg) (p q : Path.t) :
  session_file (self c) = Some p →
  q ≠ p →
  q ≠ Path.with_suffix p ".tmp" →
  q ≠ Path.joinpath (completed_dir (self c)) (Path.name p) →
  q ≠ Path.joinpath (failed_dir (self c)) (Path.name p) →
  files (world (exec o c).2) !! q = files (world c) !! q.
Proof.
  intros Hc Hqp Hqtmp Hqc Hqf.
  destruct o;
    try (by eapply exec_in_place; [exact Hqp|exact Hqtmp|done|done|exact Hc]).
  - unfold exec, complete_session. run_method.
    match goal with |- context [_save ?c1] =>
      exact (save_relocate_leaves p q Hqp Hqtmp "completed" c1 Hc Hqc) end.
  - unfold exec, fail_session. run_method.
    destruct reason; run_method;
      match goal with |- context [_save ?c1] =>
        exact (save_relocate_leaves p q Hqp Hqtmp "failed" c1 Hc Hqf) end.
Qed.

End Frames.

(** ** Interruption *)

Section Interruption.
Context `{Host}.

(** X19. The signal handler on a session that has a file. When the
    status is [active] it sets it to [interrupted], stamps
    [interrupted_at], saves (the file holds the encoding of the document)
    and exits with status 0; a second signal then changes nothing. When the
    status is anything else (completed, failed, interrupted) it exits with
    status 0 without touching the document, the clock or the files. *)
Theorem shutdown_marks_interrupted (c : Cfg) (p : Path.t) :
  session_file (self c) = Some p →
  if decide (meta (state (self c)) !! "status" = Some "active") then
    ∃ c', _handle_shutdown c = (Ok 0%Z, c')
      ∧ meta (state (self c')) !! "status" = Some "interrupted"
      ∧ meta (state (self c')) !! "interrupted_at"
        = Some (isoformat (clock (ticks (world c))))
      ∧ files (world c') !! p = Some (json_dumps (ToJson.document (state (self c'))))
      ∧ same_tasks_side (state (self c)) (state (self c'))
      ∧ _handle_shutdown c' = (Ok 0%Z, c')
  else _handle_shutdown c = (Ok 0%Z, c).
Proof.
  intros Hp. case_decide as Hact.
  - unfold _handle_shutdown at 1. run_method. rewrite decide_True by done. run_method.
    match goal with |- context [_save ?c1] =>
      rewrite (_save_unfold c1 p Hp) end.
    cbn -[save_script FS.run]. eexists. split; [done|].
    cbn -[save_script FS.run]. rewrite run_save_script.
    unfold saved_document. cbn.
    split_and!; try done; try (by simplify_map_eq); try (by apply lookup_insert_eq).
    unfold _handle_shutdown. run_method. rewrite decide_False; [done|].
    by simplify_map_eq.
  - unfold _handle_shutdown. run_method. by rewrite decide_False.
Qed.

(** X20. The [KeyboardInterrupt] branch of the provisioner, on an active
    session that has a file: the status becomes [interrupted] and the
    document is saved, but unlike the signal handler it does not stamp
    [interrupted_at]; on a session that is not active it does nothing. *)
Theorem keyboard_interrupt_saves (c : Cfg) (p : Path.t) :
  session_file (self c) = Some p →
  if decide (meta (state (self c)) !! "status" = Some "active") then
    ∃ c', save_on_keyboard_interrupt c = (Ok tt, c')
      ∧ meta (state (self c')) !! "status" = Some "interrupted"
      ∧ meta (state (self c')) !! "interrupted_at"
        = meta (state (self c)) !! "interrupted_at"
      ∧ files (world c') !! p = Some (json_dumps (ToJson.document (state (self c'))))
  else save_on_keyboard_interrupt c = (Ok tt, c).
Proof.
  intros Hp. case_decide as Hact.
  - unfold save_on_keyboard_interrupt. run_method. rewrite decide_True by done.
    run_method.
    match goal with |- context [_save ?c1] =>
      rewrite (_save_unfold c1 p Hp) end.
    cbn -[save_script FS.run]. eexists. split; [done|].
    cbn -[save_script FS.run]. rewrite run_save_script.
    unfold saved_document. cbn.
    split_and!; try done; try (by simplify_map_eq); try (by apply lookup_insert_eq).
  - unfold save_on_keyboard_interrupt. run_method. by rewrite decide_False.
Qed.

End Interruption.


(** ** The audit report *)

Section Reports.
Context `{Host}.

(** What [check_tool] fills in, field by field. *)
Lemma check_tool_fields (tid : string) (task : Task) (quick : bool) (st : ToolStatus) :
  check_tool tid task quick = Ok st →
  task_id st = tid
  ∧ (Str.truthy (error st) = true → installed st = false)
  ∧ (installed st = false ∨ quick = true → version st = None ∧ install_path st = None).
Proof.
  unfold check_tool. destruct (negb _).
  { intros [= <-]. simpl. split_and!; done. }
  destruct (run_command _ _) as [code out].
  destruct (code =? 0)%Z, quick; simpl.
  - intros [= <-]. simpl. split_and!; done.
  - destruct (get_install_path task); [|done].
    intros [= <-]. simpl. split_and!; try done. by intros [|].
  - intros [= <-]. simpl. split_and!; done.
  - intros [= <-]. simpl. split_and!; done.
Qed.

Lemma probe_all_fields (todo : list (string * Task)) (quick : bool)
    (sts : list ToolStatus) :
  probe_all todo quick = Ok sts →
  task_id <$> sts = todo.*1
  ∧ Forall (λ st, Str.truthy (error st) = true → installed st = false) sts
  ∧ Forall (λ st, installed st = false ∨ quick = true →
                  version st = None ∧ install_path st = None) sts.
Proof.
  revert sts. induction todo as [|[tid task] todo IH]; intros sts; simpl.
  - intros [= <-]. split_and!; by constructor.
  - destruct (check_tool tid task quick) as [st|] eqn:Hc; [|done].
    destruct (probe_all todo quick) as [sts'|]; [|done].
    intros [= <-]. destruct (IH sts' eq_refl) as (Hids & Herr & Hver).
    apply check_tool_fields in Hc as (Hid & He & Hv).
    split_and!; [by rewrite fmap_cons, Hid, Hids|by constructor..].
Qed.

(** The three counts of a summary add up to the total when no tool has
    both an error and [installed]. *)
Lemma counts_partition (ts : list ToolStatus) :
  Forall (λ st, Str.truthy (error st) = true → installed st = false) ts →
  installed_count (summarize ts) + not_installed_count (summarize ts)
    + errors_count (summarize ts) = total_tools (summarize ts).
Proof.
  unfold summarize. cbn [installed_count not_installed_count errors_count total_tools].
  induction 1 as [|t ts Ht _ IH]; [done|].
  rewrite !filter_cons. cbn [length].
  destruct (installed t) eqn:Hi, (Str.truthy (error t)) eqn:He;
    try (specialize (Ht eq_refl); discriminate);
    repeat case_decide; try done; try naive_solver; cbn [length]; lia.
Qed.


Lemma check_tool_quick (tid : string) (task : Task) :
  ∃ st, check_tool tid task true = Ok st.
Proof.
  unfold check_tool. destruct (negb _); [by eexists|].
  destruct (run_command _ _) as [code out].
  rewrite andb_false_r. by eexists.
Qed.

Lemma probe_all_quick (todo : list (string * Task)) :
  ∃ sts, probe_all todo true = Ok sts.
Proof.
  induction todo as [|[tid task] todo [sts IH]]; simpl; [by eexists|].
  destruct (check_tool_quick tid task) as [st ->]. rewrite IH. by eexists.
Qed.

Lemma foldl_tally_lookup (ts : list ToolStatus) (m : gmap string (nat * nat)) (k : string) :
  foldl tally m ts !! k =
    let n := length (filter (λ t, category t = k) ts) in
    let i := length (filter (λ t, installed t = true) (filter (λ t, category t = k) ts)) in
    if decide (n = 0) then m !! k
    else Some ((default (0, 0) (m !! k)).1 + i, (default (0, 0) (m !! k)).2 + n).
Proof.
  revert m. induction ts as [|t ts IH]; intros m; cbn [foldl].
  - done.
  - rewrite IH, tally_lookup. cbv zeta. rewrite !filter_cons.
    destruct (decide (category t = k)) as [Hk|Hk].
    + rewrite (decide_True (P := k = category t)) by done. rewrite filter_cons.
      set (l := filter (λ t0, category t0 = k) ts).
      set (i := length (filter (λ t0, installed t0 = true) l)).
      destruct (m !! k) as [[a b]|], (installed t) eqn:Hi;
        cbn [default fst snd id];
        rewrite ?(decide_True (P := true = true)), ?(decide_False (P := false = true)) by done;
        cbn [length]; fold i;
        rewrite (decide_False (P := S (length l) = 0)) by done;
        destruct (decide (length l = 0)) as [Hl|Hl];
        try (assert (i = 0) as -> by (subst i; destruct l; done); rewrite Hl);
        f_equal; f_equal; lia.
    + rewrite (decide_False (P := k = category t)) by done. done.
Qed.

(** X21. A report that [run_audit] returns counts every task of the
    manifest once: [total_tools] is the size of the manifest and of the
    tools list, and the installed, not-installed and error counts add up
    to it (no status carries both an error and [installed]). *)
Theorem run_audit_summary_counts (tick : nat)
    (manifest completion : list (string * Task)) (quick parallel : bool)
    (r : AuditReport) :
  completion ≡ₚ manifest →
  run_audit tick manifest completion quick parallel = Ok r →
  total_tools (summary r) = length manifest
  ∧ total_tools (summary r) = length (tools r)
  ∧ installed_count (summary r) + not_installed_count (summary r)
      + errors_count (summary r) = total_tools (summary r).
Proof.
  intros Hperm. unfold run_audit.
  set (todo := if parallel && negb quick then completion else manifest).
  assert (Htodo : todo ≡ₚ manifest) by (subst todo; by destruct (_ && _)).
  destruct (probe_all todo quick) as [sts|] eqn:Hp; [|done].
  intros [= <-]. cbn [summary tools].
  destruct (probe_all_fields _ _ _ Hp) as (Hids & Herr & _).
  split_and!.
  - cbn [summarize total_tools]. rewrite sort_tools_perm, <- Htodo.
    by rewrite <- (length_fmap task_id), Hids, length_fmap.
  - done.
  - apply counts_partition. by rewrite sort_tools_perm.
Qed.

(** X22. [by_category] has an entry exactly for the categories of the
    tools; the entry holds the number of installed tools and the number
    of tools of that category. *)
Theorem by_category_counts (ts : list ToolStatus) (k : string) :
  by_category (summarize ts) !! k =
    let of_k := filter (λ t, category t = k) ts in
    if decide (of_k = []) then None
    else Some (length (filter (λ t, installed t = true) of_k), length of_k).
Proof.
  cbn [summarize by_category]. rewrite foldl_tally_lookup. cbv zeta.
  rewrite lookup_empty.
  destruct (filter (λ t, category t = k) ts) as [|t l]; [done|].
  rewrite decide_False by done. rewrite decide_False by done. done.
Qed.

(** X23. The tools of a report are in the order of their (category, name)
    keys, and there is exactly one status for each task of the manifest. *)
Theorem run_audit_tools_sorted (tick : nat)
    (manifest completion : list (string * Task)) (quick parallel : bool)
    (r : AuditReport) :
  completion ≡ₚ manifest →
  run_audit tick manifest completion quick parallel = Ok r →
  Sorted key_le (tools r)
  ∧ task_id <$> tools r ≡ₚ manifest.*1
  ∧ sort_key <$> tools r ≡ₚ task_key <$> manifest.
Proof.
  intros Hperm. unfold run_audit.
  set (todo := if parallel && negb quick then completion else manifest).
  assert (Htodo : todo ≡ₚ manifest) by (subst todo; by destruct (_ && _)).
  destruct (probe_all todo quick) as [sts|] eqn:Hp; [|done].
  intros [= <-]. cbn [tools].
  destruct (probe_all_fields _ _ _ Hp) as (Hids & _ & _).
  split_and!.
  - apply sort_tools_sorted.
  - by rewrite sort_tools_perm, Hids, Htodo.
  - by rewrite sort_tools_perm, (probe_all_keys _ _ _ Hp), Htodo.
Qed.

(** X24. A quick audit does not use the worker pool and does not look
    for versions or paths: its result, a report or an exception, is the
    same whatever the [parallel] flag is and in whatever order the pool
    would finish, and no status of a report it returns has a version or
    an install path. *)
Theorem quick_audit_ignores_pool (tick : nat)
    (manifest completion : list (string * Task)) (parallel : bool) :
  run_audit tick manifest completion true parallel = run_audit tick manifest [] true false
  ∧ ∀ r, run_audit tick manifest completion true parallel = Ok r →
         Forall (λ t, version t = None ∧ install_path t = None) (tools r).
Proof.
  split.
  - unfold run_audit. by rewrite andb_false_r.
  - intros r. unfold run_audit. rewrite andb_false_r.
    destruct (probe_all manifest true) as [sts|] eqn:Hp; [|done].
    intros [= <-]. cbn [tools]. rewrite sort_tools_perm.
    destruct (probe_all_fields _ _ _ Hp) as (_ & _ & Hver).
    eapply Forall_impl; [exact Hver|]. intros st Hst. apply Hst. by right.
Qed.

(** A check command with nothing but white space after its first
    [command -v]: looking for the install path takes the first word of an
    empty list. *)
Lemma get_install_path_dangling (task : Task) (cmd rest : string) :
  check_command (detection_of task) = Some cmd →
  (∀ ind, installed_indicator (detection_of task) = Some ind →
          Str.startswith "/Applications" ind = true → path_exists ind = false) →
  Str.contains "command -v" cmd = true →
  Str.split_on "command -v" cmd !! 1 = Some rest →
  Str.strip rest = "" →
  get_install_path task = Raise IndexError.
Proof.
  intros Hcmd Hind Hc Hparts Hrest. unfold get_install_path. rewrite Hcmd.
  change (default "" (Some cmd)) with cmd. cbv zeta. rewrite Hc, Hparts.
  assert ((1 <? length (Str.split_on "command -v" cmd)) = true) as ->.
  { apply Nat.ltb_lt. by eapply lookup_lt_Some. }
  change (default "" (Some rest)) with rest. rewrite Hrest. cbn [Str.first_word Str.lstrip].
  destruct (installed_indicator (detection_of task)) as [ind|]; [|done].
  destruct (Str.truthy (Some ind)); [|done].
  destruct (Str.startswith "/Applications" ind) eqn:Hs; [|done].
  by rewrite (Hind ind eq_refl Hs).
Qed.

Lemma probe_all_raises_at (todo : list (string * Task)) (tid : string) (task : Task) :
  (tid, task) ∈ todo →
  check_tool tid task false = Raise IndexError →
  probe_all todo false = Raise IndexError.
Proof.
  intros Hin Hraise. induction todo as [|[tid' task'] todo IH]; [by apply elem_of_nil in Hin|].
  simpl. destruct (check_tool tid' task' false) as [st|e] eqn:Hc.
  - apply elem_of_cons in Hin as [[= -> ->]|Hin]; [congruence|].
    by rewrite (IH Hin).
  - by rewrite (check_tool_raises _ _ _ _ Hc).
Qed.

(** X25. A check command that succeeds, contains [command -v] and has
    nothing but white space after its first [command -v] makes the full
    probe of the task raise [IndexError] (unless [installed_indicator]
    names an existing path under [/Applications]): the path lookup takes
    the first word of an empty list. A full audit of a manifest with such
    a task raises [IndexError] and returns no report, in both modes. *)
Theorem dangling_command_raises (tick : nat)
    (manifest completion : list (string * Task)) (parallel : bool)
    (tid : string) (task : Task) (cmd rest : string) :
  completion ≡ₚ manifest →
  (tid, task) ∈ manifest →
  check_command (detection_of task) = Some cmd →
  (run_command cmd 10).1 = 0%Z →
  (∀ ind, installed_indicator (detection_of task) = Some ind →
          Str.startswith "/Applications" ind = true → path_exists ind = false) →
  Str.contains "command -v" cmd = true →
  Str.split_on "command -v" cmd !! 1 = Some rest →
  Str.strip rest = "" →
  check_tool tid task false = Raise IndexError
  ∧ run_audit tick manifest completion false parallel = Raise IndexError.
Proof.
  intros Hperm Hin Hcmd Hcode Hind Hc Hparts Hrest.
  assert (Hraise : check_tool tid task false = Raise IndexError).
  { unfold check_tool. rewrite Hcmd.
    assert (Str.truthy (Some cmd) = true) as ->.
    { destruct cmd; [discriminate Hc|done]. }
    cbn [negb]. change (default "" (Some cmd)) with cmd.
    destruct (run_command cmd 10) as [code out]. simpl in Hcode. subst code.
    cbn [Z.eqb andb negb].
    by rewrite (get_install_path_dangling task cmd rest). }
  split; [done|]. unfold run_audit.
  rewrite (probe_all_raises_at _ tid task); [done| |done].
  destruct (parallel && negb false); [by rewrite Hperm|done].
Qed.

(** X26. The fields of a status that [check_tool] returns: the task id is
    the one asked for; the detection method has at most 60 characters and
    a version at most 50; a version or an install path is present only on
    an installed tool probed in full; the only error is the missing check
    command, on a status that is not installed. *)
Theorem check_tool_status_fields (tid : string) (task : Task) (quick : bool)
    (st : ToolStatus) :
  check_tool tid task quick = Ok st →
  task_id st = tid
  ∧ String.length (detection_method st) ≤ 60
  ∧ (∀ v, version st = Some v →
       String.length v ≤ 50 ∧ installed st = true ∧ quick = false)
  ∧ (∀ p, install_path st = Some p → installed st = true ∧ quick = false)
  ∧ (error st = None
     ∨ error st = Some "No detection command" ∧ installed st = false
       ∧ detection_method st = "(none)").
Proof.
  assert (Hver : ∀ v, get_version task = Some v → String.length v ≤ 50).
  { intros v. unfold get_version.
    destruct (version_command _) as [cmd|]; [|done].
    destruct (Str.truthy _); [|done].
    destruct (run_command _ _) as [code out].
    destruct (_ && _); [|done].
    intros [= <-]. rewrite slice_to_length. lia. }
  assert (Hmethod : String.length
            (if Str.truthy (check_command (detection_of task))
             then Str.slice_to 60 (default "" (check_command (detection_of task)))
             else "(none)") ≤ 60).
  { destruct (Str.truthy _); [rewrite slice_to_length|simpl]; lia. }
  unfold check_tool. destruct (Str.truthy (check_command _)) eqn:Hcmd; cbn [negb].
  2: { intros [= <-]. cbn. split_and!; first [done|lia|by right]. }
  destruct (run_command _ _) as [code out].
  destruct (code =? 0)%Z, quick; cbn [andb negb].
  2: (destruct (get_install_path task) as [path|]; [|done]).
  all: intros [= <-]; cbn [task_id detection_method version install_path error installed];
    split_and!; try done; try (by left).
  intros v Hv. split_and!; try done. by apply Hver.
Qed.

End Reports.

Section DriftSets.
Context `{Host}.


End DriftSets.


(** ** [_deep_update] *)

Section DeepUpdate.

Lemma _deep_update_get (base updates : gmap string json) (k : string) :
  _deep_update base updates !! k =
    match updates !! k with
    | None => base !! k
    | Some v => Some (match base !! k with
                      | Some old => merge_value v old
                      | None => v
                      end)
    end.
Proof.
  unfold _deep_update.
  apply (map_fold_weak_ind (λ r u, r !! k =
    match u !! k with
    | None => base !! k
    | Some v => Some (match base !! k with
                      | Some old => merge_value v old
                      | None => v
                      end)
    end)).
  - by rewrite lookup_empty.
  - intros i x m r Hi IH.
    destruct (decide (i = k)) as [->|Hne].
    + rewrite !lookup_insert_eq. rewrite IH, Hi. done.
    + by rewrite !lookup_insert_ne.
Qed.

Lemma merge_value_dicts (updates base : gmap string json) :
  merge_value (JDict updates) (JDict base) = JDict (_deep_update base updates).
Proof. reflexivity. Qed.

(** X28. [_deep_update] key by key: a key that [updates] does not have
    keeps its value; a key at which both [updates] and [base] hold a
    dictionary gets the two merged by [_deep_update] itself; at any other
    key of [updates] the value of [updates] replaces what [base] had,
    a dictionary included. *)
Theorem _deep_update_lookup (base updates : gmap string json) (k : string) :
  _deep_update base updates !! k =
    match updates !! k, base !! k with
    | None, old => old
    | Some (JDict u), Some (JDict b) => Some (JDict (_deep_update b u))
    | Some v, _ => Some v
    end.
Proof.
  rewrite _deep_update_get.
  destruct (updates !! k) as [v|]; [|done].
  destruct (base !! k) as [old|]; [|by destruct v].
  destruct v; try done. by destruct old.
Qed.

Lemma json_depth_lookup (m : gmap string json) (k : string) (v : json) :
  m !! k = Some v → json_depth v < json_depth (JDict m).
Proof.
  cbn [json_depth]. revert k v.
  induction m as [|i x m Hi Hfold IH] using map_first_key_ind.
  - intros k v. by rewrite lookup_empty.
  - intros k v. rewrite map_fold_insert_first_key by done.
    destruct (decide (i = k)) as [->|Hne].
    + rewrite lookup_insert_eq. intros [= ->]. lia.
    + rewrite lookup_insert_ne by done. intros Hk. specialize (IH _ _ Hk). lia.
Qed.

Lemma json_dict_ind (P : json → Prop) :
  (∀ v, (∀ m k w, v = JDict m → m !! k = Some w → P w) → P v) →
  ∀ v, P v.
Proof.
  intros Hstep v. remember (json_depth v) as n eqn:Hn. revert v Hn.
  induction n as [n IH] using lt_wf_ind. intros v ->.
  apply Hstep. intros m k w -> Hk.
  eapply IH; [|reflexivity]. by eapply json_depth_lookup.
Qed.

Lemma merge_value_self (v : json) : merge_value v v = v.
Proof.
  induction v as [v IH] using json_dict_ind.
  destruct v as [| | | | |m]; try done.
  rewrite merge_value_dicts. f_equal. apply map_eq. intros k.
  rewrite _deep_update_get. destruct (m !! k) as [w|] eqn:Hk; [|done].
  f_equal. by eapply IH.
Qed.

Lemma merge_value_idem (v old : json) :
  merge_value v (merge_value v old) = merge_value v old.
Proof.
  revert old. induction v as [v IH] using json_dict_ind. intros old.
  destruct v as [| | | | |u]; try done.
  destruct old as [| | | | |b]; try apply merge_value_self.
  rewrite !merge_value_dicts. f_equal. apply map_eq. intros k.
  rewrite !_deep_update_get. destruct (u !! k) as [w|] eqn:Hk; [|done].
  f_equal. destruct (b !! k) as [o|].
  - by eapply IH.
  - apply merge_value_self.
Qed.

(** X29. Applying the same updates a second time changes nothing. *)
Theorem _deep_update_idempotent (base updates : gmap string json) :
  _deep_update (_deep_update base updates) updates = _deep_update base updates.
Proof.
  apply map_eq. intros k. rewrite !_deep_update_get.
  destruct (updates !! k) as [w|]; [|done].
  f_equal. destruct (base !! k) as [o|].
  - apply merge_value_idem.
  - apply merge_value_self.
Qed.

End DeepUpdate.


(** ** Versions *)

Section Versions.
Context `{Host}.

(** X30. The prefix loop of [get_version] tries [v] first, so a first
    line that begins with [version ] or [Version ] loses its first letter
    only: the two longer prefixes never match what is left. *)
Theorem get_version_strips_v_first (task : Task) (cmd out rest : string) (c : ascii) :
  version_command (detection_of task) = Some cmd →
  cmd ≠ "" →
  shell cmd 5 = Exited 0 out →
  Str.until_char "010" (Str.strip out) = String c ("ersion " +:+ rest) →
  c = "v"%char ∨ c = "V"%char →
  get_version task = Some (Str.slice_to 50 ("ersion " +:+ rest)).
Proof.
  intros Hcmd Hne Hrun Hline Hc. unfold get_version, run_command.
  rewrite Hcmd, Hrun. destruct cmd as [|c0 cmd]; [done|]. cbn [Str.truthy].
  destruct (Str.strip out) as [|o os] eqn:Hout; [done|].
  cbn [Z.eqb andb Str.truthy]. rewrite Hline.
  f_equal. f_equal.
  destruct Hc as [-> | ->]; reflexivity.
Qed.

End Versions.


(** ** The further properties on concrete runs *)

Section MoreRuns.
#[local] Existing Instance Demo.host.

(** [log_command_end_completes_entry] at the one entry of a log, with an output and no error. *)
Lemma log_command_end_completes_entry_witness :
  let c := Demo.running in
  ∃ c', log_command_end 0 true "ok" "" c = (Ok tt, c')
    ∧ commands (execution (state (self c')))
      = alter (complete_entry (isoformat (clock (ticks (world c)))) true "ok" "") 0
          (commands (execution (state (self c))))
    ∧ length (commands (execution (state (self c'))))
      = length (commands (execution (state (self c))))
    ∧ same_tasks_side (state (self c)) (state (self c')).
Proof.
  cbv zeta.
  apply (log_command_end_completes_entry 0 true "ok" "" Demo.running 0).
  reflexivity.
Defined.

(** [log_command_end_outside_log] on an empty log: index -1 raises, index 0 does nothing. *)
Lemma log_command_end_outside_log_witness :
  log_command_end (-1) true "" "" Demo.saved = (Raise IndexError, Demo.saved)
  ∧ log_command_end 0 true "" "" Demo.saved = (Ok tt, Demo.saved).
Proof.
  split.
  - apply (log_command_end_outside_log (-1) true "" "" Demo.saved). reflexivity.
  - apply (log_command_end_outside_log 0 true "" "" Demo.saved). reflexivity.
Defined.

(** The references of the running session resolve. *)
Lemma running_resolves : references_resolve Demo.running_document.
Proof.
  split_and!.
  - intros i [= <-]. vm_compute. by eexists.
  - intros r i Hr. discriminate Hr.
  - intros i Hi. vm_compute in Hi. by apply elem_of_nil in Hi.
Defined.

(** [after_command_never_raises] at a failed command of the running session. *)
Lemma after_command_never_raises_witness :
  ∃ c', after_command None (Some "boom") Demo.running = (Ok tt, c')
    ∧ (commands (execution (state (self Demo.running))) = [] → c' = Demo.running).
Proof.
  apply (after_command_never_raises None (Some "boom") Demo.running).
  exact running_resolves.
Defined.

(** [after_command_fails_current_task] at the error [boom], with [git] in progress. *)
Lemma after_command_fails_current_task_witness :
  let c := Demo.running in
  ∃ c' t, after_command None (Some "boom") c = (Ok tt, c')
    ∧ commands (execution (state (self c')))
      = alter (complete_entry (isoformat (clock (ticks (world c)))) false "" "boom") 0
          (commands (execution (state (self c))))
    ∧ tasks (state (self c')) !! "git"
      = Some (<["failed_at" := t]>
                (<["error" := Str.slice_to 500 "boom"]>
                   (<["status" := "failed"]>
                      {[ "status" := "in_progress";
                         "started" := "2026-01-01T00:00:00.1" ]})))
    ∧ resume_point (state (self c'))
      = Some {[ "task_id" := "git"; "action" := "retry_or_skip";
                "error" := Str.slice_to 200 "boom" ]}.
Proof.
  cbv zeta.
  apply (after_command_fails_current_task None "boom" "git"
           {[ "status" := "in_progress"; "started" := "2026-01-01T00:00:00.1" ]}
           Demo.running);
    [discriminate|discriminate|discriminate|reflexivity|reflexivity].
Defined.


(** [complete_session_relocates] at a saved session of the active partition. *)
Lemma complete_session_relocates_witness :
  let c := Demo.saved in
  let dest := ["sessions"; "completed"; "prov-20260101-000000-k3x9.json"] in
  ∃ c', complete_session c = (Ok tt, c')
    ∧ session_file (self c') = Some dest
    ∧ files (world c') !! dest = Some (json_dumps (ToJson.document (state (self c'))))
    ∧ files (world c') !! Demo.session_path = None
    ∧ meta (state (self c')) !! "status" = Some "completed"
    ∧ meta (state (self c')) !! "completed" = Some (isoformat (clock (ticks (world c)))).
Proof.
  cbv zeta.
  apply (complete_session_relocates Demo.saved Demo.session_path); reflexivity.
Defined.

(** [fail_session_records_reason] at the same session, with a reason. *)
Lemma fail_session_records_reason_witness :
  let c := Demo.saved in
  let dest := ["sessions"; "failed"; "prov-20260101-000000-k3x9.json"] in
  ∃ c', fail_session "disk full" c = (Ok tt, c')
    ∧ session_file (self c') = Some dest
    ∧ files (world c') !! dest = Some (json_dumps (ToJson.document (state (self c'))))
    ∧ meta (state (self c')) !! "status" = Some "failed"
    ∧ meta (state (self c')) !! "failed_at" = Some (isoformat (clock (ticks (world c))))
    ∧ meta (state (self c')) !! "failure_reason" = Some (Str.slice_to 500 "disk full").
Proof.
  cbv zeta.
  apply (fail_session_records_reason "disk full" Demo.saved Demo.session_path).
  reflexivity.
Defined.

(** [fail_after_complete_stays] at the same session. *)
Lemma fail_after_complete_stays_witness :
  let c := Demo.saved in
  let dest := ["sessions"; "completed"; "prov-20260101-000000-k3x9.json"] in
  let other := ["sessions"; "failed"; "prov-20260101-000000-k3x9.json"] in
  ∃ c', (complete_session;; fail_session "late") c = (Ok tt, c')
    ∧ session_file (self c') = Some dest
    ∧ files (world c') !! dest = Some (json_dumps (ToJson.document (state (self c'))))
    ∧ meta (state (self c')) !! "status" = Some "failed"
    ∧ files (world c') !! other = files (world c) !! other.
Proof.
  cbv zeta.
  apply (fail_after_complete_stays "late" Demo.saved Demo.session_path); reflexivity.
Defined.

(** [complete_task_updates_in_place] at the task in progress. *)
Lemma complete_task_updates_in_place_witness :
  let c := Demo.cfg "{old}" Demo.started_document in
  let r : gmap string string :=
    {[ "status" := "in_progress"; "started" := "2026-01-01T00:00:00.1" ]} in
  ∃ c' r', complete_task "git" c = (Ok tt, c')
    ∧ tasks (state (self c')) = <["git" := r']> (tasks (state (self c)))
    ∧ r' !! "status" = Some "completed"
    ∧ r' !! "completed" = Some (isoformat (clock (ticks (world c))))
    ∧ (∀ k, k ≠ "status" → k ≠ "completed" → r' !! k = r !! k)
    ∧ current_task (execution (state (self c'))) = None
    ∧ resume_point (state (self c')) = resume_point (state (self c))
    ∧ plan (state (self c')) = plan (state (self c)).
Proof.
  cbv zeta.
  apply (complete_task_updates_in_place "git" (Demo.cfg "{old}" Demo.started_document)).
  reflexivity.
Defined.

(** [other_records_untouched]: skipping [node] leaves the record of [git]. *)
Lemma other_records_untouched_witness :
  let c := Demo.cfg "{old}" Demo.started_document in
  tasks (state (self (exec (SkipTask "node") c).2)) !! "git" = tasks (state (self c)) !! "git".
Proof.
  cbv zeta.
  apply (other_records_untouched (SkipTask "node") "git"
           (Demo.cfg "{old}" Demo.started_document)).
  simpl. discriminate.
Defined.

(** [other_files_untouched]: completing the session leaves the file of another session. *)
Lemma other_files_untouched_witness :
  let q := ["sessions"; "active"; "prov-20251231-235959-zz00.json"] in
  files (world (exec CompleteSession Demo.saved).2) !! q = files (world Demo.saved) !! q.
Proof.
  cbv zeta.
  apply (other_files_untouched CompleteSession Demo.saved Demo.session_path);
    [reflexivity|discriminate|vm_compute; discriminate..].
Defined.

(** [shutdown_marks_interrupted] at an active session. *)
Lemma shutdown_marks_interrupted_witness :
  let c := Demo.saved in
  ∃ c', _handle_shutdown c = (Ok 0%Z, c')
    ∧ meta (state (self c')) !! "status" = Some "interrupted"
    ∧ meta (state (self c')) !! "interrupted_at"
      = Some (isoformat (clock (ticks (world c))))
    ∧ files (world c') !! Demo.session_path
      = Some (json_dumps (ToJson.document (state (self c'))))
    ∧ same_tasks_side (state (self c)) (state (self c'))
    ∧ _handle_shutdown c' = (Ok 0%Z, c').
Proof.
  cbv zeta.
  exact (shutdown_marks_interrupted Demo.saved Demo.session_path eq_refl).
Defined.

(** [keyboard_interrupt_saves] at an active session. *)
Lemma keyboard_interrupt_saves_witness :
  let c := Demo.saved in
  ∃ c', save_on_keyboard_interrupt c = (Ok tt, c')
    ∧ meta (state (self c')) !! "status" = Some "interrupted"
    ∧ meta (state (self c')) !! "interrupted_at"
      = meta (state (self c)) !! "interrupted_at"
    ∧ files (world c') !! Demo.session_path
      = Some (json_dumps (ToJson.document (state (self c')))).
Proof.
  cbv zeta.
  exact (keyboard_interrupt_saves Demo.saved Demo.session_path eq_refl).
Defined.

(** [run_audit_summary_counts] at two tasks, the pool finishing them in the other order. *)
Lemma run_audit_summary_counts_witness :
  ∃ r, run_audit 0 Demo.pair Demo.pair_completion false true = Ok r
    ∧ total_tools (summary r) = 2
    ∧ total_tools (summary r) = length (tools r)
    ∧ installed_count (summary r) + not_installed_count (summary r)
        + errors_count (summary r) = total_tools (summary r).
Proof.
  destruct (run_audit 0 Demo.pair Demo.pair_completion false true) as [r|e] eqn:Hr;
    [|vm_compute in Hr; discriminate].
  exists r. split; [reflexivity|].
  apply (run_audit_summary_counts 0 Demo.pair Demo.pair_completion false true r);
    [apply Permutation_swap|exact Hr].
Defined.

(** [run_audit_tools_sorted] at the same audit. *)
Lemma run_audit_tools_sorted_witness :
  ∃ r, run_audit 0 Demo.pair Demo.pair_completion false true = Ok r
    ∧ Sorted key_le (tools r)
    ∧ task_id <$> tools r ≡ₚ ["git"; "docker"]
    ∧ sort_key <$> tools r ≡ₚ task_key <$> Demo.pair.
Proof.
  destruct (run_audit 0 Demo.pair Demo.pair_completion false true) as [r|e] eqn:Hr;
    [|vm_compute in Hr; discriminate].
  exists r. split; [reflexivity|].
  apply (run_audit_tools_sorted 0 Demo.pair Demo.pair_completion false true r);
    [apply Permutation_swap|exact Hr].
Defined.

(** [dangling_command_raises] on a host where the check command
    [command -v ] succeeds. *)
Lemma dangling_command_raises_witness :
  let manifest := [("dangling", Demo.dangling)] in
  @check_tool Demo.obliging "dangling" Demo.dangling false = Raise IndexError
  ∧ @run_audit Demo.obliging 0 manifest manifest false true = Raise IndexError.
Proof.
  cbv zeta.
  apply (@dangling_command_raises Demo.obliging 0 [("dangling", Demo.dangling)]
           [("dangling", Demo.dangling)] true "dangling" Demo.dangling
           "command -v " " ");
    [reflexivity|apply list_elem_of_here|reflexivity|reflexivity|discriminate
    |reflexivity|reflexivity|reflexivity].
Defined.

(** [check_tool_status_fields] at the full probe of [git]. *)
Lemma check_tool_status_fields_witness :
  let st := {| task_id := "git"; name := "Git CLI"; category := "vcs";
               installed := true; version := Some "git version 2.43.0";
               install_path := Some "/usr/bin/git";
               detection_method := "command -v git"; error := None |} in
  task_id st = "git"
  ∧ String.length (detection_method st) ≤ 60
  ∧ (∀ v, version st = Some v →
       String.length v ≤ 50 ∧ installed st = true ∧ false = false)
  ∧ (∀ p, install_path st = Some p → installed st = true ∧ false = false)
  ∧ (error st = None
     ∨ error st = Some "No detection command" ∧ installed st = false
       ∧ detection_method st = "(none)").
Proof.
  cbv zeta.
  apply (check_tool_status_fields "git" Demo.git false).
  vm_compute. reflexivity.
Defined.


(** [get_version_strips_v_first] at the output [Version 3.1]. *)
Lemma get_version_strips_v_first_witness :
  @get_version Demo.obliging Demo.dangling = Some (Str.slice_to 50 "ersion 3.1").
Proof.
  apply (@get_version_strips_v_first Demo.obliging Demo.dangling "tool --version"
           ("Version 3.1" +:+ String "010" "") "3.1" "V");
    [reflexivity|discriminate|reflexivity|reflexivity|by right].
Defined.

End MoreRuns.
